(** * gbfs_exporter: the probe and poll pipelines of the four [main.go] files

    The repository holds four versions of one program:
    - [src/main.go]: probe handler with a [target] parameter, a registry per
      request, and process-wide gauges;
    - [src/unnamed/part_000]: probe handler on a fixed feed URL;
    - [src/unnamed/part_001]: probe handler with a [target] parameter and
      gauges created per request;
    - [src/unnamed/part_002]: background poll loop.
    [Max], the record types, [UnmarshalJSON] and [GetStationStatuses] are the
    same text in all four.  The Go packages the program calls
    ([encoding/json], [net/http], [prometheus]) are modelled as far as the
    program observes them; integers are [Z] with the int64 wrap-around
    written out. *)

From Stdlib Require Import ZArith String Ascii List Bool Lia.
From stdpp Require Import base option strings gmap list pretty.

Set Warnings "-register-all".

Local Open Scope string_scope.
Local Open Scope list_scope.
Local Open Scope Z_scope.

(** ** Go values *)

(** A Go call either returns or panics. *)
Inductive go (A : Type) : Type :=
| Returns (a : A)
| Panics.
Arguments Returns {A} a.
Arguments Panics {A}.

Module Int64.
Definition min : Z := - 2 ^ 63.
Definition max : Z := 2 ^ 63 - 1.

Definition in_range (z : Z) : bool := (min <=? z) && (z <=? max).

(** Two's complement wrap-around of the mathematical result. *)
Definition wrap (z : Z) : Z := (z + 2 ^ 63) mod 2 ^ 64 - 2 ^ 63.

Definition add (x y : Z) : Z := wrap (x + y).
Definition mul (x y : Z) : Z := wrap (x * y).
End Int64.

(** [float64(x)] for an int64 [x].  The result is an integer, kept as that
    integer: exact up to 53 bits, rounded to the nearest 53-bit significand
    (ties to even) above. *)
Definition float64 : Type := Z.

Definition float64_of_int64 (x : Z) : float64 :=
  let n := Z.abs x in
  if n <? 2 ^ 53 then x
  else
    let e := Z.log2 n - 52 in
    let q := Z.shiftr n e in
    let r := n mod 2 ^ e in
    let half := 2 ^ (e - 1) in
    let q' := if (half <? r) || ((r =? half) && Z.odd q) then q + 1 else q in
    Z.sgn x * Z.shiftl q' e.

(** ** encoding/json: values, errors *)

(** A number literal: an integer literal (no fraction, no exponent) is kept
    as its value, any other literal as its text. *)
Inductive number : Type :=
| NInt (z : Z)
| NFrac (lit : string).

(** A scanned JSON text.  Object members keep their order and their
    duplicates: the decoder handles them one by one, in order. *)
Inductive json : Type :=
| JNull
| JBool (b : bool)
| JNum (n : number)
| JStr (s : string)
| JArr (elems : list json)
| JObj (members : list (string * json)).

(** The double quote character, and text written with an apostrophe for
    each double quote. *)
Definition dquote : ascii := ascii_of_nat 34.

Fixpoint q (s : string) : string :=
  match s with
  | EmptyString => EmptyString
  | String c s' => String (if Ascii.eqb c "'" then dquote else c) (q s')
  end.

(** The Go types a value is decoded into. *)
Inductive GoType : Type :=
| T_int64
| T_string
| T_StationStatus_slice
| T_Data
| T_alias
| T_StationStatusAPIResponse.

Definition GoType_String (t : GoType) : string :=
  match t with
  | T_int64 => "int64"
  | T_string => "string"
  | T_StationStatus_slice => "[]main.StationStatus"
  | T_Data => q "struct { Stations []main.StationStatus 'json:\'stations\'' }"
  | T_alias =>
      q ("struct { Installed int64 'json:\'is_installed\''; "
         +:+ "Renting int64 'json:\'is_renting\''; "
         +:+ "Returning int64 'json:\'is_returning\''; *main.Alias }")
  | T_StationStatusAPIResponse => "main.StationStatusAPIResponse"
  end.

Inductive error : Type :=
| SyntaxError (msg : string) (Offset : Z)
| UnmarshalTypeError (Value : string) (Type_ : GoType) (Struct Field : string).

Definition Error (e : error) : string :=
  match e with
  | SyntaxError msg _ => msg
  | UnmarshalTypeError v t s f =>
      if String.eqb s "" && String.eqb f "" then
        "json: cannot unmarshal " +:+ v +:+ " into Go value of type "
          +:+ GoType_String t
      else
        "json: cannot unmarshal " +:+ v +:+ " into Go struct field "
          +:+ s +:+ "." +:+ f +:+ " of type " +:+ GoType_String t
  end.

(** ** encoding/json: matching an object key to a struct field (fold.go) *)

Module Fold.
Definition byte (c : ascii) : Z := Z.of_N (N_of_ascii c).

Definition caseMask (b : Z) : Z := Z.land b 223.

Definition is_letter (b : Z) : bool :=
  let u := caseMask b in (65 <=? u) && (u <=? 90).

Definition kelvin : string :=
  String (ascii_of_nat 226) (String (ascii_of_nat 132)
    (String (ascii_of_nat 170) EmptyString)).

Definition smallLongEss : string :=
  String (ascii_of_nat 197) (String (ascii_of_nat 191) EmptyString).

Fixpoint strip_prefix (p t : string) : option string :=
  match p with
  | EmptyString => Some t
  | String a p' =>
      match t with
      | String b t' => if Ascii.eqb a b then strip_prefix p' t' else None
      | EmptyString => None
      end
  end.

Fixpoint equalFoldRight (s t : string) : bool :=
  match s with
  | EmptyString => match t with EmptyString => true | _ => false end
  | String sc s' =>
      match t with
      | EmptyString => false
      | String tc t' =>
          let sb := byte sc in
          let tb := byte tc in
          if tb <? 128 then
            if sb =? tb then equalFoldRight s' t'
            else if is_letter sb && (caseMask sb =? caseMask tb)
                 then equalFoldRight s' t'
                 else false
          else if (sb =? 115) || (sb =? 83) then
            match strip_prefix smallLongEss t with
            | Some rest => equalFoldRight s' rest
            | None => false
            end
          else if (sb =? 107) || (sb =? 75) then
            match strip_prefix kelvin t with
            | Some rest => equalFoldRight s' rest
            | None => false
            end
          else false
      end
  end.

Fixpoint asciiEqualFold (s t : string) : bool :=
  match s, t with
  | EmptyString, EmptyString => true
  | String sc s', String tc t' =>
      let sb := byte sc in
      let tb := byte tc in
      if sb =? tb then asciiEqualFold s' t'
      else if ((97 <=? sb) && (sb <=? 122)) || ((65 <=? sb) && (sb <=? 90))
           then (caseMask sb =? caseMask tb) && asciiEqualFold s' t'
           else false
  | _, _ => false
  end.

Fixpoint simpleLetterEqualFold (s t : string) : bool :=
  match s, t with
  | EmptyString, EmptyString => true
  | String sc s', String tc t' =>
      (caseMask (byte sc) =? caseMask (byte tc))
      && simpleLetterEqualFold s' t'
  | _, _ => false
  end.

Inductive folder : Type := UnicodeFold | Right | Ascii | Simple.

(** [foldFunc]: which comparison a field name gets.  A name with a byte
    above 127 would get [bytes.EqualFold]; the program has no such name. *)
Fixpoint classify (s : string) (nonLetter special : bool) : folder :=
  match s with
  | EmptyString =>
      if special then Right else if nonLetter then Ascii else Simple
  | String c s' =>
      let b := byte c in
      if 128 <=? b then UnicodeFold
      else
        let u := caseMask b in
        if (u <? 65) || (90 <? u) then classify s' true special
        else if (u =? 75) || (u =? 83) then classify s' nonLetter true
        else classify s' nonLetter special
  end.

Definition equalFold (name key : string) : bool :=
  match classify name false false with
  | Right => equalFoldRight name key
  | Ascii => asciiEqualFold name key
  | Simple => simpleLetterEqualFold name key
  | UnicodeFold => String.eqb name key
  end.

(** The field search of [decodeState.object]: an exact match stops the
    search, otherwise the first name equal under folding is taken. *)
Fixpoint search {F : Type} (fields : list (F * string)) (key : string)
    (f : option F) : option F :=
  match fields with
  | [] => f
  | (ff, name) :: rest =>
      if String.eqb name key then Some ff
      else search rest key
             (match f with
              | None => if equalFold name key then Some ff else None
              | Some _ => f
              end)
  end.

Definition field_of {F : Type} (fields : list (F * string)) (key : string)
    : option F :=
  search fields key None.
End Fold.

(** ** encoding/json: the decoder state and the stores into scalar fields *)

Record decodeState : Type := { savedError : option error }.

Definition saveError (d : decodeState) (e : error) : decodeState :=
  match savedError d with
  | None => {| savedError := Some e |}
  | Some _ => d
  end.

Definition number_text (n : number) : string :=
  match n with
  | NInt z => pretty z
  | NFrac lit => lit
  end.

(** The word [UnmarshalTypeError.Value] gets for a JSON value stored into a
    Go value of another kind. *)
Definition kind_word (v : json) : string :=
  match v with
  | JNull => "null"
  | JBool _ => "bool"
  | JNum _ => "number"
  | JStr _ => "string"
  | JArr _ => "array"
  | JObj _ => "object"
  end.

(** Store [v] into an int64 that holds [old]; [null] leaves it alone. *)
Definition store_int64 (Struct Field : string) (v : json) (old : Z)
    (d : decodeState) : Z * decodeState :=
  match v with
  | JNull => (old, d)
  | JNum (NInt z) =>
      if Int64.in_range z then (z, d)
      else (old, saveError d
              (UnmarshalTypeError ("number " +:+ pretty z) T_int64 Struct Field))
  | JNum (NFrac lit) =>
      (old, saveError d
              (UnmarshalTypeError ("number " +:+ lit) T_int64 Struct Field))
  | _ => (old, saveError d (UnmarshalTypeError (kind_word v) T_int64 Struct Field))
  end.

Definition store_string (Struct Field : string) (v : json) (old : string)
    (d : decodeState) : string * decodeState :=
  match v with
  | JNull => (old, d)
  | JStr s => (s, d)
  | _ => (old, saveError d (UnmarshalTypeError (kind_word v) T_string Struct Field))
  end.

(** ** The program's types *)

(** [GBFSAPIResponse] *)
Record GBFSAPIResponse : Type := {
  LastUpdated : Z;
  TTL : Z
}.

(** [StationStatus] *)
Record StationStatus : Type := {
  ID : string;
  BikesAvailable : Z;
  BikesDisabled : Z;
  DocksAvailable : Z;
  DocksDisabled : Z;
  Installed : bool;
  Renting : bool;
  Returning : bool;
  LastReported : Z
}.

Definition zero_StationStatus : StationStatus :=
  {| ID := ""; BikesAvailable := 0; BikesDisabled := 0; DocksAvailable := 0;
     DocksDisabled := 0; Installed := false; Renting := false;
     Returning := false; LastReported := 0 |}.

(** The anonymous struct of [UnmarshalJSON]: three int64 fields that shadow
    the bool fields of the same JSON names, and [*Alias], which points at the
    receiver, so that a store through it is a store into [s]. *)
Record alias : Type := {
  alias_Installed : Z;
  alias_Renting : Z;
  alias_Returning : Z;
  Alias : StationStatus
}.

Inductive alias_field : Type :=
| is_installed | is_renting | is_returning
| station_id | num_bikes_available | num_bikes_disabled
| num_docks_available | num_docks_disabled | last_reported.

(** The fields encoding/json finds in the anonymous struct, in index order.
    The bool fields of [Alias] are hidden by the int64 fields one level up. *)
Definition alias_fields : list (alias_field * string) :=
  [ (is_installed, "is_installed"); (is_renting, "is_renting");
    (is_returning, "is_returning"); (station_id, "station_id");
    (num_bikes_available, "num_bikes_available");
    (num_bikes_disabled, "num_bikes_disabled");
    (num_docks_available, "num_docks_available");
    (num_docks_disabled, "num_docks_disabled");
    (last_reported, "last_reported") ].

Definition alias_field_name (f : alias_field) : string :=
  match f with
  | is_installed => "is_installed"
  | is_renting => "is_renting"
  | is_returning => "is_returning"
  | station_id => "station_id"
  | num_bikes_available => "num_bikes_available"
  | num_bikes_disabled => "num_bikes_disabled"
  | num_docks_available => "num_docks_available"
  | num_docks_disabled => "num_docks_disabled"
  | last_reported => "last_reported"
  end.

Definition with_Alias (a : alias) (s : StationStatus) : alias :=
  {| alias_Installed := alias_Installed a; alias_Renting := alias_Renting a;
     alias_Returning := alias_Returning a; Alias := s |}.

(** Decode the value [v] of a member into field [f] of the struct. *)
Definition store_alias_field (f : alias_field) (v : json) (a : alias)
    (d : decodeState) : alias * decodeState :=
  let s := Alias a in
  let int (old : Z) := store_int64 "" (alias_field_name f) v old d in
  match f with
  | is_installed =>
      let '(z, d') := int (alias_Installed a) in
      ({| alias_Installed := z; alias_Renting := alias_Renting a;
          alias_Returning := alias_Returning a; Alias := s |}, d')
  | is_renting =>
      let '(z, d') := int (alias_Renting a) in
      ({| alias_Installed := alias_Installed a; alias_Renting := z;
          alias_Returning := alias_Returning a; Alias := s |}, d')
  | is_returning =>
      let '(z, d') := int (alias_Returning a) in
      ({| alias_Installed := alias_Installed a; alias_Renting := alias_Renting a;
          alias_Returning := z; Alias := s |}, d')
  | station_id =>
      let '(x, d') := store_string "" (alias_field_name f) v (ID s) d in
      (with_Alias a
         {| ID := x; BikesAvailable := BikesAvailable s;
            BikesDisabled := BikesDisabled s; DocksAvailable := DocksAvailable s;
            DocksDisabled := DocksDisabled s; Installed := Installed s;
            Renting := Renting s; Returning := Returning s;
            LastReported := LastReported s |}, d')
  | num_bikes_available =>
      let '(z, d') := int (BikesAvailable s) in
      (with_Alias a
         {| ID := ID s; BikesAvailable := z;
            BikesDisabled := BikesDisabled s; DocksAvailable := DocksAvailable s;
            DocksDisabled := DocksDisabled s; Installed := Installed s;
            Renting := Renting s; Returning := Returning s;
            LastReported := LastReported s |}, d')
  | num_bikes_disabled =>
      let '(z, d') := int (BikesDisabled s) in
      (with_Alias a
         {| ID := ID s; BikesAvailable := BikesAvailable s;
            BikesDisabled := z; DocksAvailable := DocksAvailable s;
            DocksDisabled := DocksDisabled s; Installed := Installed s;
            Renting := Renting s; Returning := Returning s;
            LastReported := LastReported s |}, d')
  | num_docks_available =>
      let '(z, d') := int (DocksAvailable s) in
      (with_Alias a
         {| ID := ID s; BikesAvailable := BikesAvailable s;
            BikesDisabled := BikesDisabled s; DocksAvailable := z;
            DocksDisabled := DocksDisabled s; Installed := Installed s;
            Renting := Renting s; Returning := Returning s;
            LastReported := LastReported s |}, d')
  | num_docks_disabled =>
      let '(z, d') := int (DocksDisabled s) in
      (with_Alias a
         {| ID := ID s; BikesAvailable := BikesAvailable s;
            BikesDisabled := BikesDisabled s; DocksAvailable := DocksAvailable s;
            DocksDisabled := z; Installed := Installed s;
            Renting := Renting s; Returning := Returning s;
            LastReported := LastReported s |}, d')
  | last_reported =>
      let '(z, d') := int (LastReported s) in
      (with_Alias a
         {| ID := ID s; BikesAvailable := BikesAvailable s;
            BikesDisabled := BikesDisabled s; DocksAvailable := DocksAvailable s;
            DocksDisabled := DocksDisabled s; Installed := Installed s;
            Renting := Renting s; Returning := Returning s;
            LastReported := z |}, d')
  end.

(** [decodeState.object] on the anonymous struct: the members in order; a
    key that matches no field is skipped. *)
Fixpoint object_alias (members : list (string * json)) (a : alias)
    (d : decodeState) : alias * decodeState :=
  match members with
  | [] => (a, d)
  | (key, v) :: rest =>
      match Fold.field_of alias_fields key with
      | Some f =>
          let '(a', d') := store_alias_field f v a d in
          object_alias rest a' d'
      | None => object_alias rest a d
      end
  end.

(** [json.Unmarshal(data, &alias)] on scanned [data].  [&alias] is a pointer
    to the pointer [alias]: for the literal [null] the decoder sets [alias]
    itself to nil ([None]) and reports no error. *)
Definition Unmarshal_alias (data : json) (a : alias)
    : option alias * option error :=
  match data with
  | JNull => (None, None)
  | JObj members =>
      let '(a', d) := object_alias members a {| savedError := None |} in
      (Some a', savedError d)
  | _ => (Some a, Some (UnmarshalTypeError (kind_word data) T_alias "" ""))
  end.

(** [func (s *StationStatus) UnmarshalJSON(data []byte) error], on the
    scanned bytes: the receiver after the call and the error returned. *)
Definition UnmarshalJSON (s : StationStatus) (data : json)
    : go (StationStatus * option error) :=
  let alias0 := {| alias_Installed := 0; alias_Renting := 0;
                   alias_Returning := 0; Alias := s |} in
  match Unmarshal_alias data alias0 with
  | (Some a, Some err) => Returns (Alias a, Some err)
  | (None, Some err) => Returns (s, Some err)
  | (None, None) => Panics
  | (Some a, None) =>
      let s' := Alias a in
      Returns
        ({| ID := ID s'; BikesAvailable := BikesAvailable s';
            BikesDisabled := BikesDisabled s';
            DocksAvailable := DocksAvailable s';
            DocksDisabled := DocksDisabled s';
            Installed := negb (alias_Installed a =? 0);
            Renting := negb (alias_Renting a =? 0);
            Returning := negb (alias_Returning a =? 0);
            LastReported := LastReported s' |}, None)
  end.

(** ** encoding/json: the scanner

    [json.Unmarshal] first checks that its input is one well-formed JSON
    text, and decodes nothing when it is not.  [Scan] is that reading of the
    bytes: white space, the three literal names, numbers, strings with their
    escapes, arrays and objects.  A string value is unquoted as the decoder
    does it: escapes replaced, UTF-16 surrogate pairs joined, and every byte
    that is not part of well-formed UTF-8 replaced by U+FFFD. *)

Module Scan.
Definition byte := Fold.byte.

Definition is_space (c : ascii) : bool :=
  let b := byte c in (b =? 32) || (b =? 9) || (b =? 10) || (b =? 13).

Definition is_digit (c : ascii) : bool :=
  let b := byte c in (48 <=? b) && (b <=? 57).

Definition chr (z : Z) : ascii := ascii_of_N (Z.to_N z).

Fixpoint skip_space (s : string) : string :=
  match s with
  | String c s' => if is_space c then skip_space s' else s
  | EmptyString => s
  end.

Definition hex_digit (c : ascii) : option Z :=
  let b := byte c in
  if (48 <=? b) && (b <=? 57) then Some (b - 48)
  else if (97 <=? b) && (b <=? 102) then Some (b - 87)
  else if (65 <=? b) && (b <=? 70) then Some (b - 55)
  else None.

(** [getu4]: the four hex digits after a backslash and [u]. *)
Definition getu4 (a b c d : ascii) : option Z :=
  match hex_digit a, hex_digit b, hex_digit c, hex_digit d with
  | Some x, Some y, Some z, Some w => Some (((x * 16 + y) * 16 + z) * 16 + w)
  | _, _, _, _ => None
  end.

(** [utf8.EncodeRune]; a surrogate or a value above U+10FFFF encodes as
    U+FFFD. *)
Definition EncodeRune (r : Z) : string :=
  let str (l : list Z) := fold_right (fun z s => String (chr z) s) EmptyString l in
  if r <? 128 then str [r]
  else if r <? 2048 then str [192 + r / 64; 128 + r mod 64]
  else if ((55296 <=? r) && (r <=? 57343)) || (1114111 <? r)
       then str [239; 191; 189]
  else if r <? 65536
       then str [224 + r / 4096; 128 + (r / 64) mod 64; 128 + r mod 64]
  else str [240 + r / 262144; 128 + (r / 4096) mod 64;
            128 + (r / 64) mod 64; 128 + r mod 64].

Definition RuneError : string := EncodeRune 65533.

Definition cont (lo hi : Z) (c : ascii) : bool :=
  let b := byte c in (lo <=? b) && (b <=? hi).

(** The length of the well-formed UTF-8 sequence at the head of a string
    that starts with the byte [b0] above 127, or [0]. *)
Definition utf8_len (b0 : Z) (s : string) : nat :=
  let two lo hi :=
    match s with
    | String c1 _ => if cont lo hi c1 then 2%nat else 0%nat
    | _ => 0%nat
    end in
  let three lo hi :=
    match s with
    | String c1 (String c2 _) =>
        if cont lo hi c1 && cont 128 191 c2 then 3%nat else 0%nat
    | _ => 0%nat
    end in
  let four lo hi :=
    match s with
    | String c1 (String c2 (String c3 _)) =>
        if cont lo hi c1 && cont 128 191 c2 && cont 128 191 c3
        then 4%nat else 0%nat
    | _ => 0%nat
    end in
  if (194 <=? b0) && (b0 <=? 223) then two 128 191
  else if b0 =? 224 then three 160 191
  else if b0 =? 237 then three 128 159
  else if (225 <=? b0) && (b0 <=? 239) then three 128 191
  else if b0 =? 240 then four 144 191
  else if (241 <=? b0) && (b0 <=? 243) then four 128 191
  else if b0 =? 244 then four 128 143
  else 0%nat.

(** The body of a string literal, after the opening quote: the unquoted
    string and the input after the closing quote. *)
Fixpoint string_body (s : string) : option (string * string) :=
  match s with
  | EmptyString => None
  | String c s' =>
      let b := byte c in
      let emit (out : string) (rest : option (string * string)) :=
        match rest with
        | Some (t, r) => Some (out +:+ t, r)
        | None => None
        end in
      if b =? 34 then Some (EmptyString, s')
      else if b <? 32 then None
      else if b =? 92 then
        match s' with
        | String e s'' =>
            let be := byte e in
            if (be =? 34) || (be =? 92) || (be =? 47)
            then emit (String e EmptyString) (string_body s'')
            else if be =? 98 then emit (String (chr 8) EmptyString) (string_body s'')
            else if be =? 102 then emit (String (chr 12) EmptyString) (string_body s'')
            else if be =? 110 then emit (String (chr 10) EmptyString) (string_body s'')
            else if be =? 114 then emit (String (chr 13) EmptyString) (string_body s'')
            else if be =? 116 then emit (String (chr 9) EmptyString) (string_body s'')
            else if be =? 117 then
              match s'' with
              | String h1 (String h2 (String h3 (String h4 s4))) =>
                  match getu4 h1 h2 h3 h4 with
                  | None => None
                  | Some rr =>
                      if (55296 <=? rr) && (rr <? 56320) then
                        (* a high surrogate: joined with a low one that
                           follows, else replaced *)
                        match s4 with
                        | String b1 (String u1 (String l1 (String l2
                            (String l3 (String l4 s10))))) =>
                            match (if (byte b1 =? 92) && (byte u1 =? 117)
                                   then getu4 l1 l2 l3 l4 else None) with
                            | Some r2 =>
                                if (56320 <=? r2) && (r2 <? 57344)
                                then emit (EncodeRune
                                             (65536 + (rr - 55296) * 1024
                                              + (r2 - 56320)))
                                          (string_body s10)
                                else emit RuneError (string_body s4)
                            | None => emit RuneError (string_body s4)
                            end
                        | _ => emit RuneError (string_body s4)
                        end
                      else emit (EncodeRune rr) (string_body s4)
                  end
              | _ => None
              end
            else None
        | EmptyString => None
        end
      else if b <? 128 then emit (String c EmptyString) (string_body s')
      else
        match utf8_len b s' with
        | 2%nat =>
            match s' with
            | String c1 r => emit (String c (String c1 EmptyString)) (string_body r)
            | _ => None
            end
        | 3%nat =>
            match s' with
            | String c1 (String c2 r) =>
                emit (String c (String c1 (String c2 EmptyString))) (string_body r)
            | _ => None
            end
        | 4%nat =>
            match s' with
            | String c1 (String c2 (String c3 r)) =>
                emit (String c (String c1 (String c2 (String c3 EmptyString))))
                     (string_body r)
            | _ => None
            end
        | _ => emit RuneError (string_body s')
        end
  end.

(** Digits at the head of a string: their text, their value after [acc],
    and the rest. *)
Fixpoint digits (s : string) (acc : Z) : string * Z * string :=
  match s with
  | String c s' =>
      if is_digit c then
        let '(t, v, r) := digits s' (acc * 10 + (byte c - 48)) in
        (String c t, v, r)
      else (EmptyString, acc, s)
  | EmptyString => (EmptyString, acc, s)
  end.

(** A number literal at the head of a string. *)
Definition number_lit (s : string) : option (number * string) :=
  let '(sign, neg, s1) :=
    match s with
    | String c s' => if byte c =? 45 then ("-", true, s') else ("", false, s)
    | EmptyString => ("", false, s)
    end in
  let '(itxt, ival, s2) := digits s1 0 in
  match itxt with
  | EmptyString => None
  | String d0 more =>
      if (byte d0 =? 48) && negb (String.eqb more "") then None
      else
        let frac :=
          match s2 with
          | String c s' =>
              if byte c =? 46 then
                let '(ftxt, _, s3) := digits s' 0 in
                if String.eqb ftxt "" then None else Some ("." +:+ ftxt, s3)
              else Some ("", s2)
          | EmptyString => Some ("", s2)
          end in
        match frac with
        | None => None
        | Some (ftxt, s3) =>
            let exp :=
              match s3 with
              | String c s' =>
                  if (byte c =? 101) || (byte c =? 69) then
                    let '(stxt, s4) :=
                      match s' with
                      | String g s'' =>
                          if (byte g =? 43) || (byte g =? 45)
                          then (String g EmptyString, s'') else ("", s')
                      | EmptyString => ("", s')
                      end in
                    let '(etxt, _, s5) := digits s4 0 in
                    if String.eqb etxt "" then None
                    else Some (String c EmptyString +:+ stxt +:+ etxt, s5)
                  else Some ("", s3)
              | EmptyString => Some ("", s3)
              end in
            match exp with
            | None => None
            | Some (etxt, s5) =>
                if String.eqb ftxt "" && String.eqb etxt ""
                then Some (NInt (if neg then - ival else ival), s5)
                else Some (NFrac (sign +:+ itxt +:+ ftxt +:+ etxt), s5)
            end
        end
  end.

(** One value at the head of a string, and the rest.  Each nested call
    takes one unit of fuel; [None] is a syntax error. *)
Fixpoint value (fuel : nat) (s : string) : option (json * string) :=
  match fuel with
  | O => None
  | S fuel' =>
      match skip_space s with
      | EmptyString => None
      | String c r =>
          let b := byte c in
          if b =? 123 then
            match skip_space r with
            | String c' r' =>
                if byte c' =? 125 then Some (JObj [], r')
                else
                  match members fuel' (skip_space r) with
                  | Some (ms, rest) => Some (JObj ms, rest)
                  | None => None
                  end
            | EmptyString => None
            end
          else if b =? 91 then
            match skip_space r with
            | String c' r' =>
                if byte c' =? 93 then Some (JArr [], r')
                else
                  match elements fuel' r with
                  | Some (es, rest) => Some (JArr es, rest)
                  | None => None
                  end
            | EmptyString => None
            end
          else if b =? 34 then
            match string_body r with
            | Some (t, rest) => Some (JStr t, rest)
            | None => None
            end
          else if (b =? 45) || is_digit c then
            match number_lit (String c r) with
            | Some (n, rest) => Some (JNum n, rest)
            | None => None
            end
          else
            match Fold.strip_prefix "true" (String c r),
                  Fold.strip_prefix "false" (String c r),
                  Fold.strip_prefix "null" (String c r) with
            | Some rest, _, _ => Some (JBool true, rest)
            | _, Some rest, _ => Some (JBool false, rest)
            | _, _, Some rest => Some (JNull, rest)
            | _, _, _ => None
            end
      end
  end
with elements (fuel : nat) (s : string) : option (list json * string) :=
  match fuel with
  | O => None
  | S fuel' =>
      match value fuel' s with
      | None => None
      | Some (v, rest) =>
          match skip_space rest with
          | String c r =>
              if byte c =? 93 then Some ([v], r)
              else if byte c =? 44 then
                match elements fuel' r with
                | Some (vs, rest') => Some (v :: vs, rest')
                | None => None
                end
              else None
          | EmptyString => None
          end
      end
  end
with members (fuel : nat) (s : string)
    : option (list (string * json) * string) :=
  match fuel with
  | O => None
  | S fuel' =>
      match s with
      | String c0 r0 =>
          if byte c0 =? 34 then
            match string_body r0 with
            | None => None
            | Some (key, after_key) =>
                match skip_space after_key with
                | String c1 r1 =>
                    if byte c1 =? 58 then
                      match value fuel' r1 with
                      | None => None
                      | Some (v, rest) =>
                          match skip_space rest with
                          | String c r =>
                              if byte c =? 125 then Some ([(key, v)], r)
                              else if byte c =? 44 then
                                match members fuel' (skip_space r) with
                                | Some (ms, rest') => Some ((key, v) :: ms, rest')
                                | None => None
                                end
                              else None
                          | EmptyString => None
                          end
                      end
                    else None
                | EmptyString => None
                end
            end
          else None
      | EmptyString => None
      end
  end.

(** [checkValid] and the scan of the whole input: one value, white space
    around it, nothing else. *)
Definition text (data : string) : option json :=
  match value (2 * String.length data + 2) data with
  | Some (v, rest) =>
      match skip_space rest with
      | EmptyString => Some v
      | _ => None
      end
  | None => None
  end.
End Scan.

(** ** The response type and its decoding *)

(** A Go slice of stations: the backing array from the slice's first
    element on (its length is the capacity) and the slice length. *)
Record slice : Type := {
  array : list StationStatus;
  len : nat
}.

Definition nil_slice : slice := {| array := []; len := 0 |}.

(** The elements a [range] over the slice visits. *)
Definition elems (v : slice) : list StationStatus := take (len v) (array v).

Definition cap (v : slice) : nat := length (array v).

(** The anonymous struct of the field [Data]. *)
Record Data_struct : Type := { Stations : slice }.

(** [StationStatusAPIResponse]; [envelope] is the embedded
    [GBFSAPIResponse]. *)
Record StationStatusAPIResponse : Type := {
  Data : Data_struct;
  envelope : GBFSAPIResponse
}.

Definition zero_StationStatusAPIResponse : StationStatusAPIResponse :=
  {| Data := {| Stations := nil_slice |};
     envelope := {| LastUpdated := 0; TTL := 0 |} |}.

(** The slice grown as [decodeState.array] grows it: a new backing array of
    one and a half times the capacity (at least 4), the elements copied, the
    rest zero. *)
Definition grow (v : slice) : slice :=
  let newcap := (cap v + cap v / 2)%nat in
  let newcap := if (newcap <? 4)%nat then 4%nat else newcap in
  {| array := take (len v) (array v)
              ++ replicate (newcap - len v) zero_StationStatus;
     len := len v |}.

Definition SetLen (v : slice) (n : nat) : slice :=
  {| array := array v; len := n |}.

(** [decodeState.array] on the slice, from element [i] on.  Each element is
    decoded by [UnmarshalJSON] into whatever the slot holds; an error it
    returns ends the decoding at once, with the slot already counted in the
    length. *)
Fixpoint array_Stations (es : list json) (i : nat) (v : slice)
    : go (slice * option error) :=
  match es with
  | [] =>
      let v := if (i <? len v)%nat then SetLen v i else v in
      Returns (if (i =? 0)%nat then nil_slice else v, None)
  | e :: rest =>
      let v := if (cap v <=? i)%nat then grow v else v in
      let v := if (len v <=? i)%nat then SetLen v (i + 1) else v in
      match array v !! i with
      | None => Panics
      | Some s =>
          match UnmarshalJSON s e with
          | Panics => Panics
          | Returns (s', Some err) =>
              Returns ({| array := <[i := s']> (array v); len := len v |},
                       Some err)
          | Returns (s', None) =>
              array_Stations rest (i + 1)
                {| array := <[i := s']> (array v); len := len v |}
          end
      end
  end.

Inductive Data_field : Type := stations.

Definition Data_fields : list (Data_field * string) :=
  [ (stations, "stations") ].

(** What a decoding step leaves: the value decoded into, the decoder state,
    and the error that ended the decoding, if one did. *)
Definition step (A : Type) : Type := go (A * decodeState * option error).

(** [decodeState.object] on the struct of [Data]. *)
Fixpoint object_Data (members : list (string * json)) (x : Data_struct)
    (d : decodeState) : step Data_struct :=
  match members with
  | [] => Returns (x, d, None)
  | (key, v) :: rest =>
      match Fold.field_of Data_fields key with
      | Some stations =>
          match v with
          | JNull => object_Data rest {| Stations := nil_slice |} d
          | JArr es =>
              match array_Stations es 0 (Stations x) with
              | Panics => Panics
              | Returns (sl, Some err) =>
                  Returns ({| Stations := sl |}, d, Some err)
              | Returns (sl, None) => object_Data rest {| Stations := sl |} d
              end
          | _ =>
              object_Data rest x
                (saveError d
                   (UnmarshalTypeError (kind_word v) T_StationStatus_slice
                      "" "stations"))
          end
      | None => object_Data rest x d
      end
  end.

Inductive response_field : Type := data | last_updated | ttl.

Definition response_fields : list (response_field * string) :=
  [ (data, "data"); (last_updated, "last_updated"); (ttl, "ttl") ].

(** [decodeState.object] on [StationStatusAPIResponse]. *)
Fixpoint object_response (members : list (string * json))
    (x : StationStatusAPIResponse) (d : decodeState)
    : step StationStatusAPIResponse :=
  let name := "StationStatusAPIResponse" in
  match members with
  | [] => Returns (x, d, None)
  | (key, v) :: rest =>
      match Fold.field_of response_fields key with
      | Some data =>
          match v with
          | JNull => object_response rest x d
          | JObj ms =>
              match object_Data ms (Data x) d with
              | Panics => Panics
              | Returns (dx, d', Some err) =>
                  Returns ({| Data := dx; envelope := envelope x |}, d', Some err)
              | Returns (dx, d', None) =>
                  object_response rest
                    {| Data := dx; envelope := envelope x |} d'
              end
          | _ =>
              object_response rest x
                (saveError d (UnmarshalTypeError (kind_word v) T_Data name "data"))
          end
      | Some last_updated =>
          let '(z, d') :=
            store_int64 name "last_updated" v (LastUpdated (envelope x)) d in
          object_response rest
            {| Data := Data x;
               envelope := {| LastUpdated := z; TTL := TTL (envelope x) |} |} d'
      | Some ttl =>
          let '(z, d') := store_int64 name "ttl" v (TTL (envelope x)) d in
          object_response rest
            {| Data := Data x;
               envelope := {| LastUpdated := LastUpdated (envelope x);
                              TTL := z |} |} d'
      | None => object_response rest x d
      end
  end.

(** [addErrorContext] where the decoding of the stations stopped: inside
    the member [stations] of the anonymous struct. *)
Definition addErrorContext (err : error) : error :=
  match err with
  | UnmarshalTypeError v t _ _ => UnmarshalTypeError v t "" "stations"
  | _ => err
  end.

(** [json.Unmarshal(body, &resp)].  [resp] is itself a pointer, so the
    decoder is handed a pointer to a pointer: for the JSON literal [null] it
    sets [resp] to nil ([None]) and reports no error.  The result is [resp]
    after the call and the error. *)
Definition Unmarshal (body : string) (resp : StationStatusAPIResponse)
    : go (option StationStatusAPIResponse * option error) :=
  match Scan.text body with
  | None => Returns (Some resp, Some (SyntaxError "invalid JSON input" 0))
  | Some JNull => Returns (None, None)
  | Some (JObj members) =>
      match object_response members resp {| savedError := None |} with
      | Panics => Panics
      | Returns (x, _, Some err) => Returns (Some x, Some (addErrorContext err))
      | Returns (x, d, None) => Returns (Some x, savedError d)
      end
  | Some v =>
      Returns (Some resp,
               Some (UnmarshalTypeError (kind_word v)
                       T_StationStatusAPIResponse "" ""))
  end.

(** [GetStationStatuses(body)]: the pointer to the response ([None] for
    nil) and the error. *)
Definition GetStationStatuses (body : string)
    : go (option StationStatusAPIResponse * option error) :=
  let resp := zero_StationStatusAPIResponse in
  Unmarshal body resp.

(** [func Max(x, y int64) int64] *)
Definition Max (x y : Z) : Z := if x >? y then x else y.

(** [func BoolToFloat64(x bool) float64] *)
Definition BoolToFloat64 (x : bool) : float64 := if x then 1 else 0.

(** ** prometheus: gauge vectors, registries, the rendered families *)

Definition namespace : string := "gbfs".
Definition listenAddress : string := ":9607".
Definition minimumPollSleepSeconds : Z := 10.

(** A [GaugeVec] with the one label [station_id]: its children by label
    value. *)
Record GaugeVec : Type := {
  fqName : string;
  Help : string;
  children : gmap string float64
}.

Definition NewGaugeVec (Namespace Name Help_ : string) : GaugeVec :=
  {| fqName := Namespace +:+ "_" +:+ Name; Help := Help_; children := ∅ |}.

(** [vec.With(prometheus.Labels{"station_id": id}).Set(x)] *)
Definition With_Set (vec : GaugeVec) (id : string) (x : float64) : GaugeVec :=
  {| fqName := fqName vec; Help := Help vec;
     children := <[id := x]> (children vec) |}.

(** A registry holds pointers to its collectors.  A pointer to a gauge
    vector is the way to it in the state [S] that holds the vectors: what is
    gathered is what the vector holds when the registry is read. *)
Definition Registry (S : Type) : Type := list (S → GaugeVec).

Definition NewRegistry {S : Type} : Registry S := [].

(** [registry.MustRegister(c)] panics when the registry already has a
    collector of that name. *)
Definition MustRegister {S : Type} (st : S) (r : Registry S) (c : S → GaugeVec)
    : go (Registry S) :=
  if bool_decide (fqName (c st) ∈ map (λ c', fqName (c' st)) r)
  then Panics
  else Returns (r ++ [c]).

Record MetricFamily : Type := {
  help : string;
  metrics : gmap string float64
}.

(** The families a scrape of the registry renders, by family name.  A vector
    without children renders nothing. *)
Abbreviation Exposition := (gmap string MetricFamily).

Definition Gather {S : Type} (r : Registry S) (st : S) : Exposition :=
  foldr (λ c acc,
           let vec := c st in
           if bool_decide (children vec = ∅) then acc
           else <[fqName vec := {| help := Help vec; metrics := children vec |}]> acc)
        ∅ r.

(** The exposition has a sample of the family [name] with the label
    [station_id=id] and the value [x]. *)
Definition sample (e : Exposition) (name id : string) (x : float64) : Prop :=
  ∃ fam, e !! name = Some fam ∧ metrics fam !! id = Some x.

(** ** net/http: requests, responses, the fetch *)

(** [url.Values] *)
Record Request : Type := { Query : gmap string (list string) }.

Definition Values_Get (v : gmap string (list string)) (key : string) : string :=
  match v !! key with
  | Some (x :: _) => x
  | _ => ""
  end.

Inductive Body : Type :=
| Text (s : string)
| Metrics (e : Exposition).

Record Response : Type := {
  StatusCode : Z;
  body : Body
}.

Definition newline : string := String (ascii_of_nat 10) EmptyString.

(** [http.Error(w, msg, code)] writes the message and a newline. *)
Definition http_Error (msg : string) (code : Z) : Response :=
  {| StatusCode := code; body := Text (msg +:+ newline) |}.

(** What [http.Get(url)] followed by [ioutil.ReadAll(resp.Body)] gives: the
    GET fails, or the read of the body fails, or the body is there.  The
    status code of the upstream response is not looked at by any caller. *)
Inductive Fetch : Type :=
| GetError (err : string)
| ReadError (err : string)
| Fetched (bytes : string).

(** The network at the time of one request. *)
Definition Internet : Type := string → Fetch.

(** How a handler call ends: a response, a panic (which net/http recovers,
    dropping the connection), or [log.Fatalln], which ends the process. *)
Inductive served : Type :=
| Responded (r : Response)
| Panicked
| Exited (line : string).

(** What a handler call leaves: the process-wide state, how it ended, and
    the URLs it fetched. *)
Record handled (S : Type) : Type := {
  state : S;
  outcome : served;
  fetched : list string
}.
Arguments state {S} _.
Arguments outcome {S} _.
Arguments fetched {S} _.

(** ** The three process-wide gauges

    The package-level [var] block of [src/main.go], [part_000] and
    [part_002], and the body of their loop over the stations: the same text
    in the three files ([part_002] creates the vectors with [promauto]). *)

Record Globals : Type := {
  bikesAvailable : GaugeVec;
  bikesDisabled : GaugeVec;
  docksAvailable : GaugeVec
}.

Definition init : Globals :=
  {| bikesAvailable := NewGaugeVec namespace "bikes_available" "";
     bikesDisabled := NewGaugeVec namespace "bikes_disabled" "";
     docksAvailable := NewGaugeVec namespace "docks_available" "" |}.

(** One turn of the loop over the stations. *)
Definition observe (g : Globals) (status : StationStatus) : Globals :=
  {| bikesAvailable :=
       With_Set (bikesAvailable g) (ID status)
         (float64_of_int64 (BikesAvailable status));
     bikesDisabled :=
       With_Set (bikesDisabled g) (ID status)
         (float64_of_int64 (BikesDisabled status));
     docksAvailable :=
       With_Set (docksAvailable g) (ID status)
         (float64_of_int64 (DocksAvailable status)) |}.

Definition register_all (g : Globals) : go (Registry Globals) :=
  match MustRegister g NewRegistry bikesAvailable with
  | Panics => Panics
  | Returns r1 =>
      match MustRegister g r1 bikesDisabled with
      | Panics => Panics
      | Returns r2 => MustRegister g r2 docksAvailable
      end
  end.

(** ** src/main.go: [target] parameter, registry per request, process-wide
    gauges *)

Module Main.
(** [func probeGBFS(w http.ResponseWriter, r *http.Request)] *)
Definition probeGBFS (net : Internet) (g : Globals) (r : Request)
    : handled Globals :=
  let params := Query r in
  let target := Values_Get params "target" in
  if String.eqb target "" then
    {| state := g;
       outcome := Responded (http_Error "Target parameter missing" 400);
       fetched := [] |}
  else
    match net target with
    | GetError err =>
        {| state := g;
           outcome := Responded (http_Error ("HTTP error: " +:+ err) 400);
           fetched := [target] |}
    | ReadError err =>
        {| state := g;
           outcome :=
             Responded
               (http_Error ("Failed to read HTTP body of target '" +:+ target
                            +:+ "': " +:+ err) 500);
           fetched := [target] |}
    | Fetched body =>
        match register_all g with
        | Panics => {| state := g; outcome := Panicked; fetched := [target] |}
        | Returns registry =>
            match GetStationStatuses body with
            | Panics =>
                {| state := g; outcome := Panicked; fetched := [target] |}
            | Returns (_, Some err) =>
                {| state := g;
                   outcome :=
                     Responded
                       (http_Error
                          ("Could not unmarshal target JSON,"
                           +:+ " target '" +:+ target
                           +:+ "' does not have the expected schema: "
                           +:+ Error err) 400);
                   fetched := [target] |}
            | Returns (None, None) =>
                (* stationStatusResp is nil *)
                {| state := g; outcome := Panicked; fetched := [target] |}
            | Returns (Some stationStatusResp, None) =>
                let g' :=
                  fold_left observe
                    (elems (Stations (Data stationStatusResp))) g in
                {| state := g';
                   outcome :=
                     Responded {| StatusCode := 200;
                                  body := Metrics (Gather registry g') |};
                   fetched := [target] |}
            end
        end
    end.
End Main.

Definition feedURL : string :=
  "https://tor.publicbikesystem.net/ube/gbfs/v1/en/station_status".

(** ** src/unnamed/part_000: probe of the fixed feed URL *)

Module FixedProbe.
(** [func probeGBFS(w http.ResponseWriter, r *http.Request)]: a failed
    fetch ends the process; the error of [GetStationStatuses] is
    discarded. *)
Definition probeGBFS (net : Internet) (g : Globals) (r : Request)
    : handled Globals :=
  match net feedURL with
  | GetError err =>
      {| state := g; outcome := Exited err; fetched := [feedURL] |}
  | ReadError err =>
      {| state := g; outcome := Exited err; fetched := [feedURL] |}
  | Fetched body =>
      match register_all g with
      | Panics => {| state := g; outcome := Panicked; fetched := [feedURL] |}
      | Returns registry =>
          match GetStationStatuses body with
          | Panics =>
              {| state := g; outcome := Panicked; fetched := [feedURL] |}
          | Returns (None, _) =>
              {| state := g; outcome := Panicked; fetched := [feedURL] |}
          | Returns (Some stationStatusResp, _) =>
              let g' :=
                fold_left observe
                  (elems (Stations (Data stationStatusResp))) g in
              {| state := g';
                 outcome :=
                   Responded {| StatusCode := 200;
                                body := Metrics (Gather registry g') |};
                 fetched := [feedURL] |}
          end
      end
  end.
End FixedProbe.

(** ** src/unnamed/part_001: [target] parameter, gauges per request *)

Module IsolatedProbe.
(** The [var] block inside [probeGBFS]. *)
Record Locals : Type := {
  bikesAvailableGauge : GaugeVec;
  bikesDisabledGauge : GaugeVec;
  docksAvailableGauge : GaugeVec;
  docksDisabledGauge : GaugeVec;
  installedGauge : GaugeVec;
  rentingGauge : GaugeVec;
  lastReportedGauge : GaugeVec
}.

Definition new_gauges : Locals :=
  {| bikesAvailableGauge :=
       NewGaugeVec namespace "bikes_available"
         "The number of bikes available for rental";
     bikesDisabledGauge :=
       NewGaugeVec namespace "bikes_disabled" "The number of disabled bikes";
     docksAvailableGauge :=
       NewGaugeVec namespace "docks_available"
         "The number of docks accepting bike returns";
     docksDisabledGauge :=
       NewGaugeVec namespace "docks_disabled"
         "The number of empty but disabled dock points";
     installedGauge :=
       NewGaugeVec namespace "installed"
         ("Indicates if the station is currently renting bikes, "
          +:+ "regardless of if any bikes are available");
     rentingGauge :=
       NewGaugeVec namespace "renting"
         ("Indicates if the station is currently accepting bike returns, "
          +:+ "regardless of if any docks are available");
     lastReportedGauge :=
       NewGaugeVec namespace "last_reported_timestamp_seconds"
         "Last time this station reported its status to the feed, in unixtime"
  |}.

Definition register_all (l : Locals) : go (Registry Locals) :=
  let reg (r : go (Registry Locals)) (c : Locals → GaugeVec) :=
    match r with
    | Panics => Panics
    | Returns r' => MustRegister l r' c
    end in
  fold_left reg
    [bikesAvailableGauge; bikesDisabledGauge; docksAvailableGauge;
     docksDisabledGauge; installedGauge; rentingGauge; lastReportedGauge]
    (Returns NewRegistry).

(** One turn of the loop over the stations. *)
Definition observe (l : Locals) (status : StationStatus) : Locals :=
  let id := ID status in
  {| bikesAvailableGauge :=
       With_Set (bikesAvailableGauge l) id
         (float64_of_int64 (BikesAvailable status));
     bikesDisabledGauge :=
       With_Set (bikesDisabledGauge l) id
         (float64_of_int64 (BikesDisabled status));
     docksAvailableGauge :=
       With_Set (docksAvailableGauge l) id
         (float64_of_int64 (DocksAvailable status));
     docksDisabledGauge :=
       With_Set (docksDisabledGauge l) id
         (float64_of_int64 (DocksDisabled status));
     installedGauge :=
       With_Set (installedGauge l) id (BoolToFloat64 (Installed status));
     rentingGauge :=
       With_Set (rentingGauge l) id (BoolToFloat64 (Renting status));
     lastReportedGauge :=
       With_Set (lastReportedGauge l) id
         (float64_of_int64 (LastReported status)) |}.

(** [func probeGBFS(w http.ResponseWriter, r *http.Request)].  The file
    has no package-level state: the result is the outcome and the URLs
    fetched. *)
Definition probeGBFS (net : Internet) (r : Request) : handled unit :=
  let params := Query r in
  let target := Values_Get params "target" in
  if String.eqb target "" then
    {| state := tt;
       outcome := Responded (http_Error "Target parameter missing" 400);
       fetched := [] |}
  else
    match net target with
    | GetError err =>
        {| state := tt;
           outcome := Responded (http_Error ("HTTP error: " +:+ err) 400);
           fetched := [target] |}
    | ReadError err =>
        {| state := tt;
           outcome :=
             Responded
               (http_Error ("Failed to read HTTP body of target '" +:+ target
                            +:+ "': " +:+ err) 500);
           fetched := [target] |}
    | Fetched body =>
        let l := new_gauges in
        match register_all l with
        | Panics => {| state := tt; outcome := Panicked; fetched := [target] |}
        | Returns registry =>
            match GetStationStatuses body with
            | Panics =>
                {| state := tt; outcome := Panicked; fetched := [target] |}
            | Returns (_, Some err) =>
                {| state := tt;
                   outcome :=
                     Responded
                       (http_Error
                          ("Could not unmarshal target JSON,"
                           +:+ " target '" +:+ target
                           +:+ "' does not have the expected schema: "
                           +:+ Error err) 400);
                   fetched := [target] |}
            | Returns (None, None) =>
                {| state := tt; outcome := Panicked; fetched := [target] |}
            | Returns (Some stationStatusResp, None) =>
                let l' :=
                  fold_left observe
                    (elems (Stations (Data stationStatusResp))) l in
                {| state := tt;
                   outcome :=
                     Responded {| StatusCode := 200;
                                  body := Metrics (Gather registry l') |};
                   fetched := [target] |}
            end
        end
    end.
End IsolatedProbe.

(** ** src/unnamed/part_002: the poll loop *)

Module Poll.
Definition Second : Z := 1000000000.

(** [Max(minimumPollSleepSeconds, stationStatusResp.TTL+1)] *)
Definition sleepLenSeconds (stationStatusResp : StationStatusAPIResponse) : Z :=
  Max minimumPollSleepSeconds (Int64.add (TTL (envelope stationStatusResp)) 1).

(** How one turn of the loop ends: it reaches [time.Sleep] with the gauges
    updated, or a nil dereference ends the process, or [log.Fatalln]
    does. *)
Inductive turn : Type :=
| Sleeps (g : Globals) (seconds : Z) (duration : Z)
| Crashed
| Fatal (line : string).

(** The body of the [for] loop of [grabThoseMetrics]. *)
Definition iteration (net : Internet) (g : Globals) : turn :=
  match net feedURL with
  | GetError err => Fatal err
  | ReadError err => Fatal err
  | Fetched body =>
      match GetStationStatuses body with
      | Panics => Crashed
      | Returns (None, _) => Crashed
      | Returns (Some stationStatusResp, _) =>
          let g' :=
            fold_left observe (elems (Stations (Data stationStatusResp))) g in
          let seconds := sleepLenSeconds stationStatusResp in
          Sleeps g' seconds (Int64.mul seconds Second)
      end
  end.

(** Where the process is after the loop has met the given states of the
    network, one per turn. *)
Inductive process : Type :=
| Looping (g : Globals)
| Dead (t : turn).

(** [func grabThoseMetrics()], along a finite run of the network; the
    seconds of each sleep are logged. *)
Fixpoint grabThoseMetrics (world : list Internet) (g : Globals)
    : process * list Z :=
  match world with
  | [] => (Looping g, [])
  | net :: later =>
      match iteration net g with
      | Sleeps g' seconds _ =>
          let '(p, log) := grabThoseMetrics later g' in
          (p, seconds :: log)
      | t => (Dead t, [])
      end
  end.
End Poll.

(** * The vocabulary of the properties *)

(** What a field of the anonymous struct holds. *)
Inductive held : Type :=
| Int (z : Z)
| Str (s : string).

Definition read (f : alias_field) (a : alias) : held :=
  match f with
  | is_installed => Int (alias_Installed a)
  | is_renting => Int (alias_Renting a)
  | is_returning => Int (alias_Returning a)
  | station_id => Str (ID (Alias a))
  | num_bikes_available => Int (BikesAvailable (Alias a))
  | num_bikes_disabled => Int (BikesDisabled (Alias a))
  | num_docks_available => Int (DocksAvailable (Alias a))
  | num_docks_disabled => Int (DocksDisabled (Alias a))
  | last_reported => Int (LastReported (Alias a))
  end.

(** No member of the object is decoded into field [f]. *)
Definition absent (f : alias_field) (members : list (string * json)) : Prop :=
  Forall (λ m, Fold.field_of alias_fields m.1 ≠ Some f) members.

(** The value has the JSON type the field is declared with in the feed: a
    string for [station_id], an integer that fits int64 otherwise. *)
Definition fits (f : alias_field) (v : json) : bool :=
  match f, v with
  | station_id, JStr _ => true
  | station_id, _ => false
  | _, JNum (NInt z) => Int64.in_range z
  | _, _ => false
  end.

(** Every member the decoder knows carries a value of the declared type;
    any field may be missing, and unknown members are free. *)
Definition well_typed (members : list (string * json)) : Prop :=
  Forall (λ m, match Fold.field_of alias_fields m.1 with
               | Some f => fits f m.2 = true
               | None => True
               end) members.

(** The three fields that arrive as integers, and the bool each becomes. *)
Definition boolean_like (f : alias_field) : Prop :=
  f = is_installed ∨ f = is_renting ∨ f = is_returning.

Definition flag (f : alias_field) (s : StationStatus) : bool :=
  match f with
  | is_installed => Installed s
  | is_renting => Renting s
  | is_returning => Returning s
  | _ => false
  end.

(** The station an entry of the feed decodes to in a fresh slot. *)
Definition entry_station (members : list (string * json)) : StationStatus :=
  match UnmarshalJSON zero_StationStatus (JObj members) with
  | Returns (s, _) => s
  | Panics => zero_StationStatus
  end.

(** A feed as the upstream contract gives it: the station entries under
    [data.stations], then [last_updated] and [ttl]. *)
Definition feed (entries : list (list (string * json))) (lu t : Z) : json :=
  JObj [ ("data", JObj [ ("stations", JArr (map JObj entries)) ]);
         ("last_updated", JNum (NInt lu));
         ("ttl", JNum (NInt t)) ].

(** The one-station feed of the end-to-end example. *)
Definition entry_7001 : list (string * json) :=
  [ ("station_id", JStr "7001");
    ("num_bikes_available", JNum (NInt 4));
    ("num_docks_available", JNum (NInt 11));
    ("is_installed", JNum (NInt 1));
    ("is_renting", JNum (NInt 1));
    ("is_returning", JNum (NInt 0));
    ("last_reported", JNum (NInt 1600000000)) ].

Definition body_7001 : string :=
  q ("{'data':{'stations':[{'station_id':'7001','num_bikes_available':4,"
     +:+ "'num_docks_available':11,'is_installed':1,'is_renting':1,"
     +:+ "'is_returning':0,'last_reported':1600000000}]},"
     +:+ "'last_updated':1600000060,'ttl':30}").

(** The [target] parameter is absent from the query, or its first value is
    empty. *)
Definition target_missing (r : Request) : Prop :=
  match Query r !! "target" with
  | None => True
  | Some [] => True
  | Some (x :: _) => x = ""
  end.

(** A request with the given [target]. *)
Definition probe_of (target : string) : Request :=
  {| Query := {[ "target" := [target] ]} |}.

(** The process-wide vectors carry the names they were created with. *)
Definition declared (g : Globals) : Prop :=
  fqName (bikesAvailable g) = "gbfs_bikes_available"
  ∧ fqName (bikesDisabled g) = "gbfs_bikes_disabled"
  ∧ fqName (docksAvailable g) = "gbfs_docks_available".

(** A feed whose second entry has a string where an integer belongs. *)
Definition body_bad_entry : string :=
  q ("{'data':{'stations':[{'station_id':'a','num_bikes_available':3},"
     +:+ "{'station_id':'b','num_bikes_available':'x'}]}}").

(** Two targets, with one station each. *)
Definition target_A : string := "http://a.example/station_status".
Definition target_B : string := "http://b.example/station_status".

Definition body_A : string :=
  q "{'data':{'stations':[{'station_id':'A1','num_bikes_available':4}]}}".
Definition body_B : string :=
  q "{'data':{'stations':[{'station_id':'B1','num_bikes_available':2}]}}".

Definition two_feeds : Internet :=
  λ url, if String.eqb url target_A then Fetched body_A
         else if String.eqb url target_B then Fetched body_B
         else GetError "no such host".

(** The station IDs of a decoded feed. *)
Definition station_ids (resp : StationStatusAPIResponse) : list string :=
  map ID (elems (Stations (Data resp))).

(** The names of the seven families [part_001] registers. *)
Definition seven_families : gset string :=
  {[ "gbfs_bikes_available"; "gbfs_bikes_disabled"; "gbfs_docks_available";
     "gbfs_docks_disabled"; "gbfs_installed"; "gbfs_renting";
     "gbfs_last_reported_timestamp_seconds" ]}.

(** The feed of the end-to-end example with [is_returning] set to 1. *)
Definition body_7001_returning : string :=
  q ("{'data':{'stations':[{'station_id':'7001','num_bikes_available':4,"
     +:+ "'num_docks_available':11,'is_installed':1,'is_renting':1,"
     +:+ "'is_returning':1,'last_reported':1600000000}]},"
     +:+ "'last_updated':1600000060,'ttl':30}").

(** The value is [null] or has the JSON type the field is declared with. *)
Definition acceptable (f : alias_field) (v : json) : bool :=
  match v with
  | JNull => true
  | _ => fits f v
  end.

(** Every member the decoder knows is acceptable to its field. *)
Definition accepted (members : list (string * json)) : Prop :=
  Forall (λ m, match Fold.field_of alias_fields m.1 with
               | Some f => acceptable f m.2 = true
               | None => True
               end) members.

(** What a station holds for a field that is decoded as is: the ID and the
    five integers. *)
Definition stored (f : alias_field) (s : StationStatus) : option held :=
  match f with
  | station_id => Some (Str (ID s))
  | num_bikes_available => Some (Int (BikesAvailable s))
  | num_bikes_disabled => Some (Int (BikesDisabled s))
  | num_docks_available => Some (Int (DocksAvailable s))
  | num_docks_disabled => Some (Int (DocksDisabled s))
  | last_reported => Some (Int (LastReported s))
  | _ => None
  end.

(** What a JSON value is once stored. *)
Definition held_of (v : json) : option held :=
  match v with
  | JNum (NInt z) => Some (Int z)
  | JStr x => Some (Str x)
  | _ => None
  end.

(** The five integers of a station fit int64. *)
Definition station_in_range (s : StationStatus) : Prop :=
  Int64.in_range (BikesAvailable s) = true
  ∧ Int64.in_range (BikesDisabled s) = true
  ∧ Int64.in_range (DocksAvailable s) = true
  ∧ Int64.in_range (DocksDisabled s) = true
  ∧ Int64.in_range (LastReported s) = true.

(** The slice has room for its length. *)
Definition slice_ok (v : slice) : Prop := (len v ≤ cap v)%nat.

(** The scanned body has an entry [null] among the stations of a [data]
    member. *)
Definition has_null_entry (j : json) : Prop :=
  ∃ members k ms k' es,
    j = JObj members
    ∧ (k, JObj ms) ∈ members
    ∧ Fold.field_of response_fields k = Some data
    ∧ (k', JArr es) ∈ ms
    ∧ Fold.field_of Data_fields k' = Some stations
    ∧ JNull ∈ es.

(** No member of the top-level object is decoded into [Data]. *)
Definition without_data (members : list (string * json)) : Prop :=
  Forall (λ m, Fold.field_of response_fields m.1 ≠ Some data) members.

(** A feed whose TTL is one above the largest int64. *)
Definition body_ttl_too_large : string :=
  q "{'ttl':9223372036854775808,'data':{'stations':[{'last_reported':-1}]}}".

(** The children of a vector after the loop over the stations has set the
    child of each station's ID to [f] of the station. *)
Definition written (f : StationStatus → float64) (sts : list StationStatus)
    (m : gmap string float64) : gmap string float64 :=
  fold_left (λ m s, <[ID s := f s]> m) sts m.

(** The three process-wide vectors, with what the loop writes into each. *)
Definition global_gauges
    : list ((Globals → GaugeVec) * (StationStatus → float64)) :=
  [ (bikesAvailable, λ s, float64_of_int64 (BikesAvailable s));
    (bikesDisabled, λ s, float64_of_int64 (BikesDisabled s));
    (docksAvailable, λ s, float64_of_int64 (DocksAvailable s)) ].

(** The seven vectors of [part_001], with what the loop writes into each. *)
Definition local_gauges
    : list ((IsolatedProbe.Locals → GaugeVec) * (StationStatus → float64)) :=
  [ (IsolatedProbe.bikesAvailableGauge,
     λ s, float64_of_int64 (BikesAvailable s));
    (IsolatedProbe.bikesDisabledGauge,
     λ s, float64_of_int64 (BikesDisabled s));
    (IsolatedProbe.docksAvailableGauge,
     λ s, float64_of_int64 (DocksAvailable s));
    (IsolatedProbe.docksDisabledGauge,
     λ s, float64_of_int64 (DocksDisabled s));
    (IsolatedProbe.installedGauge, λ s, BoolToFloat64 (Installed s));
    (IsolatedProbe.rentingGauge, λ s, BoolToFloat64 (Renting s));
    (IsolatedProbe.lastReportedGauge,
     λ s, float64_of_int64 (LastReported s)) ].

(** The process-wide gauges after [src/main.go] has served the given
    requests, each with the network as it was then. *)
Definition serve (requests : list (Internet * Request)) (g : Globals)
    : Globals :=
  fold_left (λ g nr, state (Main.probeGBFS nr.1 g nr.2)) requests g.

(** What [part_001] renders for the one-station feed of the example. *)
Definition rendered_7001 : Exposition :=
  Gather (map fst local_gauges)
    (fold_left IsolatedProbe.observe [entry_station entry_7001]
       IsolatedProbe.new_gauges).

(** The largest number of seconds whose nanoseconds fit int64. *)
Definition max_whole_seconds : Z := 9223372036.

(** The body is not JSON, or is JSON but neither an object nor [null]. *)
Definition not_an_object (body : string) : Prop :=
  match Scan.text body with
  | None => True
  | Some (JObj _) => False
  | Some JNull => False
  | Some _ => True
  end.

(** No member of the object of [data] is decoded into [Stations]. *)
Definition without_stations (members : list (string * json)) : Prop :=
  Forall (λ m, Fold.field_of Data_fields m.1 ≠ Some stations) members.

(** The value is [null] or an integer that fits int64. *)
Definition acceptable_int64 (v : json) : bool :=
  match v with
  | JNull => true
  | JNum (NInt z) => Int64.in_range z
  | _ => false
  end.

(** Every [last_updated] and [ttl] member of the top-level object is
    acceptable to its int64 field. *)
Definition envelope_accepted (members : list (string * json)) : Prop :=
  Forall (λ m, match Fold.field_of response_fields m.1 with
               | Some last_updated | Some ttl => acceptable_int64 m.2 = true
               | _ => True
               end) members.

(** The element of the stations array is an object every member of which
    the decoder accepts. *)
Definition entry_accepted (e : json) : Prop :=
  match e with
  | JObj members => accepted members
  | _ => False
  end.

(** A payload whose [data] has two [stations] members. *)
Definition body_repeated_stations : string :=
  q ("{'data':{'stations':[{'station_id':'a','num_bikes_disabled':5}],"
     +:+ "'stations':[{'station_id':'b'}]}}").

(** A feed in the usual order of its members, with a member the decoder
    does not know. *)
Definition body_usual_order : string :=
  q ("{'last_updated':1600000060,'ttl':30,'version':'2.3',"
     +:+ "'data':{'stations':[{'station_id':'7001','num_bikes_available':4},"
     +:+ "{'station_id':'7002','num_bikes_disabled':2,"
     +:+ "'num_docks_disabled':null}]}}").

(** A feed whose TTL is the largest int64. *)
Definition body_ttl_max : string := q "{'ttl':9223372036854775807}".

(** Two decoding steps leave the same value and end on the same error;
    the errors they have saved may differ. *)
Definition same_value {A : Type} (r1 r2 : step A) : Prop :=
  match r1, r2 with
  | Returns (x1, _, e1), Returns (x2, _, e2) => x1 = x2 ∧ e1 = e2
  | Panics, Panics => True
  | _, _ => False
  end.

(** A feed whose [ttl] does not fit int64, and the same feed without the
    member. *)
Definition body_ttl_too_large_without_ttl : string :=
  q "{'data':{'stations':[{'last_reported':-1}]}}".

(** * Properties *)

(** ** The decoding of one station *)

Lemma saveError_Some d e : savedError (saveError d e) ≠ None.
Proof. unfold saveError. destruct (savedError d) eqn:E; simpl; congruence. Qed.

Lemma saveError_keeps d e :
  savedError d ≠ None → saveError d e = d.
Proof. unfold saveError. destruct (savedError d); congruence. Qed.

Lemma store_int64_saved S F v old d :
  savedError d ≠ None → savedError (store_int64 S F v old d).2 ≠ None.
Proof.
  intros H. destruct v as [| |[z|l]| | |]; simpl;
    try destruct (Int64.in_range z); simpl; auto;
    rewrite saveError_keeps; auto.
Qed.

Lemma store_string_saved S F v old d :
  savedError d ≠ None → savedError (store_string S F v old d).2 ≠ None.
Proof.
  intros H. destruct v; simpl; auto; rewrite saveError_keeps; auto.
Qed.

Lemma store_alias_field_saved f v a d :
  savedError d ≠ None → savedError (store_alias_field f v a d).2 ≠ None.
Proof.
  intros H. unfold store_alias_field.
  destruct f;
    try (pose proof (store_string_saved "" (alias_field_name station_id) v
                       (ID (Alias a)) d H) as Hs;
         destruct (store_string _ _ _ _ _); exact Hs);
    match goal with
    | |- context [store_int64 ?S ?F ?v ?o ?d] =>
        pose proof (store_int64_saved S F v o d H) as Hs;
        destruct (store_int64 S F v o d); exact Hs
    end.
Qed.

(** An error once saved stays saved. *)
Lemma object_alias_saved members : ∀ a d,
  savedError d ≠ None → savedError (object_alias members a d).2 ≠ None.
Proof.
  induction members as [|[k v] rest IH]; intros a d H; simpl; auto.
  destruct (Fold.field_of alias_fields k) as [f|]; auto.
  pose proof (store_alias_field_saved f v a d H) as Hs.
  destruct (store_alias_field f v a d) as [a' d']. apply IH. exact Hs.
Qed.

Lemma object_alias_app l1 l2 a d :
  object_alias (l1 ++ l2) a d =
  let '(a1, d1) := object_alias l1 a d in object_alias l2 a1 d1.
Proof.
  revert a d. induction l1 as [|[k v] rest IH]; intros a d; simpl.
  - reflexivity.
  - destruct (Fold.field_of alias_fields k) as [f|]; auto.
    destruct (store_alias_field f v a d) as [a' d']. apply IH.
Qed.

(** A store into one field leaves the others as they were. *)
Lemma store_alias_field_other f f' v a d :
  f' ≠ f → read f' (store_alias_field f v a d).1 = read f' a.
Proof.
  intros Hne. unfold store_alias_field.
  destruct f; destruct f'; try congruence;
    try (destruct (store_string _ _ _ _ _); reflexivity);
    match goal with
    | |- context [store_int64 ?S ?F ?v ?o ?d] =>
        destruct (store_int64 S F v o d); reflexivity
    end.
Qed.

(** A field no member is decoded into keeps what it held. *)
Lemma object_alias_absent f members : ∀ a d,
  absent f members → read f (object_alias members a d).1 = read f a.
Proof.
  induction members as [|[k v] rest IH]; intros a d H; simpl; auto.
  inversion H as [|m l Hk Hrest]; subst. simpl in Hk.
  destruct (Fold.field_of alias_fields k) as [g|] eqn:E; auto.
  pose proof (store_alias_field_other g f v a d) as Ho.
  destruct (store_alias_field g v a d) as [a' d']. simpl in Ho.
  rewrite IH by assumption. apply Ho. congruence.
Qed.

(** A value of the declared type is stored and saves no error. *)
Lemma store_alias_field_fits f v a d :
  fits f v = true → (store_alias_field f v a d).2 = d.
Proof.
  intros H. unfold store_alias_field.
  destruct f; destruct v as [| |[z|l]| | |]; simpl in H; try discriminate;
    simpl; try rewrite H; reflexivity.
Qed.

Lemma object_alias_well_typed members : ∀ a d,
  well_typed members → (object_alias members a d).2 = d.
Proof.
  induction members as [|[k v] rest IH]; intros a d H; simpl; auto.
  inversion H as [|m l Hk Hrest]; subst. simpl in Hk.
  destruct (Fold.field_of alias_fields k) as [g|] eqn:E; auto.
  pose proof (store_alias_field_fits g v a d Hk) as Hs.
  destruct (store_alias_field g v a d) as [a' d']. simpl in Hs. subst d'.
  apply IH. assumption.
Qed.





(** The wire values of the claim: 0, 1, 2 and -1. *)
Example UnmarshalJSON_wire_values :
  UnmarshalJSON zero_StationStatus
    (JObj [("is_installed", JNum (NInt 0)); ("is_renting", JNum (NInt 1));
           ("is_returning", JNum (NInt 2))])
  = Returns
      ({| ID := ""; BikesAvailable := 0; BikesDisabled := 0;
          DocksAvailable := 0; DocksDisabled := 0; Installed := false;
          Renting := true; Returning := true; LastReported := 0 |}, None)
  ∧ UnmarshalJSON zero_StationStatus
      (JObj [("is_installed", JNum (NInt (-1)))])
    = Returns
        ({| ID := ""; BikesAvailable := 0; BikesDisabled := 0;
            DocksAvailable := 0; DocksDisabled := 0; Installed := true;
            Renting := false; Returning := false; LastReported := 0 |}, None).
Proof. split; reflexivity. Qed.

(** A well-typed entry decodes without error, whatever fields it lacks. *)
Lemma UnmarshalJSON_well_typed s0 members :
  well_typed members →
  ∃ s, UnmarshalJSON s0 (JObj members) = Returns (s, None)
       ∧ (absent num_bikes_disabled members → BikesDisabled s = BikesDisabled s0)
       ∧ (absent num_docks_disabled members → DocksDisabled s = DocksDisabled s0).
Proof.
  intros Hwt. unfold UnmarshalJSON, Unmarshal_alias.
  set (a0 := {| alias_Installed := 0; alias_Renting := 0;
                alias_Returning := 0; Alias := s0 |}).
  pose proof (object_alias_well_typed members a0 {| savedError := None |} Hwt)
    as Hd.
  pose proof (object_alias_absent num_bikes_disabled members a0
                {| savedError := None |}) as Hb.
  pose proof (object_alias_absent num_docks_disabled members a0
                {| savedError := None |}) as Hk.
  destruct (object_alias members a0 _) as [a' d']. simpl in Hd, Hb, Hk.
  subst d'. simpl. eexists. split; [reflexivity|]. simpl.
  split; intros Habs; [specialize (Hb Habs)|specialize (Hk Habs)]; congruence.
Qed.

Lemma UnmarshalJSON_entry_station members :
  well_typed members →
  UnmarshalJSON zero_StationStatus (JObj members)
  = Returns (entry_station members, None).
Proof.
  intros Hwt. unfold entry_station.
  destruct (UnmarshalJSON_well_typed zero_StationStatus members Hwt)
    as (s & -> & _). reflexivity.
Qed.

(** ** The decoding of the stations array *)

(** A full slice grows into one with at least one zeroed spare slot. *)
Lemma grow_spare done v :
  array v = done →
  len v = length done →
  ∃ k', array (grow v) = done ++ replicate (S k') zero_StationStatus
        ∧ len (grow v) = length done.
Proof.
  intros Harr Hlen. unfold grow, cap. cbn [array len].
  rewrite Hlen, Harr. rewrite take_ge by lia.
  set (n := length done).
  assert (Hdiv : (n / 2 <= n ∧ (2 <= n → 1 <= n / 2))%nat).
  { split.
    - apply Nat.Div0.div_le_upper_bound. lia.
    - intros. apply Nat.div_le_lower_bound; lia. }
  destruct Hdiv as [Hup Hlow].
  destruct (Nat.ltb_spec (n + n / 2) 4).
  - exists (4 - n - 1)%nat. split; [|reflexivity].
    f_equal. f_equal. lia.
  - exists (n + n / 2 - n - 1)%nat. split; [|reflexivity].
    f_equal. f_equal. lia.
Qed.

(** Into a slice whose spare capacity is zeroed, the entries decode one
    after the other, each in a fresh slot. *)
Lemma array_Stations_fresh entries : ∀ done k v,
  Forall well_typed entries →
  array v = done ++ replicate k zero_StationStatus →
  len v = length done →
  ∃ v', array_Stations (map JObj entries) (length done) v = Returns (v', None)
        ∧ elems v' = done ++ map entry_station entries.
Proof.
  induction entries as [|ms rest IH]; intros done k v Hwt Harr Hlen.
  - simpl. rewrite Hlen, Nat.ltb_irrefl. eexists. split; [reflexivity|].
    rewrite app_nil_r. destruct done as [|x done'].
    + reflexivity.
    + simpl length. simpl Nat.eqb. cbn iota. unfold elems.
      rewrite Hlen, Harr. rewrite take_app_length. reflexivity.
  - inversion Hwt as [|m l Hms Hrest]; subst.
    cbn [map array_Stations].
    set (v1 := if (cap v <=? length done)%nat then grow v else v).
    assert (H1 : ∃ k', array v1 = done ++ replicate (S k') zero_StationStatus
                      ∧ len v1 = length done).
    { unfold v1, cap. rewrite Harr, length_app, length_replicate.
      destruct (Nat.leb_spec (length done + k) (length done)) as [Hle|Hgt].
      - assert (k = 0%nat) by lia. subst k.
        apply grow_spare; [|exact Hlen].
        rewrite Harr. cbn [replicate]. apply app_nil_r.
      - destruct k as [|k']; [lia|]. exists k'. split; assumption. }
    destruct H1 as (k' & Harr1 & Hlen1).
    rewrite Hlen1, Nat.leb_refl.
    cbn [array SetLen len].
    assert (Hi : array v1 !! length done = Some zero_StationStatus).
    { rewrite Harr1. rewrite lookup_app_r by lia.
      rewrite Nat.sub_diag. reflexivity. }
    rewrite Hi. rewrite (UnmarshalJSON_entry_station ms Hms).
    specialize (IH (done ++ [entry_station ms]) k'
                  {| array := <[length done := entry_station ms]> (array v1);
                     len := (length done + 1)%nat |} Hrest).
    rewrite length_app in IH. simpl length in IH.
    destruct IH as (v' & Hrun & Hel).
    + cbn [array]. rewrite Harr1.
      rewrite insert_app_r_alt by lia. rewrite Nat.sub_diag. simpl.
      rewrite <- app_assoc. reflexivity.
    + reflexivity.
    + exists v'. split; [exact Hrun|].
      rewrite Hel. rewrite <- app_assoc. reflexivity.
Qed.

(** ** The decoding of a feed *)

(** A feed of the contract's shape with well-typed entries decodes without
    error into one station per entry, in order. *)
Lemma GetStationStatuses_feed body entries lu t :
  Scan.text body = Some (feed entries lu t) →
  Int64.in_range lu = true →
  Int64.in_range t = true →
  Forall well_typed entries →
  ∃ resp, GetStationStatuses body = Returns (Some resp, None)
          ∧ elems (Stations (Data resp)) = map entry_station entries
          ∧ envelope resp = {| LastUpdated := lu; TTL := t |}.
Proof.
  intros Hscan Hlu Ht Hwt.
  unfold GetStationStatuses, Unmarshal. rewrite Hscan. unfold feed.
  destruct (array_Stations_fresh entries [] 0 nil_slice Hwt eq_refl eq_refl)
    as (v' & Hrun & Hel).
  cbn [length] in Hrun.
  cbn -[array_Stations Int64.in_range].
  rewrite Hrun. cbn -[Int64.in_range]. rewrite Hlu. cbn -[Int64.in_range].
  rewrite Ht. cbn.
  eexists. split; [reflexivity|]. split; [exact Hel|reflexivity].
Qed.

Ltac well_typed_entries :=
  repeat (constructor; [ vm_compute; first [reflexivity | exact I] | ]);
  constructor.

(** ** The probe handler of src/main.go *)

Lemma Values_Get_missing r :
  target_missing r → Values_Get (Query r) "target" = "".
Proof.
  unfold target_missing, Values_Get.
  destruct (Query r !! "target") as [[|x l]|]; auto.
Qed.

Lemma Values_Get_probe_of target :
  Values_Get (Query (probe_of target)) "target" = target.
Proof. unfold Values_Get, probe_of. cbn [Query]. rewrite lookup_singleton_eq. reflexivity. Qed.

(** C9.  A probe request without [target], or with an empty one, is
    answered 400 with the text "Target parameter missing"; nothing is
    fetched, the gauges are untouched, and the handler is done. *)
Theorem probeGBFS_target_missing :
  ∀ (net : Internet) (g : Globals) (r : Request),
    target_missing r →
    Main.probeGBFS net g r
    = {| state := g;
         outcome :=
           Responded
             {| StatusCode := 400;
                body := Text ("Target parameter missing" +:+ newline) |};
         fetched := [] |}.
Proof.
  intros net g r H. unfold Main.probeGBFS.
  rewrite (Values_Get_missing r H). reflexivity.
Qed.

Lemma probeGBFS_target_missing_witness :
  target_missing {| Query := ∅ |}
  ∧ target_missing (probe_of "")
  ∧ Main.probeGBFS (λ _, Fetched body_7001) init (probe_of "")
    = {| state := init;
         outcome :=
           Responded
             {| StatusCode := 400;
                body := Text ("Target parameter missing" +:+ newline) |};
         fetched := [] |}.
Proof.
  split; [exact I|]. split; [reflexivity|].
  apply (probeGBFS_target_missing (λ _, Fetched body_7001) init (probe_of "")).
  reflexivity.
Defined.

(** C8.  With a [target] given, a failed GET is answered 400 with the text
    of the HTTP error, and a failed read of the response body is answered
    500.  [http_Error msg code] is the response with status [code] and the
    text [msg] followed by a newline. *)
Theorem probeGBFS_transport_failures :
  ∀ (net : Internet) (g : Globals) (r : Request) (target err : string),
    Values_Get (Query r) "target" = target →
    target ≠ "" →
    (net target = GetError err →
     outcome (Main.probeGBFS net g r)
     = Responded (http_Error ("HTTP error: " +:+ err) 400))
    ∧ (net target = ReadError err →
       outcome (Main.probeGBFS net g r)
       = Responded
           (http_Error ("Failed to read HTTP body of target '" +:+ target
                        +:+ "': " +:+ err) 500)).
Proof.
  intros net g r target err Ht Hne.
  apply String.eqb_neq in Hne.
  split; intros Hnet; unfold Main.probeGBFS; rewrite Ht, Hne, Hnet;
    reflexivity.
Qed.

(** A host that does not resolve, and a body that breaks off. *)
Lemma probeGBFS_transport_failures_witness :
  let target := "http://feed.example/station_status" in
  outcome (Main.probeGBFS (λ _, GetError "dial tcp: no such host") init
             (probe_of target))
  = Responded (http_Error "HTTP error: dial tcp: no such host" 400)
  ∧ outcome (Main.probeGBFS (λ _, ReadError "unexpected EOF") init
               (probe_of target))
    = Responded
        (http_Error
           ("Failed to read HTTP body of target '" +:+ target
            +:+ "': unexpected EOF") 500).
Proof.
  intros target. split.
  - apply (probeGBFS_transport_failures
             (λ _, GetError "dial tcp: no such host") init (probe_of target)
             target "dial tcp: no such host");
      [reflexivity | discriminate | reflexivity].
  - apply (probeGBFS_transport_failures
             (λ _, ReadError "unexpected EOF") init (probe_of target)
             target "unexpected EOF");
      [reflexivity | discriminate | reflexivity].
Defined.

Lemma register_all_declared g :
  declared g →
  register_all g = Returns [bikesAvailable; bikesDisabled; docksAvailable].
Proof.
  intros (Ha & Hb & Hc). unfold register_all, MustRegister, NewRegistry.
  cbn [map app]. rewrite Ha.
  replace (bool_decide ("gbfs_bikes_available" ∈ @nil string)) with false
    by (vm_compute; reflexivity).
  cbn [map app]. rewrite Ha, Hb.
  replace (bool_decide ("gbfs_bikes_disabled" ∈ ["gbfs_bikes_available"]))
    with false by (vm_compute; reflexivity).
  cbn [map app]. rewrite Ha, Hb, Hc.
  replace (bool_decide ("gbfs_docks_available"
                        ∈ ["gbfs_bikes_available"; "gbfs_bikes_disabled"]))
    with false by (vm_compute; reflexivity).
  reflexivity.
Qed.

Lemma declared_init : declared init.
Proof. repeat split. Qed.

Lemma declared_observe g s : declared g → declared (observe g s).
Proof. intros (Ha & Hb & Hc). repeat split; assumption. Qed.

Lemma declared_fold_observe l : ∀ g,
  declared g → declared (fold_left observe l g).
Proof.
  induction l as [|s l IH]; intros g H; simpl; [exact H|].
  apply IH, declared_observe, H.
Qed.


(** X12.  In [src/main.go], a feed that does not decode is answered 400 with the
    target and the error in the text, and no gauge is written. *)
Lemma Main_probeGBFS_schema_error net g r target body resp err :
  declared g →
  Values_Get (Query r) "target" = target →
  target ≠ "" →
  net target = Fetched body →
  GetStationStatuses body = Returns (resp, Some err) →
  Main.probeGBFS net g r
  = {| state := g;
       outcome :=
         Responded
           (http_Error
              ("Could not unmarshal target JSON, target '" +:+ target
               +:+ "' does not have the expected schema: " +:+ Error err) 400);
       fetched := [target] |}.
Proof.
  intros Hg Ht Hne Hnet Hdec. apply String.eqb_neq in Hne.
  unfold Main.probeGBFS. rewrite Ht, Hne, Hnet.
  rewrite (register_all_declared g Hg), Hdec. destruct resp; reflexivity.
Qed.

Lemma IsolatedProbe_register_all :
  IsolatedProbe.register_all IsolatedProbe.new_gauges
  = Returns
      [IsolatedProbe.bikesAvailableGauge; IsolatedProbe.bikesDisabledGauge;
       IsolatedProbe.docksAvailableGauge; IsolatedProbe.docksDisabledGauge;
       IsolatedProbe.installedGauge; IsolatedProbe.rentingGauge;
       IsolatedProbe.lastReportedGauge].
Proof. vm_compute. reflexivity. Qed.

(** The same in [part_001]. *)
Lemma IsolatedProbe_probeGBFS_schema_error net r target body resp err :
  Values_Get (Query r) "target" = target →
  target ≠ "" →
  net target = Fetched body →
  GetStationStatuses body = Returns (resp, Some err) →
  IsolatedProbe.probeGBFS net r
  = {| state := tt;
       outcome :=
         Responded
           (http_Error
              ("Could not unmarshal target JSON, target '" +:+ target
               +:+ "' does not have the expected schema: " +:+ Error err) 400);
       fetched := [target] |}.
Proof.
  intros Ht Hne Hnet Hdec. apply String.eqb_neq in Hne.
  unfold IsolatedProbe.probeGBFS. rewrite Ht, Hne, Hnet.
  rewrite IsolatedProbe_register_all, Hdec. destruct resp; reflexivity.
Qed.

(** ** Where the code leaves the specification *)

(** C3, in [part_000].  The fixed-URL probe discards the error of
    [GetStationStatuses]: on a feed whose second entry does not decode it
    answers 200, not 400, and the rendered gauges hold the entry decoded
    before the error and the zero of the entry that failed. *)
Theorem FixedProbe_probeGBFS_discards_decode_error :
  ∃ resp err e,
    GetStationStatuses body_bad_entry = Returns (Some resp, Some err)
    ∧ outcome (FixedProbe.probeGBFS (λ _, Fetched body_bad_entry) init
                 {| Query := ∅ |})
      = Responded {| StatusCode := 200; body := Metrics e |}
    ∧ sample e "gbfs_bikes_available" "a" 3
    ∧ sample e "gbfs_bikes_available" "b" 0.
Proof.
  do 3 eexists. split; [vm_compute; reflexivity|].
  split; [vm_compute; reflexivity|].
  split; eexists; (split; [vm_compute; reflexivity|vm_compute; reflexivity]).
Qed.

(** C2, in [src/main.go].  The registry is new for each request but the
    vectors are the process-wide ones: after a probe of target A, the
    response to a probe of target B, whose feed has the one station B1,
    has a sample for A1. *)
Theorem Main_probeGBFS_leaks_between_targets :
  let first := Main.probeGBFS two_feeds init (probe_of target_A) in
  let second := Main.probeGBFS two_feeds (state first) (probe_of target_B) in
  ∃ resp e,
    GetStationStatuses body_B = Returns (Some resp, None)
    ∧ station_ids resp = ["B1"]
    ∧ outcome second = Responded {| StatusCode := 200; body := Metrics e |}
    ∧ sample e "gbfs_bikes_available" "A1" 4.
Proof.
  do 2 eexists. split; [vm_compute; reflexivity|].
  split; [vm_compute; reflexivity|].
  split; [vm_compute; reflexivity|].
  eexists; (split; [vm_compute; reflexivity|vm_compute; reflexivity]).
Qed.

(** C10.  For the body [null], [GetStationStatuses] returns the nil pointer
    and no error; the callers dereference it: the poll loop crashes and the
    probe handlers panic.  An entry [null] in the stations makes
    [UnmarshalJSON] itself panic. *)
Theorem GetStationStatuses_null_is_nil :
  GetStationStatuses "null" = Returns (None, None)
  ∧ Poll.iteration (λ _, Fetched "null") init = Poll.Crashed
  ∧ outcome (FixedProbe.probeGBFS (λ _, Fetched "null") init {| Query := ∅ |})
    = Panicked
  ∧ outcome (Main.probeGBFS (λ _, Fetched "null") init (probe_of target_A))
    = Panicked
  ∧ GetStationStatuses (q "{'data':{'stations':[null]}}") = Panics.
Proof. repeat split; vm_compute; reflexivity. Qed.

(** ** The probe handler of part_001 *)

(** What a scrape renders of a family is what one registered vector
    holds. *)
Lemma Gather_lookup {S : Type} (r : Registry S) (st : S) name fam :
  Gather r st !! name = Some fam →
  ∃ c, c ∈ r ∧ fqName (c st) = name ∧ metrics fam = children (c st).
Proof.
  unfold Gather. induction r as [|c r IH]; cbn [foldr].
  - rewrite lookup_empty. discriminate.
  - destruct (bool_decide (children (c st) = ∅)).
    + intros H. destruct (IH H) as (c' & Hin & Hn & Hm).
      exists c'. split; [right; exact Hin|auto].
    + rewrite lookup_insert. case_decide as Hname.
      * intros H. injection H as <-. exists c. split; [left|auto].
      * intros H. destruct (IH H) as (c' & Hin & Hn & Hm).
        exists c'. split; [right; exact Hin|auto].
Qed.

(** After the loop over the stations, a child of a vector was there before
    or carries the ID of one of the stations. *)
Lemma IsolatedProbe_observe_children c id x sts : ∀ l,
  c ∈ [IsolatedProbe.bikesAvailableGauge; IsolatedProbe.bikesDisabledGauge;
       IsolatedProbe.docksAvailableGauge; IsolatedProbe.docksDisabledGauge;
       IsolatedProbe.installedGauge; IsolatedProbe.rentingGauge;
       IsolatedProbe.lastReportedGauge] →
  children (c (fold_left IsolatedProbe.observe sts l)) !! id = Some x →
  children (c l) !! id = Some x ∨ id ∈ map ID sts.
Proof.
  intros l Hc. revert l.
  induction sts as [|s sts IH]; intros l H; simpl in *; [left; exact H|].
  destruct (IH _ H) as [Hl|Hin]; [|right; right; exact Hin].
  destruct (decide (ID s = id)) as [->|Hne]; [right; left|].
  left. revert Hl.
  repeat (apply elem_of_cons in Hc as [->|Hc];
          [cbn; rewrite lookup_insert_ne by exact Hne; tauto|]).
  inversion Hc.
Qed.

(** In [part_001] the gauges are created inside the handler: a response
    depends on nothing but the request and the network, and every sample it
    renders carries the ID of a station of the feed fetched for this
    request. *)
Lemma IsolatedProbe_probeGBFS_own_stations net r e name id x :
  outcome (IsolatedProbe.probeGBFS net r)
  = Responded {| StatusCode := 200; body := Metrics e |} →
  sample e name id x →
  ∃ body resp,
    net (Values_Get (Query r) "target") = Fetched body
    ∧ GetStationStatuses body = Returns (Some resp, None)
    ∧ id ∈ station_ids resp.
Proof.
  unfold IsolatedProbe.probeGBFS.
  destruct (String.eqb _ _); [discriminate|].
  destruct (net _) as [err|err|body]; try discriminate.
  rewrite IsolatedProbe_register_all.
  destruct (GetStationStatuses body) as [[[resp|] [err|]]|] eqn:Hdec;
    try discriminate.
  cbn [outcome].
  match goal with
  | |- Responded {| StatusCode := _; body := Metrics ?G |} = _ → _ =>
      remember G as e' eqn:He'
  end.
  intros He (fam & Hfam & Hx).
  injection He as <-. subst e'.
  apply Gather_lookup in Hfam as (c & Hc & _ & Hm).
  rewrite Hm in Hx.
  apply (IsolatedProbe_observe_children c id x _ _ Hc) in Hx as [Hx|Hin].
  - exfalso. revert Hx.
    repeat (apply elem_of_cons in Hc as [->|Hc];
            [cbn; rewrite lookup_empty; discriminate|]).
    inversion Hc.
  - exists body, resp. auto.
Qed.

(** The loop over the stations never reads [Returning]. *)
Lemma IsolatedProbe_observe_ignores_Returning l s b :
  IsolatedProbe.observe l s
  = IsolatedProbe.observe l
      {| ID := ID s; BikesAvailable := BikesAvailable s;
         BikesDisabled := BikesDisabled s; DocksAvailable := DocksAvailable s;
         DocksDisabled := DocksDisabled s; Installed := Installed s;
         Renting := Renting s; Returning := b;
         LastReported := LastReported s |}.
Proof. reflexivity. Qed.

(** C4 as stated fails: the response to a probe of the one-station feed has
    the seven families of [part_001] and no family for [is_returning]; the
    samples of station 7001 with value 0 are those of the two disabled
    counts; and the same feed with [is_returning] set to 1 renders the same
    response. *)
Lemma probe_7001_renders_no_returning_gauge :
  ∃ e,
    outcome (IsolatedProbe.probeGBFS (λ _, Fetched body_7001)
               (probe_of target_A))
    = Responded {| StatusCode := 200; body := Metrics e |}
    ∧ dom e = seven_families
    ∧ e !! "gbfs_returning" = None
    ∧ (∀ name, sample e name "7001" 0 →
               name = "gbfs_bikes_disabled" ∨ name = "gbfs_docks_disabled")
    ∧ outcome (IsolatedProbe.probeGBFS (λ _, Fetched body_7001_returning)
                 (probe_of target_A))
      = outcome (IsolatedProbe.probeGBFS (λ _, Fetched body_7001)
                   (probe_of target_A)).
Proof.
  exists (Gather
            [IsolatedProbe.bikesAvailableGauge; IsolatedProbe.bikesDisabledGauge;
             IsolatedProbe.docksAvailableGauge; IsolatedProbe.docksDisabledGauge;
             IsolatedProbe.installedGauge; IsolatedProbe.rentingGauge;
             IsolatedProbe.lastReportedGauge]
            (fold_left IsolatedProbe.observe [entry_station entry_7001]
               IsolatedProbe.new_gauges)).
  assert (Hdom : dom (Gather
            [IsolatedProbe.bikesAvailableGauge; IsolatedProbe.bikesDisabledGauge;
             IsolatedProbe.docksAvailableGauge; IsolatedProbe.docksDisabledGauge;
             IsolatedProbe.installedGauge; IsolatedProbe.rentingGauge;
             IsolatedProbe.lastReportedGauge]
            (fold_left IsolatedProbe.observe [entry_station entry_7001]
               IsolatedProbe.new_gauges)) = seven_families).
  { apply (bool_decide_unpack _). vm_compute. exact I. }
  split; [vm_compute; reflexivity|].
  split; [exact Hdom|].
  split; [vm_compute; reflexivity|].
  split; [|vm_compute; reflexivity].
  intros name (fam & Hfam & Hx).
  assert (Hin : name ∈ seven_families).
  { rewrite <- Hdom. apply elem_of_dom. eexists. exact Hfam. }
  unfold seven_families in Hin.
  repeat (apply elem_of_union in Hin as [Hin|Hin]);
    apply elem_of_singleton in Hin; subst name;
    vm_compute in Hfam; injection Hfam as <-;
    vm_compute in Hx; first [discriminate | auto].
Qed.

(** C4, amended.  For a probe whose target returns the one-station feed of
    the example, whatever its envelope, the response is 200 and renders
    [gbfs_bikes_available{station_id="7001"} 4] and
    [gbfs_renting{station_id="7001"} 1]; the families rendered are the seven
    that [part_001] registers, none of them for [is_returning]. *)
Theorem IsolatedProbe_probeGBFS_one_station :
  ∀ (net : Internet) (r : Request) (target body : string) (lu t : Z),
    Values_Get (Query r) "target" = target →
    target ≠ "" →
    net target = Fetched body →
    Scan.text body = Some (feed [entry_7001] lu t) →
    Int64.in_range lu = true →
    Int64.in_range t = true →
    ∃ e,
      outcome (IsolatedProbe.probeGBFS net r)
      = Responded {| StatusCode := 200; body := Metrics e |}
      ∧ sample e "gbfs_bikes_available" "7001" 4
      ∧ sample e "gbfs_renting" "7001" 1
      ∧ dom e = seven_families.
Proof.
  intros net r target body lu t Ht Hne Hnet Hscan Hlu Htt.
  apply String.eqb_neq in Hne.
  destruct (GetStationStatuses_feed body [entry_7001] lu t Hscan Hlu Htt)
    as (resp & Hdec & Hel & _).
  { constructor; [|constructor]. unfold entry_7001. well_typed_entries. }
  unfold IsolatedProbe.probeGBFS.
  rewrite Ht, Hne, Hnet, IsolatedProbe_register_all, Hdec, Hel.
  cbn [outcome]. eexists. split; [reflexivity|].
  split; [|split].
  - eexists. split; vm_compute; reflexivity.
  - eexists. split; vm_compute; reflexivity.
  - apply (bool_decide_unpack _). vm_compute. exact I.
Qed.

Lemma IsolatedProbe_probeGBFS_one_station_witness :
  ∃ e,
    outcome (IsolatedProbe.probeGBFS (λ _, Fetched body_7001)
               (probe_of target_A))
    = Responded {| StatusCode := 200; body := Metrics e |}
    ∧ sample e "gbfs_bikes_available" "7001" 4
    ∧ sample e "gbfs_renting" "7001" 1
    ∧ dom e = seven_families.
Proof.
  apply (IsolatedProbe_probeGBFS_one_station (λ _, Fetched body_7001)
           (probe_of target_A) target_A body_7001 1600000060 30).
  - reflexivity.
  - discriminate.
  - reflexivity.
  - vm_compute; reflexivity.
  - reflexivity.
  - reflexivity.
Defined.

(** ** The poll loop of part_002 *)

Lemma store_int64_in_range S F v old d :
  Int64.in_range old = true →
  Int64.in_range (store_int64 S F v old d).1 = true.
Proof.
  intros H. destruct v as [| |[z|l]| | |]; simpl; auto.
  destruct (Int64.in_range z) eqn:E; simpl; auto.
Qed.

(** The decoder only stores a [ttl] that fits int64. *)
Lemma object_response_TTL members : ∀ x d x' d' e,
  Int64.in_range (TTL (envelope x)) = true →
  object_response members x d = Returns (x', d', e) →
  Int64.in_range (TTL (envelope x')) = true.
Proof.
  induction members as [|[k v] rest IH]; intros x d x' d' e Hx Hrun.
  - simpl in Hrun. injection Hrun as <- _ _. exact Hx.
  - cbn [object_response] in Hrun.
    destruct (Fold.field_of response_fields k) as [[| |]|].
    + destruct v as [| | | | |ms]; try (eapply IH; [|exact Hrun]; exact Hx).
      destruct (object_Data ms (Data x) d) as [[[dx d1] [err|]]|];
        try discriminate.
      * injection Hrun as <- _ _. exact Hx.
      * eapply IH; [|exact Hrun]. exact Hx.
    + destruct (store_int64 _ _ v (LastUpdated (envelope x)) d) as [z d1].
      eapply IH; [|exact Hrun]. exact Hx.
    + pose proof (store_int64_in_range "StationStatusAPIResponse" "ttl" v
                    (TTL (envelope x)) d Hx) as Hz.
      destruct (store_int64 _ _ v (TTL (envelope x)) d) as [z d1].
      eapply IH; [|exact Hrun]. exact Hz.
    + eapply IH; [|exact Hrun]. exact Hx.
Qed.

Lemma GetStationStatuses_TTL_in_range body resp err :
  GetStationStatuses body = Returns (Some resp, err) →
  Int64.in_range (TTL (envelope resp)) = true.
Proof.
  unfold GetStationStatuses, Unmarshal.
  destruct (Scan.text body) as [[| | | | |members]|];
    try (intros H; injection H as <- _; reflexivity); try discriminate.
  destruct (object_response members _ _) as [[[x d] e]|] eqn:Hrun;
    [|discriminate].
  intros H.
  assert (x = resp) by (destruct e; injection H as <- _; reflexivity).
  subst x. eapply object_response_TTL; [|exact Hrun]. reflexivity.
Qed.

Lemma Max_max x y : Max x y = Z.max x y.
Proof. unfold Max. destruct (Z.gtb_spec x y); lia. Qed.

Lemma Int64_add_1 ttl :
  Int64.in_range ttl = true → ttl < Int64.max → Int64.add ttl 1 = ttl + 1.
Proof.
  unfold Int64.in_range, Int64.add, Int64.wrap, Int64.min, Int64.max.
  intros H Hlt. apply andb_prop in H as [Hlo _]. apply Z.leb_le in Hlo.
  rewrite Z.mod_small by lia. lia.
Qed.

(** C5 as stated fails at the largest TTL a feed can send: the int64 sum
    [TTL+1] wraps around to the smallest int64, and the loop sleeps 10
    seconds, not the [max(10, ttl + 1)] of the claim. *)
Lemma grabThoseMetrics_sleep_wraps_at_largest_TTL :
  ∃ resp,
    GetStationStatuses body_ttl_max = Returns (Some resp, None)
    ∧ TTL (envelope resp) = 9223372036854775807
    ∧ Poll.iteration (λ _, Fetched body_ttl_max) init
      = Poll.Sleeps init 10 10000000000
    ∧ 10 ≠ Z.max minimumPollSleepSeconds (TTL (envelope resp) + 1).
Proof.
  eexists. split; [vm_compute; reflexivity|].
  split; [reflexivity|]. split; [vm_compute; reflexivity|].
  vm_compute. discriminate.
Qed.

(** C5, amended.  In a turn of the poll loop, whatever the decoder made of
    the body, when the TTL just decoded is below the largest int64 the loop
    sleeps [max(minimumPollSleepSeconds, ttl + 1)] seconds, where
    [minimumPollSleepSeconds] is 10.  A TTL of 5 gives 10 seconds, a TTL of
    30 gives 31. *)
Theorem grabThoseMetrics_sleep_seconds :
  ∀ (net : Internet) (g : Globals) (body : string)
    (resp : StationStatusAPIResponse) (err : option error),
    net feedURL = Fetched body →
    GetStationStatuses body = Returns (Some resp, err) →
    TTL (envelope resp) < Int64.max →
    ∃ g' seconds d,
      Poll.iteration net g = Poll.Sleeps g' seconds d
      ∧ seconds = Z.max minimumPollSleepSeconds (TTL (envelope resp) + 1)
      ∧ minimumPollSleepSeconds = 10
      ∧ (TTL (envelope resp) = 5 → seconds = 10)
      ∧ (TTL (envelope resp) = 30 → seconds = 31).
Proof.
  intros net g body resp err Hnet Hdec Hlt.
  pose proof (GetStationStatuses_TTL_in_range body resp err Hdec) as Hr.
  unfold Poll.iteration. rewrite Hnet, Hdec.
  do 3 eexists. split; [reflexivity|].
  unfold Poll.sleepLenSeconds. rewrite Max_max, (Int64_add_1 _ Hr Hlt).
  split; [reflexivity|]. split; [reflexivity|].
  split; intros ->; reflexivity.
Qed.

(** A feed with a TTL of 30. *)
Lemma grabThoseMetrics_sleep_seconds_witness :
  ∃ g' seconds d,
    Poll.iteration (λ _, Fetched body_7001) init = Poll.Sleeps g' seconds d
    ∧ seconds = Z.max minimumPollSleepSeconds (30 + 1)
    ∧ minimumPollSleepSeconds = 10
    ∧ (30 = 5 → seconds = 10)
    ∧ (30 = 30 → seconds = 31).
Proof.
  apply (grabThoseMetrics_sleep_seconds (λ _, Fetched body_7001) init body_7001
           {| Data := {| Stations :=
                          {| array := entry_station entry_7001
                                      :: replicate 3 zero_StationStatus;
                             len := 1 |} |};
              envelope := {| LastUpdated := 1600000060; TTL := 30 |} |}
           None).
  - reflexivity.
  - vm_compute; reflexivity.
  - reflexivity.
Defined.

(** The two paces of the specification, and the pace at the largest TTL,
    where the int64 sum wraps around. *)
Example sleepLenSeconds_examples :
  Poll.iteration (λ _, Fetched (q "{'ttl':5}")) init
  = Poll.Sleeps init 10 10000000000
  ∧ Poll.iteration (λ _, Fetched (q "{'ttl':30}")) init
    = Poll.Sleeps init 31 31000000000
  ∧ Poll.iteration (λ _, Fetched (q "{'ttl':-7}")) init
    = Poll.Sleeps init 10 10000000000
  ∧ Poll.iteration (λ _, Fetched (q "{'ttl':9223372036854775807}")) init
    = Poll.Sleeps init 10 10000000000.
Proof. repeat split; vm_compute; reflexivity. Qed.

(** ** What [GetStationStatuses] returns *)

(** X7.  The pointer returned is nil exactly for a body that is the literal
    [null]; no error comes with it. *)
Lemma GetStationStatuses_nil body err :
  GetStationStatuses body = Returns (None, err) ↔
  Scan.text body = Some JNull ∧ err = None.
Proof.
  unfold GetStationStatuses, Unmarshal. split.
  - destruct (Scan.text body) as [[| | | | |members]|]; try discriminate.
    + intros H. injection H as <-. auto.
    + destruct (object_response members _ _) as [[[x d] [e|]]|];
        discriminate.
  - intros [-> ->]. reflexivity.
Qed.

(** ** More on the decoding of one station *)

Lemma alias_eta a :
  {| alias_Installed := alias_Installed a; alias_Renting := alias_Renting a;
     alias_Returning := alias_Returning a; Alias := Alias a |} = a.
Proof. destruct a; reflexivity. Qed.

Lemma StationStatus_eta s :
  {| ID := ID s; BikesAvailable := BikesAvailable s;
     BikesDisabled := BikesDisabled s; DocksAvailable := DocksAvailable s;
     DocksDisabled := DocksDisabled s; Installed := Installed s;
     Renting := Renting s; Returning := Returning s;
     LastReported := LastReported s |} = s.
Proof. destruct s; reflexivity. Qed.

(** A [null] is stored nowhere. *)
Lemma store_alias_field_null f a d :
  store_alias_field f JNull a d = (a, d).
Proof.
  destruct a as [i r t s]; destruct s; destruct f; reflexivity.
Qed.

(** An acceptable value saves no error; any other value saves one. *)
Lemma store_alias_field_acceptable f v a d :
  acceptable f v = true → (store_alias_field f v a d).2 = d.
Proof.
  destruct v; try apply store_alias_field_fits.
  intros _. rewrite store_alias_field_null. reflexivity.
Qed.

Lemma store_alias_field_unacceptable f v a d :
  acceptable f v = false →
  savedError (store_alias_field f v a d).2 ≠ None.
Proof.
  intros H. unfold store_alias_field.
  destruct f; destruct v as [| |[z|l]| | |]; simpl in H; try discriminate;
    simpl; try rewrite H; simpl; apply saveError_Some.
Qed.

Lemma object_alias_accepted members : ∀ a d,
  savedError d = None →
  (savedError (object_alias members a d).2 = None ↔ accepted members).
Proof.
  induction members as [|[k v] rest IH]; intros a d Hd; simpl.
  - split; [constructor|auto].
  - unfold accepted. rewrite Forall_cons. cbn [fst snd].
    destruct (Fold.field_of alias_fields k) as [f|] eqn:E.
    + destruct (acceptable f v) eqn:Ea.
      * pose proof (store_alias_field_acceptable f v a d Ea) as Hs.
        destruct (store_alias_field f v a d) as [a' d']. simpl in Hs. subst d'.
        rewrite (IH a' d Hd). unfold accepted. tauto.
      * pose proof (store_alias_field_unacceptable f v a d Ea) as Hs.
        pose proof (object_alias_saved rest (store_alias_field f v a d).1
                      (store_alias_field f v a d).2 Hs) as Hm.
        destruct (store_alias_field f v a d) as [a' d']. simpl in Hm.
        split; [intros H; contradiction|intros [H _]; discriminate].
    + rewrite (IH a d Hd). unfold accepted. tauto.
Qed.

(** X1.  The decoding of an entry fails exactly when a member the decoder knows
    holds a value that is neither [null] nor of the type of its field (a
    string for [station_id], an integer within int64 for the others). *)
Theorem UnmarshalJSON_error_iff :
  ∀ (s s' : StationStatus) (members : list (string * json))
    (err : option error),
    UnmarshalJSON s (JObj members) = Returns (s', err) →
    (err = None ↔ accepted members).
Proof.
  intros s s' members err. unfold UnmarshalJSON, Unmarshal_alias.
  pose proof (object_alias_accepted members
                {| alias_Installed := 0; alias_Renting := 0;
                   alias_Returning := 0; Alias := s |}
                {| savedError := None |} eq_refl) as Hacc.
  destruct (object_alias members _ _) as [a' d']. simpl in Hacc.
  destruct (savedError d') as [e|]; intros H; injection H as <- <-.
  - rewrite <- Hacc. split; discriminate.
  - rewrite <- Hacc. tauto.
Qed.

Lemma UnmarshalJSON_error_iff_witness :
  @None error = None ↔ accepted entry_7001.
Proof.
  apply (UnmarshalJSON_error_iff zero_StationStatus (entry_station entry_7001)
           entry_7001 None).
  vm_compute. reflexivity.
Defined.

(** No store reaches the three bools of the receiver: the int64 fields of
    the same JSON names hide them. *)
Lemma store_alias_field_bools f v a d :
  let s := Alias a in
  let s' := Alias (store_alias_field f v a d).1 in
  Installed s' = Installed s ∧ Renting s' = Renting s
  ∧ Returning s' = Returning s.
Proof.
  unfold store_alias_field.
  destruct f;
    try (destruct (store_string _ _ _ _ _); simpl; auto; fail);
    match goal with
    | |- context [store_int64 ?S ?F ?v ?o ?d] =>
        destruct (store_int64 S F v o d); simpl; auto
    end.
Qed.

Lemma object_alias_bools members : ∀ a d,
  let s := Alias a in
  let s' := Alias (object_alias members a d).1 in
  Installed s' = Installed s ∧ Renting s' = Renting s
  ∧ Returning s' = Returning s.
Proof.
  induction members as [|[k v] rest IH]; intros a d; simpl; auto.
  destruct (Fold.field_of alias_fields k) as [f|]; [|apply IH].
  pose proof (store_alias_field_bools f v a d) as Hs. simpl in Hs.
  destruct (store_alias_field f v a d) as [a' d']. simpl in Hs.
  specialize (IH a' d'). simpl in IH.
  destruct IH as (H1 & H2 & H3), Hs as (H4 & H5 & H6).
  rewrite H1, H2, H3. auto.
Qed.

(** X2.  When [UnmarshalJSON] returns an error it has returned before the three
    assignments: [Installed], [Renting] and [Returning] of the receiver are
    what they were, whatever the entry says. *)
Theorem UnmarshalJSON_error_keeps_bools :
  ∀ (s s' : StationStatus) (data : json) (err : error),
    UnmarshalJSON s data = Returns (s', Some err) →
    Installed s' = Installed s ∧ Renting s' = Renting s
    ∧ Returning s' = Returning s.
Proof.
  intros s s' data err. unfold UnmarshalJSON, Unmarshal_alias.
  destruct data as [| | | | |members];
    try (intros H; injection H as <- _; auto; fail); try discriminate.
  pose proof (object_alias_bools members
                {| alias_Installed := 0; alias_Renting := 0;
                   alias_Returning := 0; Alias := s |}
                {| savedError := None |}) as Hb. simpl in Hb.
  destruct (object_alias members _ _) as [a' d']. simpl in Hb.
  destruct (savedError d'); [|discriminate].
  intros H. injection H as <- _. exact Hb.
Qed.

Lemma UnmarshalJSON_error_keeps_bools_witness :
  let s := {| ID := "old"; BikesAvailable := 1; BikesDisabled := 0;
              DocksAvailable := 2; DocksDisabled := 0; Installed := true;
              Renting := true; Returning := false; LastReported := 7 |} in
  let s' := {| ID := "new"; BikesAvailable := 1; BikesDisabled := 0;
               DocksAvailable := 2; DocksDisabled := 0; Installed := true;
               Renting := true; Returning := false; LastReported := 7 |} in
  Installed s' = Installed s ∧ Renting s' = Renting s
  ∧ Returning s' = Returning s.
Proof.
  intros s s'.
  apply (UnmarshalJSON_error_keeps_bools s s'
           (JObj [("station_id", JStr "new"); ("is_installed", JNum (NInt 0));
                  ("is_renting", JBool false)])
           (UnmarshalTypeError "bool" T_int64 "" "is_renting")).
  vm_compute. reflexivity.
Defined.

(** X3.  [UnmarshalJSON] panics on the literal [null], and on nothing else. *)
Theorem UnmarshalJSON_panics_iff_null :
  ∀ (s : StationStatus) (data : json),
    UnmarshalJSON s data = Panics ↔ data = JNull.
Proof.
  intros s data. unfold UnmarshalJSON, Unmarshal_alias. split.
  - destruct data as [| | | | |members]; try discriminate; [reflexivity|].
    destruct (object_alias members _ _) as [a' d'].
    destruct (savedError d'); discriminate.
  - intros ->. reflexivity.
Qed.

(** X4.  A boolean-like field that the entry lacks decodes to [false], also in a
    receiver that held [true]. *)
Theorem UnmarshalJSON_missing_flag_false :
  ∀ (f : alias_field) (s s' : StationStatus)
    (members : list (string * json)),
    boolean_like f →
    absent f members →
    UnmarshalJSON s (JObj members) = Returns (s', None) →
    flag f s' = false.
Proof.
  intros f s s' members Hf Habs. unfold UnmarshalJSON, Unmarshal_alias.
  pose proof (object_alias_absent f members
                {| alias_Installed := 0; alias_Renting := 0;
                   alias_Returning := 0; Alias := s |}
                {| savedError := None |} Habs) as Hr.
  destruct (object_alias members _ _) as [a' d']. simpl in Hr.
  destruct (savedError d'); [discriminate|].
  intros H. injection H as <-.
  destruct Hf as [->|[->| ->]]; simpl in Hr; injection Hr as Hr;
    simpl; rewrite Hr; reflexivity.
Qed.

Lemma UnmarshalJSON_missing_flag_false_witness :
  let s := {| ID := "7001"; BikesAvailable := 4; BikesDisabled := 0;
              DocksAvailable := 11; DocksDisabled := 0; Installed := true;
              Renting := true; Returning := true; LastReported := 7 |} in
  flag is_returning
    {| ID := "7001"; BikesAvailable := 5; BikesDisabled := 0;
       DocksAvailable := 11; DocksDisabled := 0; Installed := true;
       Renting := false; Returning := false; LastReported := 7 |} = false.
Proof.
  intros s.
  apply (UnmarshalJSON_missing_flag_false is_returning s _
           [("num_bikes_available", JNum (NInt 5));
            ("is_installed", JNum (NInt 1))]).
  - right; right; reflexivity.
  - repeat constructor; vm_compute; discriminate.
  - vm_compute. reflexivity.
Defined.

(** X5.  A member that is [null], or whose key matches no field, changes
    nothing: the entry decodes as it does without the member. *)
Theorem UnmarshalJSON_null_or_unknown_member :
  ∀ (s : StationStatus) (pre post : list (string * json)) (key : string)
    (v : json),
    v = JNull ∨ Fold.field_of alias_fields key = None →
    UnmarshalJSON s (JObj (pre ++ (key, v) :: post))
    = UnmarshalJSON s (JObj (pre ++ post)).
Proof.
  intros s pre post key v H. unfold UnmarshalJSON, Unmarshal_alias.
  rewrite !object_alias_app.
  destruct (object_alias pre _ _) as [a1 d1]. cbn [object_alias].
  destruct H as [->|Hnone]; [|rewrite Hnone; reflexivity].
  destruct (Fold.field_of alias_fields key) as [f|]; [|reflexivity].
  rewrite store_alias_field_null. reflexivity.
Qed.

Lemma UnmarshalJSON_null_or_unknown_member_witness :
  UnmarshalJSON zero_StationStatus
    (JObj ([("station_id", JStr "7001")]
           ++ ("num_bikes_disabled", JNull) :: [("is_renting", JNum (NInt 1))]))
  = UnmarshalJSON zero_StationStatus
      (JObj ([("station_id", JStr "7001")] ++ [("is_renting", JNum (NInt 1))]))
  ∧ UnmarshalJSON zero_StationStatus
      (JObj ([("station_id", JStr "7001")]
             ++ ("name", JStr "King St") :: [("is_renting", JNum (NInt 1))]))
    = UnmarshalJSON zero_StationStatus
        (JObj ([("station_id", JStr "7001")] ++ [("is_renting", JNum (NInt 1))])).
Proof.
  split.
  - apply (UnmarshalJSON_null_or_unknown_member zero_StationStatus
             [("station_id", JStr "7001")] [("is_renting", JNum (NInt 1))]
             "num_bikes_disabled" JNull).
    left. reflexivity.
  - apply (UnmarshalJSON_null_or_unknown_member zero_StationStatus
             [("station_id", JStr "7001")] [("is_renting", JNum (NInt 1))]
             "name" (JStr "King St")).
    right. reflexivity.
Defined.

Lemma store_alias_field_held f v h a d :
  stored f (Alias a) ≠ None →
  held_of v = Some h →
  savedError d = None →
  savedError (store_alias_field f v a d).2 = None →
  read f (store_alias_field f v a d).1 = h.
Proof.
  intros Hf Hv Hd. unfold store_alias_field.
  destruct f; try (exfalso; apply Hf; reflexivity);
    destruct v as [| |[z|l]| | |]; try discriminate; simpl in Hv;
    injection Hv as <-; simpl;
    try (destruct (Int64.in_range z); simpl); intros He;
    try reflexivity; exfalso; revert He; apply saveError_Some.
Qed.

(** X6.  In an entry decoded without error, the ID and each of the five integers
    of the station are the value of the last member decoded into the field:
    of two members for one field, the later one wins. *)
Theorem UnmarshalJSON_last_member_wins :
  ∀ (f : alias_field) (s s' : StationStatus) (key : string) (v : json)
    (h : held) (pre post : list (string * json)),
    stored f s ≠ None →
    Fold.field_of alias_fields key = Some f →
    held_of v = Some h →
    absent f post →
    UnmarshalJSON s (JObj (pre ++ (key, v) :: post)) = Returns (s', None) →
    stored f s' = Some h.
Proof.
  intros f s s' key v h pre post Hf Hkey Hv Hpost.
  unfold UnmarshalJSON, Unmarshal_alias.
  rewrite object_alias_app.
  destruct (object_alias pre _ _) as [a1 d1] eqn:E1.
  cbn [object_alias]. rewrite Hkey.
  destruct (store_alias_field f v a1 d1) as [a2 d2] eqn:E2.
  pose proof (object_alias_absent f post a2 d2 Hpost) as Hkeep.
  pose proof (object_alias_saved post a2 d2) as Hm2.
  destruct (object_alias post a2 d2) as [a' d']. simpl in Hkeep, Hm2.
  destruct (savedError d') eqn:Ed'; [discriminate|].
  intros H. injection H as <-.
  assert (H2 : savedError d2 = None).
  { destruct (savedError d2) eqn:E; auto. exfalso. apply Hm2; congruence. }
  assert (H1 : savedError d1 = None).
  { destruct (savedError d1) eqn:E; auto. exfalso.
    pose proof (store_alias_field_saved f v a1 d1) as Hm.
    rewrite E2 in Hm. simpl in Hm. apply Hm; congruence. }
  assert (Hf1 : stored f (Alias a1) ≠ None).
  { destruct f; simpl in *; congruence. }
  pose proof (store_alias_field_held f v h a1 d1 Hf1 Hv H1) as Hh.
  rewrite E2 in Hh. simpl in Hh. specialize (Hh H2).
  rewrite Hh in Hkeep.
  destruct f; simpl in Hf; try congruence; simpl in Hkeep |- *;
    rewrite Hkeep; reflexivity.
Qed.

Lemma UnmarshalJSON_last_member_wins_witness :
  stored num_bikes_available
    {| ID := "7001"; BikesAvailable := 9; BikesDisabled := 0;
       DocksAvailable := 0; DocksDisabled := 0; Installed := false;
       Renting := false; Returning := false; LastReported := 0 |}
  = Some (Int 9).
Proof.
  apply (UnmarshalJSON_last_member_wins num_bikes_available zero_StationStatus
           _ "num_bikes_available" (JNum (NInt 9)) (Int 9)
           [("num_bikes_available", JNum (NInt 4))]
           [("station_id", JStr "7001")]).
  - discriminate.
  - vm_compute. reflexivity.
  - reflexivity.
  - repeat constructor; vm_compute; discriminate.
  - vm_compute. reflexivity.
Defined.

(** ** More on the decoding of a feed *)

Lemma object_Data_app l1 l2 : ∀ x d,
  object_Data (l1 ++ l2) x d
  = match object_Data l1 x d with
    | Returns (x1, d1, None) => object_Data l2 x1 d1
    | r => r
    end.
Proof.
  induction l1 as [|[k v] rest IH]; intros x d; [reflexivity|].
  cbn [app object_Data].
  destruct (Fold.field_of Data_fields k) as [[]|]; [|apply IH].
  destruct v as [| | | |es|]; try apply IH.
  destruct (array_Stations es 0 (Stations x)) as [[sl [e|]]|];
    [reflexivity|apply IH|reflexivity].
Qed.

Lemma object_response_app l1 l2 : ∀ x d,
  object_response (l1 ++ l2) x d
  = match object_response l1 x d with
    | Returns (x1, d1, None) => object_response l2 x1 d1
    | r => r
    end.
Proof.
  induction l1 as [|[k v] rest IH]; intros x d; [reflexivity|].
  cbn [app object_response].
  destruct (Fold.field_of response_fields k) as [[| |]|].
  - destruct v as [| | | | |ms]; try apply IH.
    destruct (object_Data ms (Data x) d) as [[[dx d1] [e|]]|];
      [reflexivity|apply IH|reflexivity].
  - destruct (store_int64 _ _ v (LastUpdated (envelope x)) d) as [z d1].
    apply IH.
  - destruct (store_int64 _ _ v (TTL (envelope x)) d) as [z d1]. apply IH.
  - apply IH.
Qed.

(** Members that are not [stations] leave the struct of [Data] alone. *)
Lemma object_Data_without_stations members x d :
  without_stations members → object_Data members x d = Returns (x, d, None).
Proof.
  induction members as [|[k v] rest IH]; intros H; [reflexivity|].
  apply Forall_cons in H as [Hk Hrest]. cbn [fst] in Hk.
  cbn [object_Data].
  destruct (Fold.field_of Data_fields k) as [[]|]; [congruence|].
  apply IH, Hrest.
Qed.

Lemma store_int64_acceptable S F v old d :
  acceptable_int64 v = true → (store_int64 S F v old d).2 = d.
Proof.
  destruct v as [| |[z|l]| | |]; simpl; try discriminate; try reflexivity.
  intros ->. reflexivity.
Qed.

Lemma store_int64_unacceptable S F v old d :
  acceptable_int64 v = false →
  store_int64 S F v old d
  = (old, saveError d (UnmarshalTypeError
                         match v with
                         | JNum n => "number " +:+ number_text n
                         | _ => kind_word v
                         end T_int64 S F)).
Proof.
  destruct v as [| |[z|l]| | |]; simpl; try discriminate; try reflexivity.
  intros ->. reflexivity.
Qed.

Lemma response_eta x :
  {| Data := Data x;
     envelope := {| LastUpdated := LastUpdated (envelope x);
                    TTL := TTL (envelope x) |} |} = x.
Proof. destruct x as [dx [lu t]]; reflexivity. Qed.

(** Without a [data] member the decoding runs to the end of the object and
    leaves [Data] alone; it saves an error exactly when a [last_updated] or
    [ttl] member is not acceptable. *)
Lemma object_response_envelope members : ∀ x d,
  without_data members →
  ∃ x' d', object_response members x d = Returns (x', d', None)
           ∧ Data x' = Data x
           ∧ (savedError d ≠ None → savedError d' ≠ None)
           ∧ (savedError d = None →
              (savedError d' = None ↔ envelope_accepted members))
           ∧ (envelope_accepted members → d' = d).
Proof.
  induction members as [|[k v] rest IH]; intros x d H.
  - exists x, d. split; [reflexivity|]. split; [reflexivity|].
    split; [auto|]. split; [|auto]. intros Hd. split; [constructor|auto].
  - apply Forall_cons in H as [Hk Hrest]. cbn [fst] in Hk.
    cbn [object_response]. unfold envelope_accepted.
    setoid_rewrite Forall_cons. cbn [fst snd].
    fold (envelope_accepted rest).
    destruct (Fold.field_of response_fields k) as [[| |]|]; [congruence| | |].
    + destruct (acceptable_int64 v) eqn:Ea.
      * pose proof (store_int64_acceptable "StationStatusAPIResponse"
                      "last_updated" v (LastUpdated (envelope x)) d Ea) as Hs.
        destruct (store_int64 _ _ v (LastUpdated (envelope x)) d) as [z d1].
        simpl in Hs. subst d1.
        destruct (IH {| Data := Data x;
                        envelope := {| LastUpdated := z;
                                       TTL := TTL (envelope x) |} |} d Hrest)
          as (x' & d' & Hrun & HD & Hkeep & Hiff & Hsame).
        exists x', d'. split; [exact Hrun|]. split; [exact HD|].
        split; [exact Hkeep|]. split; [|tauto].
        intros Hd. rewrite (Hiff Hd). tauto.
      * rewrite (store_int64_unacceptable _ _ _ _ _ Ea).
        set (d1 := saveError d _).
        destruct (IH {| Data := Data x;
                        envelope := {| LastUpdated := LastUpdated (envelope x);
                                       TTL := TTL (envelope x) |} |} d1 Hrest)
          as (x' & d' & Hrun & HD & Hkeep & Hiff & Hsame).
        exists x', d'. split; [exact Hrun|]. split; [exact HD|].
        assert (H1 : savedError d' ≠ None) by (apply Hkeep, saveError_Some).
        split; [auto|]. split; [|intros [E _]; discriminate].
        intros _. split; [contradiction|intros [E _]; discriminate].
    + destruct (acceptable_int64 v) eqn:Ea.
      * pose proof (store_int64_acceptable "StationStatusAPIResponse"
                      "ttl" v (TTL (envelope x)) d Ea) as Hs.
        destruct (store_int64 _ _ v (TTL (envelope x)) d) as [z d1].
        simpl in Hs. subst d1.
        destruct (IH {| Data := Data x;
                        envelope := {| LastUpdated := LastUpdated (envelope x);
                                       TTL := z |} |} d Hrest)
          as (x' & d' & Hrun & HD & Hkeep & Hiff & Hsame).
        exists x', d'. split; [exact Hrun|]. split; [exact HD|].
        split; [exact Hkeep|]. split; [|tauto].
        intros Hd. rewrite (Hiff Hd). tauto.
      * rewrite (store_int64_unacceptable _ _ _ _ _ Ea).
        set (d1 := saveError d _).
        destruct (IH {| Data := Data x;
                        envelope := {| LastUpdated := LastUpdated (envelope x);
                                       TTL := TTL (envelope x) |} |} d1 Hrest)
          as (x' & d' & Hrun & HD & Hkeep & Hiff & Hsame).
        exists x', d'. split; [exact Hrun|]. split; [exact HD|].
        assert (H1 : savedError d' ≠ None) by (apply Hkeep, saveError_Some).
        split; [auto|]. split; [|intros [E _]; discriminate].
        intros _. split; [contradiction|intros [E _]; discriminate].
    + destruct (IH x d Hrest) as (x' & d' & Hrun & HD & Hkeep & Hiff & Hsame).
      exists x', d'. split; [exact Hrun|]. split; [exact HD|].
      split; [exact Hkeep|]. split; [|tauto].
      intros Hd. rewrite (Hiff Hd). tauto.
Qed.

Lemma store_alias_field_in_range f v a d :
  station_in_range (Alias a) →
  station_in_range (Alias (store_alias_field f v a d).1).
Proof.
  intros (H1 & H2 & H3 & H4 & H5). unfold store_alias_field.
  destruct f;
    try (destruct (store_string _ _ _ _ _); repeat split; assumption);
    match goal with
    | |- context [store_int64 ?S ?F ?v ?o ?d] =>
        let Hr := fresh "Hr" in
        pose proof (store_int64_in_range S F v o d) as Hr;
        destruct (store_int64 S F v o d); simpl in Hr;
        repeat split; simpl; auto
    end.
Qed.

Lemma object_alias_in_range members : ∀ a d,
  station_in_range (Alias a) →
  station_in_range (Alias (object_alias members a d).1).
Proof.
  induction members as [|[k v] rest IH]; intros a d H; simpl; [exact H|].
  destruct (Fold.field_of alias_fields k) as [f|]; [|apply IH, H].
  pose proof (store_alias_field_in_range f v a d H) as Hs.
  destruct (store_alias_field f v a d) as [a' d']. apply IH, Hs.
Qed.

Lemma UnmarshalJSON_in_range s s' data err :
  UnmarshalJSON s data = Returns (s', err) →
  station_in_range s → station_in_range s'.
Proof.
  unfold UnmarshalJSON, Unmarshal_alias. intros H Hs.
  destruct data as [| | | | |members];
    try (injection H as <- _; exact Hs); try discriminate.
  pose proof (object_alias_in_range members
                {| alias_Installed := 0; alias_Renting := 0;
                   alias_Returning := 0; Alias := s |}
                {| savedError := None |} Hs) as Hr.
  destruct (object_alias members _ _) as [a' d']. simpl in Hr.
  destruct (savedError d'); injection H as <- _; [exact Hr|].
  destruct Hr as (H1 & H2 & H3 & H4 & H5). repeat split; assumption.
Qed.

Lemma station_in_range_zero : station_in_range zero_StationStatus.
Proof. repeat split. Qed.

Lemma grow_in_range v :
  Forall station_in_range (array v) →
  Forall station_in_range (array (grow v)).
Proof.
  intros H. unfold grow. cbn [array]. apply Forall_app. split.
  - apply Forall_take, H.
  - apply Forall_replicate, station_in_range_zero.
Qed.

(** The decoding of the array keeps every slot of the backing array within
    int64. *)
Lemma array_Stations_in_range es : ∀ i v v' err,
  Forall station_in_range (array v) →
  array_Stations es i v = Returns (v', err) →
  Forall station_in_range (array v').
Proof.
  induction es as [|e rest IH]; intros i v v' err Hv Hrun.
  - cbn [array_Stations] in Hrun. injection Hrun as <- _.
    destruct (i =? 0)%nat; [constructor|].
    destruct (i <? len v)%nat; exact Hv.
  - cbn [array_Stations] in Hrun.
    set (v1 := if (cap v <=? i)%nat then grow v else v) in Hrun.
    assert (H1 : Forall station_in_range (array v1)).
    { unfold v1. destruct (cap v <=? i)%nat; [apply grow_in_range|]; exact Hv. }
    set (v2 := if (len v1 <=? i)%nat then SetLen v1 (i + 1) else v1) in Hrun.
    assert (H2 : Forall station_in_range (array v2)).
    { unfold v2. destruct (len v1 <=? i)%nat; exact H1. }
    destruct (array v2 !! i) as [s|] eqn:Hi; [|discriminate].
    destruct (UnmarshalJSON s e) as [[s' [e1|]]|] eqn:Hdec; try discriminate.
    + injection Hrun as <- _. cbn [array].
      apply Forall_insert; [exact H2|].
      eapply UnmarshalJSON_in_range; [exact Hdec|].
      eapply Forall_lookup_1; [exact H2|exact Hi].
    + eapply IH; [|exact Hrun]. cbn [array].
      apply Forall_insert; [exact H2|].
      eapply UnmarshalJSON_in_range; [exact Hdec|].
      eapply Forall_lookup_1; [exact H2|exact Hi].
Qed.

Lemma object_Data_in_range members : ∀ x d x' d' err,
  Forall station_in_range (array (Stations x)) →
  object_Data members x d = Returns (x', d', err) →
  Forall station_in_range (array (Stations x')).
Proof.
  induction members as [|[k v] rest IH]; intros x d x' d' err Hx Hrun.
  - cbn [object_Data] in Hrun. injection Hrun as <- _ _. exact Hx.
  - cbn [object_Data] in Hrun.
    destruct (Fold.field_of Data_fields k) as [[]|];
      [|eapply IH; [exact Hx|exact Hrun]].
    destruct v as [| | | |es|]; try (eapply IH; [exact Hx|exact Hrun]).
    + eapply IH; [|exact Hrun]. constructor.
    + destruct (array_Stations es 0 (Stations x)) as [[sl [e1|]]|] eqn:Harr;
        try discriminate.
      * injection Hrun as <- _ _. cbn [Stations].
        eapply array_Stations_in_range; [exact Hx|exact Harr].
      * eapply IH; [|exact Hrun]. cbn [Stations].
        eapply array_Stations_in_range; [exact Hx|exact Harr].
Qed.

Lemma object_response_in_range members : ∀ x d x' d' err,
  Forall station_in_range (array (Stations (Data x))) →
  Int64.in_range (LastUpdated (envelope x)) = true →
  object_response members x d = Returns (x', d', err) →
  Forall station_in_range (array (Stations (Data x')))
  ∧ Int64.in_range (LastUpdated (envelope x')) = true.
Proof.
  induction members as [|[k v] rest IH]; intros x d x' d' err Hx Hlu Hrun.
  - cbn [object_response] in Hrun. injection Hrun as <- _ _. auto.
  - cbn [object_response] in Hrun.
    destruct (Fold.field_of response_fields k) as [[| |]|].
    + destruct v as [| | | | |ms];
        try (eapply IH; [exact Hx|exact Hlu|exact Hrun]).
      destruct (object_Data ms (Data x) d) as [[[dx d1] [e1|]]|] eqn:HD;
        try discriminate.
      * injection Hrun as <- _ _. cbn [Data envelope]. split; [|exact Hlu].
        eapply object_Data_in_range; [exact Hx|exact HD].
      * eapply IH; [| |exact Hrun]; cbn [Data envelope]; [|exact Hlu].
        eapply object_Data_in_range; [exact Hx|exact HD].
    + pose proof (store_int64_in_range "StationStatusAPIResponse"
                    "last_updated" v (LastUpdated (envelope x)) d Hlu) as Hz.
      destruct (store_int64 _ _ v (LastUpdated (envelope x)) d) as [z d1].
      eapply IH; [| |exact Hrun]; cbn [Data envelope LastUpdated];
        [exact Hx|exact Hz].
    + destruct (store_int64 _ _ v (TTL (envelope x)) d) as [z d1].
      eapply IH; [| |exact Hrun]; cbn [Data envelope LastUpdated];
        [exact Hx|exact Hlu].
    + eapply IH; [exact Hx|exact Hlu|exact Hrun].
Qed.

Lemma store_int64_value S F v old d1 d2 :
  (store_int64 S F v old d1).1 = (store_int64 S F v old d2).1.
Proof.
  destruct v as [| |[z|l]| | |]; simpl; try reflexivity.
  destruct (Int64.in_range z); reflexivity.
Qed.

(** What is decoded does not depend on the errors saved so far. *)
Lemma object_Data_same_value members : ∀ x d1 d2,
  same_value (object_Data members x d1) (object_Data members x d2).
Proof.
  induction members as [|[k v] rest IH]; intros x d1 d2; [simpl; auto|].
  cbn [object_Data].
  destruct (Fold.field_of Data_fields k) as [[]|]; [|apply IH].
  destruct v as [| | | |es|]; try apply IH.
  destruct (array_Stations es 0 (Stations x)) as [[sl [e|]]|];
    [simpl; auto|apply IH|simpl; auto].
Qed.

Lemma object_response_same_value members : ∀ x d1 d2,
  same_value (object_response members x d1) (object_response members x d2).
Proof.
  induction members as [|[k v] rest IH]; intros x d1 d2; [simpl; auto|].
  cbn [object_response].
  destruct (Fold.field_of response_fields k) as [[| |]|].
  - destruct v as [| | | | |ms]; try apply IH.
    pose proof (object_Data_same_value ms (Data x) d1 d2) as HD.
    destruct (object_Data ms (Data x) d1) as [[[dx1 e1] [h1|]]|];
      destruct (object_Data ms (Data x) d2) as [[[dx2 e2] [h2|]]|];
      simpl in HD; try contradiction; try (destruct HD; discriminate).
    + destruct HD as [-> E]. injection E as ->. simpl. auto.
    + destruct HD as [-> _]. apply IH.
    + exact I.
  - pose proof (store_int64_value "StationStatusAPIResponse" "last_updated" v
                  (LastUpdated (envelope x)) d1 d2) as Hz.
    destruct (store_int64 _ _ v (LastUpdated (envelope x)) d1) as [z1 e1].
    destruct (store_int64 _ _ v (LastUpdated (envelope x)) d2) as [z2 e2].
    simpl in Hz. subst z2. apply IH.
  - pose proof (store_int64_value "StationStatusAPIResponse" "ttl" v
                  (TTL (envelope x)) d1 d2) as Hz.
    destruct (store_int64 _ _ v (TTL (envelope x)) d1) as [z1 e1].
    destruct (store_int64 _ _ v (TTL (envelope x)) d2) as [z2 e2].
    simpl in Hz. subst z2. apply IH.
  - apply IH.
Qed.

(** An error once saved stays saved to the end of the object. *)
Lemma object_Data_saved members : ∀ x d x' d' e,
  savedError d ≠ None →
  object_Data members x d = Returns (x', d', e) →
  savedError d' ≠ None.
Proof.
  induction members as [|[k v] rest IH]; intros x d x' d' e Hd Hrun.
  - cbn [object_Data] in Hrun. injection Hrun as _ <- _. exact Hd.
  - cbn [object_Data] in Hrun.
    destruct (Fold.field_of Data_fields k) as [[]|];
      [|eapply IH; [exact Hd|exact Hrun]].
    destruct v as [| | | |es|];
      try (eapply IH; [|exact Hrun]; first [exact Hd | apply saveError_Some]).
    destruct (array_Stations es 0 (Stations x)) as [[sl [e1|]]|];
      try discriminate.
    + injection Hrun as _ <- _. exact Hd.
    + eapply IH; [exact Hd|exact Hrun].
Qed.

Lemma object_response_saved members : ∀ x d x' d' e,
  savedError d ≠ None →
  object_response members x d = Returns (x', d', e) →
  savedError d' ≠ None.
Proof.
  induction members as [|[k v] rest IH]; intros x d x' d' e Hd Hrun.
  - cbn [object_response] in Hrun. injection Hrun as _ <- _. exact Hd.
  - cbn [object_response] in Hrun.
    destruct (Fold.field_of response_fields k) as [[| |]|].
    + destruct v as [| | | | |ms];
        try (eapply IH; [|exact Hrun];
             first [exact Hd | apply saveError_Some]).
      destruct (object_Data ms (Data x) d) as [[[dx d1] [e1|]]|] eqn:HD;
        try discriminate.
      * injection Hrun as _ <- _. eapply object_Data_saved; [exact Hd|exact HD].
      * eapply IH; [|exact Hrun].
        eapply object_Data_saved; [exact Hd|exact HD].
    + pose proof (store_int64_saved "StationStatusAPIResponse" "last_updated"
                    v (LastUpdated (envelope x)) d Hd) as Hs.
      destruct (store_int64 _ _ v (LastUpdated (envelope x)) d) as [z d1].
      eapply IH; [exact Hs|exact Hrun].
    + pose proof (store_int64_saved "StationStatusAPIResponse" "ttl"
                    v (TTL (envelope x)) d Hd) as Hs.
      destruct (store_int64 _ _ v (TTL (envelope x)) d) as [z d1].
      eapply IH; [exact Hs|exact Hrun].
    + eapply IH; [exact Hd|exact Hrun].
Qed.

(** An envelope member whose integer does not fit int64 changes nothing but
    the saved error. *)
Lemma object_response_out_of_range k z rest x d :
  Fold.field_of response_fields k = Some ttl
  ∨ Fold.field_of response_fields k = Some last_updated →
  Int64.in_range z = false →
  ∃ d1, object_response ((k, JNum (NInt z)) :: rest) x d
        = object_response rest x d1
        ∧ savedError d1 ≠ None.
Proof.
  intros Hk Hz. cbn [object_response].
  destruct Hk as [-> | ->]; cbn [store_int64]; rewrite Hz;
    rewrite response_eta; eexists; (split; [reflexivity|apply saveError_Some]).
Qed.

Lemma store_string_value S F v old d1 d2 :
  (store_string S F v old d1).1 = (store_string S F v old d2).1.
Proof. destruct v; reflexivity. Qed.

Lemma store_alias_field_value f v a d1 d2 :
  (store_alias_field f v a d1).1 = (store_alias_field f v a d2).1.
Proof.
  unfold store_alias_field.
  destruct f;
    try (pose proof (store_string_value "" (alias_field_name station_id) v
                       (ID (Alias a)) d1 d2) as Hv;
         do 2 destruct (store_string _ _ _ _ _); simpl in Hv; subst;
         reflexivity);
    match goal with
    | |- context [store_int64 ?S ?F ?v ?o d1] =>
        pose proof (store_int64_value S F v o d1 d2) as Hv;
        destruct (store_int64 S F v o d1); destruct (store_int64 S F v o d2);
        simpl in Hv; subst; reflexivity
    end.
Qed.

(** What an entry is decoded to does not depend on the errors saved so
    far. *)
Lemma object_alias_value members : ∀ a d1 d2,
  (object_alias members a d1).1 = (object_alias members a d2).1.
Proof.
  induction members as [|[k v] rest IH]; intros a d1 d2; [reflexivity|].
  cbn [object_alias].
  destruct (Fold.field_of alias_fields k) as [f|]; [|apply IH].
  pose proof (store_alias_field_value f v a d1 d2) as Hv.
  destruct (store_alias_field f v a d1) as [a1 e1].
  destruct (store_alias_field f v a d2) as [a2 e2].
  simpl in Hv. subst a2. apply IH.
Qed.

(** A number that does not fit int64 is stored in no field. *)
Lemma store_alias_field_out_of_range f z a d :
  Int64.in_range z = false →
  (store_alias_field f (JNum (NInt z)) a d).1 = a
  ∧ savedError (store_alias_field f (JNum (NInt z)) a d).2 ≠ None.
Proof.
  intros Hz. split.
  - unfold store_alias_field.
    destruct f; simpl; rewrite ?Hz; simpl;
      destruct a as [i r t s]; destruct s; reflexivity.
  - apply store_alias_field_unacceptable.
    destruct f; simpl; try exact Hz; reflexivity.
Qed.

(** A member of an entry whose integer does not fit int64 is reported and
    not stored: the ID and the five integers are those of the entry without
    the member. *)
Lemma UnmarshalJSON_out_of_range s s' pre post k z f err :
  Fold.field_of alias_fields k = Some f →
  Int64.in_range z = false →
  UnmarshalJSON s (JObj (pre ++ (k, JNum (NInt z)) :: post))
  = Returns (s', err) →
  err ≠ None
  ∧ ∃ s'' err',
      UnmarshalJSON s (JObj (pre ++ post)) = Returns (s'', err')
      ∧ ∀ g, stored g s' = stored g s''.
Proof.
  intros Hk Hz. unfold UnmarshalJSON, Unmarshal_alias.
  rewrite !object_alias_app.
  destruct (object_alias pre _ _) as [a1 d1].
  cbn [object_alias]. rewrite Hk.
  destruct (store_alias_field_out_of_range f z a1 d1 Hz) as [Ha Hd].
  destruct (store_alias_field f (JNum (NInt z)) a1 d1) as [a2 d2].
  cbn [fst snd] in Ha, Hd. subst a2.
  pose proof (object_alias_saved post a1 d2 Hd) as Hsaved.
  pose proof (object_alias_value post a1 d2 d1) as Hv.
  destruct (object_alias post a1 d2) as [a3 d3].
  destruct (object_alias post a1 d1) as [a3' d3'].
  cbn [fst snd] in Hsaved, Hv. subst a3'.
  destruct (savedError d3) as [e|]; [|contradiction].
  intros H. injection H as <- <-. split; [discriminate|].
  destruct (savedError d3') as [e'|]; do 2 eexists;
    (split; [reflexivity|]); intros g; destruct g; reflexivity.
Qed.

(** X8.  Every integer [GetStationStatuses] hands back fits int64, error or
    not: the TTL, the time of the last update, and the five integers of
    every station.  An integer that does not fit is reported as an error and
    is not stored, wrapped or otherwise.  For [ttl] and [last_updated] the
    response is the one the payload without that member decodes to; for a
    member of a station entry, [UnmarshalJSON] leaves the ID and the five
    integers of the entry without the member. *)
Theorem GetStationStatuses_integers_in_range :
  (∀ (body : string) (resp : StationStatusAPIResponse) (err : option error),
     GetStationStatuses body = Returns (Some resp, err) →
     (Int64.in_range (TTL (envelope resp)) = true
      ∧ Int64.in_range (LastUpdated (envelope resp)) = true
      ∧ Forall station_in_range (elems (Stations (Data resp))))
     ∧ ∀ (pre post : list (string * json)) (k : string) (z : Z)
         (body' : string),
         Scan.text body = Some (JObj (pre ++ (k, JNum (NInt z)) :: post)) →
         Scan.text body' = Some (JObj (pre ++ post)) →
         Fold.field_of response_fields k = Some ttl
         ∨ Fold.field_of response_fields k = Some last_updated →
         Int64.in_range z = false →
         err ≠ None
         ∧ ∃ err', GetStationStatuses body' = Returns (Some resp, err'))
  ∧ (∀ (s s' : StationStatus) (pre post : list (string * json)) (k : string)
       (z : Z) (f : alias_field) (err : option error),
       Fold.field_of alias_fields k = Some f →
       Int64.in_range z = false →
       UnmarshalJSON s (JObj (pre ++ (k, JNum (NInt z)) :: post))
       = Returns (s', err) →
       err ≠ None
       ∧ ∃ s'' err',
           UnmarshalJSON s (JObj (pre ++ post)) = Returns (s'', err')
           ∧ ∀ g, stored g s' = stored g s'').
Proof.
  split; [|intros s s' pre post k z f err;
           apply UnmarshalJSON_out_of_range].
  intros body resp err Hdec. split.
  - split; [eapply GetStationStatuses_TTL_in_range; exact Hdec|].
    revert Hdec. unfold GetStationStatuses, Unmarshal.
    destruct (Scan.text body) as [[| | | | |members]|];
      try (intros H; injection H as <- _; split; [reflexivity|constructor]);
      try discriminate.
    destruct (object_response members _ _) as [[[x d] e]|] eqn:Hrun;
      [|discriminate].
    intros H.
    assert (x = resp) by (destruct e; injection H as <- _; reflexivity).
    subst x.
    destruct (object_response_in_range members zero_StationStatusAPIResponse
                _ _ _ _ (List.Forall_nil _) eq_refl Hrun) as [Hs Hlu].
    split; [exact Hlu|]. unfold elems. apply Forall_take, Hs.
  - intros pre post k z body' Hscan Hscan' Hk Hz.
    revert Hdec. unfold GetStationStatuses, Unmarshal.
    rewrite Hscan, Hscan', !object_response_app.
    destruct (object_response pre zero_StationStatusAPIResponse
                {| savedError := None |}) as [[[x1 d1] [e1|]]|];
      [| |discriminate].
    + intros H. injection H as <- <-. split; [discriminate|].
      eexists. reflexivity.
    + destruct (object_response_out_of_range k z post x1 d1 Hk Hz)
        as (d2 & -> & Hd2).
      pose proof (object_response_same_value post x1 d2 d1) as Hsame.
      pose proof (object_response_saved post x1 d2) as Hsaved.
      destruct (object_response post x1 d2) as [[[x2 d3] [e2|]]|];
        destruct (object_response post x1 d1) as [[[x2' d3'] [e2'|]]|];
        simpl in Hsame; try contradiction; try (destruct Hsame; discriminate);
        try discriminate.
      * destruct Hsame as [<- E]. injection E as <-.
        intros H. injection H as <- <-. split; [discriminate|].
        eexists. reflexivity.
      * destruct Hsame as [<- _].
        intros H. injection H as <- <-.
        split; [eapply Hsaved; [exact Hd2|reflexivity]|].
        eexists. reflexivity.
Qed.

(** A feed whose [ttl] is one above the largest int64, and an entry whose
    [num_bikes_available] is. *)
Lemma GetStationStatuses_integers_in_range_witness :
  (∃ resp err,
     GetStationStatuses body_ttl_too_large = Returns (Some resp, err)
     ∧ TTL (envelope resp) = 0
     ∧ err ≠ None
     ∧ ∃ err', GetStationStatuses body_ttl_too_large_without_ttl
               = Returns (Some resp, err'))
  ∧ ∃ s' err,
      UnmarshalJSON zero_StationStatus
        (JObj ([("station_id", JStr "a")]
               ++ ("num_bikes_available", JNum (NInt 9223372036854775808))
                  :: [("num_docks_available", JNum (NInt 7))]))
      = Returns (s', err)
      ∧ err ≠ None
      ∧ stored num_bikes_available s' = Some (Int 0)
      ∧ stored num_docks_available s' = Some (Int 7).
Proof.
  split.
  - assert (Hdec : ∃ resp err,
              GetStationStatuses body_ttl_too_large = Returns (Some resp, err)
              ∧ TTL (envelope resp) = 0).
    { do 2 eexists. split; vm_compute; reflexivity. }
    destruct Hdec as (resp & err & Hdec & Httl).
    exists resp, err. split; [exact Hdec|]. split; [exact Httl|].
    apply (proj2 (proj1 GetStationStatuses_integers_in_range
                    body_ttl_too_large resp err Hdec)
             [] [("data", JObj [("stations",
                                 JArr [JObj [("last_reported",
                                              JNum (NInt (-1)))]])])]
             "ttl" 9223372036854775808 body_ttl_too_large_without_ttl).
    + vm_compute. reflexivity.
    + vm_compute. reflexivity.
    + left. reflexivity.
    + reflexivity.
  - assert (Hdec : ∃ s' err,
              UnmarshalJSON zero_StationStatus
                (JObj ([("station_id", JStr "a")]
                       ++ ("num_bikes_available",
                           JNum (NInt 9223372036854775808))
                          :: [("num_docks_available", JNum (NInt 7))]))
              = Returns (s', err)).
    { do 2 eexists. vm_compute. reflexivity. }
    destruct Hdec as (s' & err & Hdec).
    exists s', err. split; [exact Hdec|].
    destruct (proj2 GetStationStatuses_integers_in_range
                zero_StationStatus s' [("station_id", JStr "a")]
                [("num_docks_available", JNum (NInt 7))]
                "num_bikes_available" 9223372036854775808
                num_bikes_available err eq_refl eq_refl Hdec)
      as (Herr & s'' & err' & Hdec' & Hsame).
    split; [exact Herr|].
    vm_compute in Hdec'. injection Hdec' as <- _.
    split; [exact (Hsame num_bikes_available)
           |exact (Hsame num_docks_available)].
Defined.

Lemma UnmarshalJSON_panics s data :
  UnmarshalJSON s data = Panics → data = JNull.
Proof.
  unfold UnmarshalJSON, Unmarshal_alias.
  destruct data as [| | | | |members]; try discriminate; [reflexivity|].
  destruct (object_alias members _ _) as [a' d'].
  destruct (savedError d'); discriminate.
Qed.

Lemma grow_ok v :
  slice_ok v → slice_ok (grow v) ∧ (cap v < cap (grow v))%nat.
Proof.
  unfold slice_ok, grow, cap. cbn [array len]. intros H.
  rewrite length_app, length_take, length_replicate.
  set (n := length (array v)) in *.
  assert (Hdiv : (n / 2 <= n ∧ (2 <= n → 1 <= n / 2))%nat).
  { split.
    - apply Nat.Div0.div_le_upper_bound. lia.
    - intros. apply Nat.div_le_lower_bound; lia. }
  destruct Hdiv as [Hup Hlow].
  destruct (Nat.ltb_spec (n + n / 2) 4); lia.
Qed.

(** The slot of the next element is always there, and the slice stays
    within its capacity. *)
Lemma array_Stations_slot i v :
  slice_ok v → (i ≤ len v)%nat →
  let v1 := if (cap v <=? i)%nat then grow v else v in
  let v2 := if (len v1 <=? i)%nat then SetLen v1 (i + 1) else v1 in
  slice_ok v2 ∧ (i < len v2)%nat ∧ is_Some (array v2 !! i).
Proof.
  intros Hok Hi v1 v2.
  assert (H1 : slice_ok v1 ∧ (i < cap v1)%nat ∧ len v1 = len v).
  { unfold v1. destruct (Nat.leb_spec (cap v) i).
    - destruct (grow_ok v Hok) as [Hg Hc]. unfold slice_ok in Hok.
      split; [exact Hg|]. split; [lia|reflexivity].
    - split; [exact Hok|]. split; [lia|reflexivity]. }
  destruct H1 as (Hok1 & Hc1 & Hl1).
  assert (H2 : slice_ok v2 ∧ (i < len v2)%nat ∧ cap v2 = cap v1).
  { unfold v2. destruct (Nat.leb_spec (len v1) i).
    - unfold slice_ok, SetLen, cap. cbn [array len].
      unfold cap in Hc1. split; [lia|]. split; [lia|reflexivity].
    - split; [exact Hok1|]. split; [lia|reflexivity]. }
  destruct H2 as (Hok2 & Hl2 & Hc2).
  split; [exact Hok2|]. split; [exact Hl2|].
  apply lookup_lt_is_Some. unfold cap in *. lia.
Qed.

Lemma array_Stations_ok es : ∀ i v v' err,
  slice_ok v → (i ≤ len v)%nat →
  array_Stations es i v = Returns (v', err) →
  slice_ok v'.
Proof.
  induction es as [|e rest IH]; intros i v v' err Hok Hi Hrun.
  - cbn [array_Stations] in Hrun. injection Hrun as <- _.
    destruct (i =? 0)%nat; [unfold slice_ok, cap; simpl; lia|].
    destruct (Nat.ltb_spec i (len v)); [|exact Hok].
    unfold slice_ok, SetLen, cap in *. cbn [array len]. lia.
  - cbn [array_Stations] in Hrun.
    destruct (array_Stations_slot i v Hok Hi) as (Hok2 & Hl2 & [s Hs]).
    cbv zeta in Hok2, Hl2, Hs. rewrite Hs in Hrun.
    destruct (UnmarshalJSON s e) as [[s' [e1|]]|]; try discriminate.
    + injection Hrun as <- _.
      unfold slice_ok, cap in *. cbn [array len]. rewrite length_insert.
      exact Hok2.
    + eapply IH; [| |exact Hrun].
      * unfold slice_ok, cap in *. cbn [array len]. rewrite length_insert.
        exact Hok2.
      * cbn [len]. lia.
Qed.

Lemma array_Stations_panics es : ∀ i v,
  slice_ok v → (i ≤ len v)%nat →
  array_Stations es i v = Panics → JNull ∈ es.
Proof.
  induction es as [|e rest IH]; intros i v Hok Hi Hrun.
  - discriminate.
  - cbn [array_Stations] in Hrun.
    destruct (array_Stations_slot i v Hok Hi) as (Hok2 & Hl2 & [s Hs]).
    cbv zeta in Hok2, Hl2, Hs. rewrite Hs in Hrun.
    destruct (UnmarshalJSON s e) as [[s' [e1|]]|] eqn:Hdec; try discriminate.
    + right. eapply IH; [| |exact Hrun].
      * unfold slice_ok, cap in *. cbn [array len]. rewrite length_insert.
        exact Hok2.
      * cbn [len]. lia.
    + apply UnmarshalJSON_panics in Hdec. subst e. left.
Qed.

Lemma object_Data_ok members : ∀ x d x' d' err,
  slice_ok (Stations x) →
  object_Data members x d = Returns (x', d', err) →
  slice_ok (Stations x').
Proof.
  induction members as [|[k v] rest IH]; intros x d x' d' err Hx Hrun.
  - cbn [object_Data] in Hrun. injection Hrun as <- _ _. exact Hx.
  - cbn [object_Data] in Hrun.
    destruct (Fold.field_of Data_fields k) as [[]|];
      [|eapply IH; [exact Hx|exact Hrun]].
    destruct v as [| | | |es|]; try (eapply IH; [exact Hx|exact Hrun]).
    + eapply IH; [|exact Hrun]. unfold slice_ok, cap. simpl. lia.
    + destruct (array_Stations es 0 (Stations x)) as [[sl [e1|]]|] eqn:Harr;
        try discriminate.
      * injection Hrun as <- _ _. cbn [Stations].
        eapply array_Stations_ok; [exact Hx| |exact Harr]. lia.
      * eapply IH; [|exact Hrun]. cbn [Stations].
        eapply array_Stations_ok; [exact Hx| |exact Harr]. lia.
Qed.

Lemma object_Data_panics members : ∀ x d,
  slice_ok (Stations x) →
  object_Data members x d = Panics →
  ∃ k es, (k, JArr es) ∈ members
          ∧ Fold.field_of Data_fields k = Some stations ∧ JNull ∈ es.
Proof.
  induction members as [|[k v] rest IH]; intros x d Hx Hrun.
  - discriminate.
  - cbn [object_Data] in Hrun.
    assert (Hrec : ∀ x1 d1, slice_ok (Stations x1) →
                   object_Data rest x1 d1 = Panics →
                   ∃ k0 es, (k0, JArr es) ∈ (k, v) :: rest
                     ∧ Fold.field_of Data_fields k0 = Some stations
                     ∧ JNull ∈ es).
    { intros x1 d1 H1 Hp. destruct (IH x1 d1 H1 Hp) as (k0 & es & Hin & Hr).
      exists k0, es. split; [right; exact Hin|exact Hr]. }
    destruct (Fold.field_of Data_fields k) as [[]|] eqn:Hk;
      [|eapply Hrec; [exact Hx|exact Hrun]].
    destruct v as [| | | |es|]; try (eapply Hrec; [exact Hx|exact Hrun]).
    + eapply Hrec; [|exact Hrun]. unfold slice_ok, cap. simpl. lia.
    + destruct (array_Stations es 0 (Stations x)) as [[sl [e1|]]|] eqn:Harr;
        try discriminate.
      * eapply Hrec; [|exact Hrun]. cbn [Stations].
        eapply array_Stations_ok; [exact Hx| |exact Harr]. lia.
      * exists k, es. split; [left|]. split; [exact Hk|].
        eapply array_Stations_panics; [exact Hx| |exact Harr]. lia.
Qed.

Lemma object_response_panics members : ∀ x d,
  slice_ok (Stations (Data x)) →
  object_response members x d = Panics →
  has_null_entry (JObj members).
Proof.
  assert (Hcons : ∀ m rest, has_null_entry (JObj rest) →
                              has_null_entry (JObj (m :: rest))).
  { intros m rest (ms0 & k & ms & k' & es & Heq & Hin & Hr).
    injection Heq as <-.
    exists (m :: rest), k, ms, k', es. split; [reflexivity|].
    split; [right; exact Hin|exact Hr]. }
  induction members as [|[k v] rest IH]; intros x d Hx Hrun.
  - discriminate.
  - cbn [object_response] in Hrun.
    destruct (Fold.field_of response_fields k) as [[| |]|] eqn:Hk.
    + destruct v as [| | | | |ms];
        try (apply Hcons; eapply IH; [exact Hx|exact Hrun]).
      destruct (object_Data ms (Data x) d) as [[[dx d1] [e1|]]|] eqn:HD;
        try discriminate.
      * apply Hcons. eapply IH; [|exact Hrun]. cbn [Data].
        eapply object_Data_ok; [exact Hx|exact HD].
      * destruct (object_Data_panics ms (Data x) d Hx HD)
          as (k' & es & Hin & Hk' & Hnull).
        exists ((k, JObj ms) :: rest), k, ms, k', es.
        split; [reflexivity|]. split; [left|]. auto.
    + destruct (store_int64 _ _ v (LastUpdated (envelope x)) d) as [z d1].
      apply Hcons. refine (IH _ _ _ Hrun). exact Hx.
    + destruct (store_int64 _ _ v (TTL (envelope x)) d) as [z d1].
      apply Hcons. refine (IH _ _ _ Hrun). exact Hx.
    + apply Hcons. eapply IH; [exact Hx|exact Hrun].
Qed.

(** X9.  [GetStationStatuses] panics only on a body that has an entry [null]
    among the stations of its [data] member: no other body, well formed or
    not, makes it panic. *)
Theorem GetStationStatuses_panics_only_on_null_entry :
  ∀ (body : string),
    GetStationStatuses body = Panics →
    ∃ j, Scan.text body = Some j ∧ has_null_entry j.
Proof.
  intros body. unfold GetStationStatuses, Unmarshal.
  destruct (Scan.text body) as [[| | | | |members]|]; try discriminate.
  destruct (object_response members _ _) as [[[x d] [e|]]|] eqn:Hrun;
    try discriminate.
  intros _. eexists. split; [reflexivity|].
  eapply object_response_panics; [|exact Hrun].
  unfold slice_ok, cap. simpl. lia.
Qed.

Lemma GetStationStatuses_panics_only_on_null_entry_witness :
  ∃ j, Scan.text (q "{'data':{'stations':[{'station_id':'a'},null]}}") = Some j
       ∧ has_null_entry j.
Proof.
  apply (GetStationStatuses_panics_only_on_null_entry
           (q "{'data':{'stations':[{'station_id':'a'},null]}}")).
  vm_compute. reflexivity.
Defined.

(** X10.  A JSON object without a [data] member is no error in itself: it
    decodes to a response without stations, [GetStationStatuses] neither
    panics nor returns nil, and the error it returns is nil exactly when
    every [last_updated] and [ttl] member is acceptable to its field. *)
Theorem GetStationStatuses_without_data :
  ∀ (body : string) (members : list (string * json)),
    Scan.text body = Some (JObj members) →
    without_data members →
    ∃ resp err,
      GetStationStatuses body = Returns (Some resp, err)
      ∧ elems (Stations (Data resp)) = []
      ∧ (err = None ↔ envelope_accepted members).
Proof.
  intros body members Hscan H. unfold GetStationStatuses, Unmarshal.
  rewrite Hscan.
  destruct (object_response_envelope members
              zero_StationStatusAPIResponse {| savedError := None |} H)
    as (x' & d' & -> & HD & _ & Hiff & _).
  exists x', (savedError d'). split; [reflexivity|].
  split; [rewrite HD; reflexivity|]. apply Hiff. reflexivity.
Qed.

Lemma GetStationStatuses_without_data_witness :
  ∃ resp err,
    GetStationStatuses (q "{'last_updated':1600000060,'ttl':30}")
    = Returns (Some resp, err)
    ∧ elems (Stations (Data resp)) = []
    ∧ (err = None
       ↔ envelope_accepted [("last_updated", JNum (NInt 1600000060));
                            ("ttl", JNum (NInt 30))]).
Proof.
  apply (GetStationStatuses_without_data
           (q "{'last_updated':1600000060,'ttl':30}")
           [("last_updated", JNum (NInt 1600000060)); ("ttl", JNum (NInt 30))]).
  - vm_compute. reflexivity.
  - repeat constructor; vm_compute; discriminate.
Defined.

(** What an entry decodes to in a fresh slot, and whether with an error. *)
Lemma UnmarshalJSON_accepted members :
  accepted members →
  UnmarshalJSON zero_StationStatus (JObj members)
  = Returns (entry_station members, None).
Proof.
  intros H. unfold entry_station.
  destruct (UnmarshalJSON zero_StationStatus (JObj members))
    as [[s' err]|] eqn:E.
  - destruct err as [e|]; [|reflexivity]. exfalso.
    unfold UnmarshalJSON, Unmarshal_alias in E.
    pose proof (object_alias_accepted members
                  {| alias_Installed := 0; alias_Renting := 0;
                     alias_Returning := 0; Alias := zero_StationStatus |}
                  {| savedError := None |} eq_refl) as Hacc.
    destruct (object_alias members _ _) as [a' d']. simpl in Hacc.
    apply Hacc in H. rewrite H in E. discriminate.
  - apply UnmarshalJSON_panics in E. discriminate.
Qed.

Lemma UnmarshalJSON_not_accepted members :
  ¬ accepted members →
  ∃ err, UnmarshalJSON zero_StationStatus (JObj members)
         = Returns (entry_station members, Some err).
Proof.
  intros H. unfold entry_station.
  destruct (UnmarshalJSON zero_StationStatus (JObj members))
    as [[s' err]|] eqn:E.
  - destruct err as [e|]; [exists e; reflexivity|]. exfalso. apply H.
    unfold UnmarshalJSON, Unmarshal_alias in E.
    pose proof (object_alias_accepted members
                  {| alias_Installed := 0; alias_Renting := 0;
                     alias_Returning := 0; Alias := zero_StationStatus |}
                  {| savedError := None |} eq_refl) as Hacc.
    destruct (object_alias members _ _) as [a' d']. simpl in Hacc.
    apply Hacc. destruct (savedError d'); [discriminate|reflexivity].
  - apply UnmarshalJSON_panics in E. discriminate.
Qed.

(** The slot the next element is decoded into, in a slice whose spare
    capacity is zeroed. *)
Lemma fresh_slot done k v :
  array v = done ++ replicate k zero_StationStatus →
  len v = length done →
  let i := length done in
  let v1 := if (cap v <=? i)%nat then grow v else v in
  let v2 := if (len v1 <=? i)%nat then SetLen v1 (i + 1) else v1 in
  ∃ k', array v2 = done ++ replicate (S k') zero_StationStatus
        ∧ len v2 = (length done + 1)%nat.
Proof.
  intros Harr Hlen i v1 v2.
  assert (H1 : ∃ k', array v1 = done ++ replicate (S k') zero_StationStatus
                    ∧ len v1 = length done).
  { unfold v1, i, cap. rewrite Harr, length_app, length_replicate.
    destruct (Nat.leb_spec (length done + k) (length done)) as [Hle|Hgt].
    - assert (k = 0%nat) by lia. subst k.
      apply grow_spare; [|exact Hlen].
      rewrite Harr. cbn [replicate]. apply app_nil_r.
    - destruct k as [|k']; [lia|]. exists k'. split; assumption. }
  destruct H1 as (k' & Harr1 & Hlen1). exists k'.
  unfold v2, i. rewrite Hlen1, Nat.leb_refl. cbn [array SetLen len].
  split; [exact Harr1|reflexivity].
Qed.

Lemma array_Stations_stops good bad rest : ∀ done k v,
  Forall accepted good →
  ¬ accepted bad →
  array v = done ++ replicate k zero_StationStatus →
  len v = length done →
  ∃ v' err,
    array_Stations (map JObj (good ++ bad :: rest)) (length done) v
    = Returns (v', Some err)
    ∧ elems v' = done ++ map entry_station good ++ [entry_station bad].
Proof.
  induction good as [|ms good IH]; intros done k v Hgood Hbad Harr Hlen.
  - cbn [app map array_Stations].
    destruct (fresh_slot done k v Harr Hlen) as (k' & Harr2 & Hlen2).
    cbv zeta in Harr2, Hlen2.
    set (v2 := if (len _ <=? _)%nat then _ else _) in *.
    assert (Hi : array v2 !! length done = Some zero_StationStatus).
    { rewrite Harr2, lookup_app_r by lia. rewrite Nat.sub_diag. reflexivity. }
    rewrite Hi.
    destruct (UnmarshalJSON_not_accepted bad Hbad) as [err ->].
    do 2 eexists. split; [reflexivity|].
    unfold elems. cbn [array len]. rewrite Hlen2, Harr2.
    rewrite insert_app_r_alt by lia. rewrite Nat.sub_diag.
    rewrite take_app_add. reflexivity.
  - apply Forall_cons in Hgood as [Hms Hgood].
    cbn [app map array_Stations].
    destruct (fresh_slot done k v Harr Hlen) as (k' & Harr2 & Hlen2).
    cbv zeta in Harr2, Hlen2.
    set (v2 := if (len _ <=? _)%nat then _ else _) in *.
    assert (Hi : array v2 !! length done = Some zero_StationStatus).
    { rewrite Harr2, lookup_app_r by lia. rewrite Nat.sub_diag. reflexivity. }
    rewrite Hi, (UnmarshalJSON_accepted ms Hms).
    specialize (IH (done ++ [entry_station ms]) k'
                  {| array := <[length done := entry_station ms]> (array v2);
                     len := len v2 |} Hgood Hbad).
    rewrite length_app in IH. simpl length in IH.
    destruct IH as (v' & err & Hrun & Hel).
    + cbn [array]. rewrite Harr2.
      rewrite insert_app_r_alt by lia. rewrite Nat.sub_diag. simpl.
      rewrite <- app_assoc. reflexivity.
    + cbn [len]. exact Hlen2.
    + exists v', err. split; [exact Hrun|].
      rewrite Hel. rewrite <- app_assoc. reflexivity.
Qed.

(** X11.  The decoding of a feed stops at the first entry that does not decode.
    The stations before it are kept, the entry itself is counted with what
    was decoded of it, the entries after it are dropped, and the envelope
    members that follow [data] are not read: [ttl] and [last_updated] stay
    0. *)
Theorem GetStationStatuses_stops_at_first_bad_entry :
  ∀ (body : string) (good rest : list (list (string * json)))
    (bad : list (string * json)) (lu t : Z),
    Scan.text body = Some (feed (good ++ bad :: rest) lu t) →
    Forall accepted good →
    ¬ accepted bad →
    ∃ resp err,
      GetStationStatuses body = Returns (Some resp, Some err)
      ∧ elems (Stations (Data resp))
        = map entry_station good ++ [entry_station bad]
      ∧ envelope resp = {| LastUpdated := 0; TTL := 0 |}.
Proof.
  intros body good rest bad lu t Hscan Hgood Hbad.
  unfold GetStationStatuses, Unmarshal. rewrite Hscan. unfold feed.
  destruct (array_Stations_stops good bad rest [] 0 nil_slice Hgood Hbad
              eq_refl eq_refl) as (v' & err & Hrun & Hel).
  cbn [length] in Hrun.
  cbn -[array_Stations]. rewrite Hrun. cbn.
  do 2 eexists. split; [reflexivity|]. split; [exact Hel|reflexivity].
Qed.

Lemma GetStationStatuses_stops_at_first_bad_entry_witness :
  ∃ resp err,
    GetStationStatuses
      (q ("{'data':{'stations':[{'station_id':'a','num_bikes_available':3},"
          +:+ "{'station_id':'b','num_bikes_available':'x'},"
          +:+ "{'station_id':'c'}]},'last_updated':1600000060,'ttl':30}"))
    = Returns (Some resp, Some err)
    ∧ elems (Stations (Data resp))
      = map entry_station
          [[("station_id", JStr "a"); ("num_bikes_available", JNum (NInt 3))]]
        ++ [entry_station [("station_id", JStr "b");
                           ("num_bikes_available", JStr "x")]]
    ∧ envelope resp = {| LastUpdated := 0; TTL := 0 |}.
Proof.
  apply (GetStationStatuses_stops_at_first_bad_entry _
           [[("station_id", JStr "a"); ("num_bikes_available", JNum (NInt 3))]]
           [[("station_id", JStr "c")]]
           [("station_id", JStr "b"); ("num_bikes_available", JStr "x")]
           1600000060 30).
  - vm_compute. reflexivity.
  - repeat constructor; vm_compute; first [reflexivity | exact I].
  - intros H. apply Forall_cons in H as [_ H]. apply Forall_cons in H as [H _].
    vm_compute in H. discriminate.
Defined.

(** A field of the receiver that no member is decoded into is what it was,
    whether the entry decodes or not. *)
Lemma UnmarshalJSON_absent f s s' members err :
  UnmarshalJSON s (JObj members) = Returns (s', err) →
  absent f members →
  stored f s' = stored f s.
Proof.
  unfold UnmarshalJSON, Unmarshal_alias. intros H Habs.
  pose proof (object_alias_absent f members
                {| alias_Installed := 0; alias_Renting := 0;
                   alias_Returning := 0; Alias := s |}
                {| savedError := None |} Habs) as Hr.
  destruct (object_alias members _ _) as [a' d']. cbn [fst] in Hr.
  destruct (savedError d'); injection H as <- _;
    destruct f; cbn in Hr |- *; congruence.
Qed.

(** Into a slice whose spare capacity is zeroed, every element of the array
    is decoded in a zeroed slot: a station decoded from an object without
    [num_bikes_disabled] (without [num_docks_disabled]) has 0 there, also
    when the decoding stopped at an error. *)
Lemma array_Stations_defaults es : ∀ done k v v' err,
  array v = done ++ replicate k zero_StationStatus →
  len v = length done →
  array_Stations es (length done) v = Returns (v', err) →
  ∃ news,
    elems v' = done ++ news
    ∧ ∀ (j : nat) (s : StationStatus) (members : list (string * json))
        (f : alias_field),
        news !! j = Some s → es !! j = Some (JObj members) →
        absent f members → stored f s = stored f zero_StationStatus.
Proof.
  induction es as [|e rest IH]; intros done k v v' err Harr Hlen Hrun.
  - cbn [array_Stations] in Hrun. rewrite Hlen, Nat.ltb_irrefl in Hrun.
    injection Hrun as <- _. exists []. split.
    + rewrite app_nil_r. destruct done as [|s0 done]; [reflexivity|].
      cbn [length Nat.eqb]. unfold elems. rewrite Hlen, Harr.
      rewrite take_app_length. reflexivity.
    + intros j s members f Hj. discriminate.
  - cbn [array_Stations] in Hrun.
    destruct (fresh_slot done k v Harr Hlen) as (k' & Harr2 & Hlen2).
    cbv zeta in Harr2, Hlen2.
    set (v2 := if (len _ <=? _)%nat then _ else _) in *.
    assert (Hi : array v2 !! length done = Some zero_StationStatus).
    { rewrite Harr2, lookup_app_r by lia. rewrite Nat.sub_diag. reflexivity. }
    rewrite Hi in Hrun.
    destruct (UnmarshalJSON zero_StationStatus e) as [[s' [e1|]]|] eqn:Hdec;
      [| |discriminate].
    + injection Hrun as <- _. exists [s']. split.
      * unfold elems. cbn [array len]. rewrite Hlen2, Harr2.
        rewrite insert_app_r_alt by lia. rewrite Nat.sub_diag.
        rewrite take_app_add. reflexivity.
      * intros [|j] s members f Hj He Habs; [|discriminate].
        injection Hj as <-. cbn in He. injection He as ->.
        eapply UnmarshalJSON_absent; [exact Hdec|exact Habs].
    + specialize (IH (done ++ [s']) k'
                    {| array := <[length done := s']> (array v2);
                       len := len v2 |} v' err).
      rewrite length_app in IH. cbn [length] in IH.
      destruct IH as (news & Hel & Hnews).
      * cbn [array]. rewrite Harr2.
        rewrite insert_app_r_alt by lia. rewrite Nat.sub_diag. simpl.
        rewrite <- app_assoc. reflexivity.
      * cbn [len]. exact Hlen2.
      * exact Hrun.
      * exists (s' :: news). split.
        -- rewrite Hel, <- app_assoc. reflexivity.
        -- intros [|j] s members f Hj He Habs.
           ++ injection Hj as <-. cbn in He. injection He as ->.
              eapply UnmarshalJSON_absent; [exact Hdec|exact Habs].
           ++ eapply Hnews; [exact Hj|exact He|exact Habs].
Qed.

(** Into a slice whose spare capacity is zeroed, elements the decoder
    accepts are all decoded. *)
Lemma array_Stations_accepted es : ∀ done k v,
  Forall entry_accepted es →
  array v = done ++ replicate k zero_StationStatus →
  len v = length done →
  ∃ v', array_Stations es (length done) v = Returns (v', None)
        ∧ length (elems v') = (length done + length es)%nat.
Proof.
  induction es as [|e rest IH]; intros done k v Hes Harr Hlen.
  - cbn [array_Stations]. rewrite Hlen, Nat.ltb_irrefl.
    eexists. split; [reflexivity|]. cbn [length]. rewrite Nat.add_0_r.
    destruct done as [|s0 done]; [reflexivity|].
    cbn [length Nat.eqb]. unfold elems. rewrite Hlen, Harr.
    rewrite take_app_length. reflexivity.
  - apply Forall_cons in Hes as [He Hrest].
    destruct e as [| | | | |members]; try contradiction. cbn in He.
    cbn [array_Stations].
    destruct (fresh_slot done k v Harr Hlen) as (k' & Harr2 & Hlen2).
    cbv zeta in Harr2, Hlen2.
    set (v2 := if (len _ <=? _)%nat then _ else _) in *.
    assert (Hi : array v2 !! length done = Some zero_StationStatus).
    { rewrite Harr2, lookup_app_r by lia. rewrite Nat.sub_diag. reflexivity. }
    rewrite Hi, (UnmarshalJSON_accepted members He).
    specialize (IH (done ++ [entry_station members]) k'
                  {| array := <[length done := entry_station members]>
                                (array v2);
                     len := len v2 |} Hrest).
    rewrite length_app in IH. cbn [length] in IH.
    destruct IH as (v' & Hrun & Hl).
    + cbn [array]. rewrite Harr2.
      rewrite insert_app_r_alt by lia. rewrite Nat.sub_diag. simpl.
      rewrite <- app_assoc. reflexivity.
    + cbn [len]. exact Hlen2.
    + exists v'. split; [exact Hrun|]. rewrite Hl. cbn [length]. lia.
Qed.

(** Where the stations of a payload with one [data] member and one
    [stations] member come from: the decoding of that array into the nil
    slice. *)
Lemma GetStationStatuses_one_array body pre k dpre k' es dpost post :
  Scan.text body
  = Some (JObj (pre ++ (k, JObj (dpre ++ (k', JArr es) :: dpost)) :: post)) →
  Fold.field_of response_fields k = Some data →
  Fold.field_of Data_fields k' = Some stations →
  without_data (pre ++ post) →
  without_stations (dpre ++ dpost) →
  match array_Stations es 0 nil_slice with
  | Panics => GetStationStatuses body = Panics
  | Returns (sl, Some e) =>
      ∃ resp, GetStationStatuses body
              = Returns (Some resp, Some (addErrorContext e))
              ∧ Stations (Data resp) = sl
  | Returns (sl, None) =>
      ∃ resp err, GetStationStatuses body = Returns (Some resp, err)
                  ∧ Stations (Data resp) = sl
                  ∧ (envelope_accepted (pre ++ post) → err = None)
  end.
Proof.
  intros Hscan Hk Hk' Hwd Hws.
  apply Forall_app in Hwd as [Hpre Hpost].
  apply Forall_app in Hws as [Hdpre Hdpost].
  unfold GetStationStatuses, Unmarshal. rewrite Hscan.
  rewrite object_response_app.
  destruct (object_response_envelope pre zero_StationStatusAPIResponse
              {| savedError := None |} Hpre)
    as (x1 & d1 & -> & HD1 & _ & _ & Hsame1).
  cbn [object_response]. rewrite Hk.
  rewrite object_Data_app, (object_Data_without_stations dpre _ _ Hdpre).
  cbn [object_Data]. rewrite Hk'. rewrite HD1.
  change (Stations (Data zero_StationStatusAPIResponse)) with nil_slice.
  destruct (array_Stations es 0 nil_slice) as [[sl [e|]]|];
    [| |reflexivity].
  - eexists. split; reflexivity.
  - rewrite (object_Data_without_stations dpost _ _ Hdpost).
    destruct (object_response_envelope post
                {| Data := {| Stations := sl |}; envelope := envelope x1 |}
                d1 Hpost)
      as (x2 & d2 & -> & HD2 & _ & _ & Hsame2).
    exists x2, (savedError d2). split; [reflexivity|].
    split; [rewrite HD2; reflexivity|].
    intros Hacc. apply Forall_app in Hacc as [Ha1 Ha2].
    rewrite (Hsame2 Ha2), (Hsame1 Ha1). reflexivity.
Qed.

(** C7 as stated fails: with a second [stations] member the entry [b],
    which has no [num_bikes_disabled], is decoded over the station the
    first array left in the slot, and keeps its 5. *)
Lemma GetStationStatuses_stale_slot :
  ∃ resp s,
    Scan.text body_repeated_stations
    = Some (JObj [("data",
                   JObj [("stations",
                          JArr [JObj [("station_id", JStr "a");
                                      ("num_bikes_disabled", JNum (NInt 5))]]);
                         ("stations",
                          JArr [JObj [("station_id", JStr "b")]])])])
    ∧ absent num_bikes_disabled [("station_id", JStr "b")]
    ∧ GetStationStatuses body_repeated_stations = Returns (Some resp, None)
    ∧ elems (Stations (Data resp)) = [s]
    ∧ ID s = "b"
    ∧ BikesDisabled s = 5.
Proof.
  do 2 eexists. split; [vm_compute; reflexivity|].
  split; [repeat constructor; vm_compute; discriminate|].
  split; [vm_compute; reflexivity|].
  split; [vm_compute; reflexivity|]. split; reflexivity.
Qed.

(** C7, amended.  In a payload with one [data] member and, in it, one
    [stations] member, wherever they stand among the other members: every
    station decoded from an entry without [num_bikes_disabled] (without
    [num_docks_disabled]) has [BikesDisabled] ([DocksDisabled]) 0, whether
    or not the decoding returned an error; and the decoding returns no
    error when every member that is there is acceptable to its field,
    whatever fields are missing. *)
Theorem GetStationStatuses_optional_fields_default :
  ∀ (body : string) (pre post dpre dpost : list (string * json))
    (k k' : string) (es : list json),
    Scan.text body
    = Some (JObj (pre ++ (k, JObj (dpre ++ (k', JArr es) :: dpost)) :: post)) →
    Fold.field_of response_fields k = Some data →
    Fold.field_of Data_fields k' = Some stations →
    without_data (pre ++ post) →
    without_stations (dpre ++ dpost) →
    (∀ (resp : StationStatusAPIResponse) (err : option error),
       GetStationStatuses body = Returns (Some resp, err) →
       ∀ (i : nat) (members : list (string * json)) (s : StationStatus),
         es !! i = Some (JObj members) →
         elems (Stations (Data resp)) !! i = Some s →
         (absent num_bikes_disabled members → BikesDisabled s = 0)
         ∧ (absent num_docks_disabled members → DocksDisabled s = 0))
    ∧ (envelope_accepted (pre ++ post) →
       Forall entry_accepted es →
       ∃ resp,
         GetStationStatuses body = Returns (Some resp, None)
         ∧ length (elems (Stations (Data resp))) = length es).
Proof.
  intros body pre post dpre dpost k k' es Hscan Hk Hk' Hwd Hws.
  pose proof (GetStationStatuses_one_array body pre k dpre k' es dpost post
                Hscan Hk Hk' Hwd Hws) as Hone.
  split.
  - intros resp err Hdec i members s Hi Hs.
    destruct (array_Stations es 0 nil_slice) as [[sl e]|] eqn:Harr.
    + assert (Hsl : Stations (Data resp) = sl).
      { destruct e as [e|].
        - destruct Hone as (r & Hr & <-). congruence.
        - destruct Hone as (r & e' & Hr & <- & _). congruence. }
      destruct (array_Stations_defaults es [] 0 nil_slice sl e
                  eq_refl eq_refl Harr) as (news & Hel & Hnews).
      rewrite Hsl, Hel in Hs. cbn [app] in Hs.
      split; intros Habs.
      * exact (f_equal (λ h, match h with Some (Int z) => z | _ => 0 end)
                 (Hnews i s members num_bikes_disabled Hs Hi Habs)).
      * exact (f_equal (λ h, match h with Some (Int z) => z | _ => 0 end)
                 (Hnews i s members num_docks_disabled Hs Hi Habs)).
    + congruence.
  - intros Henv Hes.
    destruct (array_Stations_accepted es [] 0 nil_slice Hes eq_refl eq_refl)
      as (v' & Hrun & Hlen).
    cbn [length] in Hrun. rewrite Hrun in Hone.
    destruct Hone as (resp & err & Hdec & Hsl & Herr).
    exists resp. rewrite (Herr Henv) in Hdec. split; [exact Hdec|].
    rewrite Hsl, Hlen. reflexivity.
Qed.

(** A feed in the usual order of its members, with a member the decoder
    does not know and an entry whose [num_docks_disabled] is [null]: its
    first entry has neither optional field. *)
Lemma GetStationStatuses_optional_fields_default_witness :
  ∃ resp s,
    GetStationStatuses body_usual_order = Returns (Some resp, None)
    ∧ length (elems (Stations (Data resp))) = 2%nat
    ∧ elems (Stations (Data resp)) !! 0%nat = Some s
    ∧ BikesDisabled s = 0
    ∧ DocksDisabled s = 0.
Proof.
  pose (e1 := [("station_id", JStr "7001");
               ("num_bikes_available", JNum (NInt 4))]).
  pose (e2 := [("station_id", JStr "7002");
               ("num_bikes_disabled", JNum (NInt 2));
               ("num_docks_disabled", JNull)]).
  destruct (GetStationStatuses_optional_fields_default body_usual_order
              [("last_updated", JNum (NInt 1600000060));
               ("ttl", JNum (NInt 30)); ("version", JStr "2.3")]
              [] [] [] "data" "stations" [JObj e1; JObj e2])
    as [Hdefault Hsucceeds].
  - vm_compute. reflexivity.
  - reflexivity.
  - reflexivity.
  - repeat constructor; vm_compute; discriminate.
  - constructor.
  - destruct Hsucceeds as (resp & Hdec & Hlen).
    + repeat constructor; vm_compute; reflexivity.
    + repeat constructor; vm_compute; first [reflexivity | exact I].
    + exists resp.
      destruct (elems (Stations (Data resp))) as [|s sts] eqn:Hel;
        [discriminate|].
      exists s. split; [exact Hdec|]. split; [exact Hlen|].
      split; [reflexivity|].
      destruct (Hdefault resp None Hdec 0%nat e1 s eq_refl) as [Hb Hd].
      * rewrite Hel. reflexivity.
      * split; [apply Hb|apply Hd];
          repeat constructor; vm_compute; discriminate.
Defined.

(** ** The loop over the stations *)

Lemma written_app f l1 l2 m :
  written f (l1 ++ l2) m = written f l2 (written f l1 m).
Proof. unfold written. apply fold_left_app. Qed.

Lemma written_other f sts : ∀ m id,
  id ∉ map ID sts → written f sts m !! id = m !! id.
Proof.
  induction sts as [|s sts IH]; intros m id Hid; [reflexivity|].
  cbn [written fold_left]. fold (written f sts (<[ID s := f s]> m)).
  rewrite IH by (intros H; apply Hid; right; exact H).
  apply lookup_insert_ne. intros E. apply Hid. cbn [map]. rewrite E. left.
Qed.

Lemma written_last f pre s post m :
  ID s ∉ map ID post →
  written f (pre ++ s :: post) m !! ID s = Some (f s).
Proof.
  intros Hid. rewrite written_app. cbn [written fold_left].
  fold (written f post (<[ID s := f s]> (written f pre m))).
  rewrite written_other by exact Hid. apply lookup_insert_eq.
Qed.

Lemma written_from f sts : ∀ m id x,
  written f sts m !! id = Some x →
  m !! id = Some x ∨ ∃ s, s ∈ sts ∧ ID s = id ∧ f s = x.
Proof.
  induction sts as [|s sts IH]; intros m id x H; [left; exact H|].
  cbn [written fold_left] in H.
  fold (written f sts (<[ID s := f s]> m)) in H.
  destruct (IH _ _ _ H) as [Hm|(s' & Hin & Hid & Hx)].
  - rewrite lookup_insert in Hm. case_decide as E.
    + injection Hm as Hm. right. exists s. split; [left|auto].
    + left. exact Hm.
  - right. exists s'. split; [right; exact Hin|auto].
Qed.

Lemma written_dom f sts : ∀ m id,
  is_Some (written f sts m !! id) ↔ is_Some (m !! id) ∨ id ∈ map ID sts.
Proof.
  induction sts as [|s sts IH]; intros m id.
  - cbn. split; [auto|]. intros [H|H]; [exact H|inversion H].
  - cbn [written fold_left]. fold (written f sts (<[ID s := f s]> m)).
    rewrite IH. cbn [map]. rewrite elem_of_cons, lookup_insert.
    case_decide as E.
    + subst id. split; [auto|]. intros _. left. eexists. reflexivity.
    + split; intros [H|H]; auto.
      destruct H as [H|H]; [congruence|auto].
Qed.

(** What the loop of [main.go], [part_000] and [part_002] leaves in each of
    the three vectors. *)
Lemma fold_observe_written sts : ∀ g c f,
  (c, f) ∈ global_gauges →
  children (c (fold_left observe sts g)) = written f sts (children (c g))
  ∧ fqName (c (fold_left observe sts g)) = fqName (c g).
Proof.
  induction sts as [|s sts IH]; intros g c f Hc; [split; reflexivity|].
  cbn [fold_left written].
  destruct (IH (observe g s) c f Hc) as [-> ->].
  unfold global_gauges in Hc.
  repeat (apply elem_of_cons in Hc as [Hc|Hc];
          [injection Hc as -> ->; split; reflexivity|]).
  inversion Hc.
Qed.

(** What the loop of [part_001] leaves in each of the seven vectors. *)
Lemma fold_IsolatedProbe_observe_written sts : ∀ l c f,
  (c, f) ∈ local_gauges →
  children (c (fold_left IsolatedProbe.observe sts l))
  = written f sts (children (c l))
  ∧ fqName (c (fold_left IsolatedProbe.observe sts l)) = fqName (c l).
Proof.
  induction sts as [|s sts IH]; intros l c f Hc; [split; reflexivity|].
  cbn [fold_left written].
  destruct (IH (IsolatedProbe.observe l s) c f Hc) as [-> ->].
  unfold local_gauges in Hc.
  repeat (apply elem_of_cons in Hc as [Hc|Hc];
          [injection Hc as -> ->; split; reflexivity|]).
  inversion Hc.
Qed.

(** X17.  After the loop over the stations of a feed, each of the three
    process-wide gauges holds, under the ID of a station, the count of the
    last station of the feed with that ID; a child whose ID is not in the
    feed is left as it was: the loop never removes or resets one. *)
Theorem observe_loop_last_station_wins :
  ∀ (g : Globals) (pre post : list StationStatus) (s : StationStatus)
    (id : string),
    ID s ∉ map ID post →
    let sts := pre ++ s :: post in
    let g' := fold_left observe sts g in
    children (bikesAvailable g') !! ID s
    = Some (float64_of_int64 (BikesAvailable s))
    ∧ children (bikesDisabled g') !! ID s
      = Some (float64_of_int64 (BikesDisabled s))
    ∧ children (docksAvailable g') !! ID s
      = Some (float64_of_int64 (DocksAvailable s))
    ∧ (id ∉ map ID sts →
       children (bikesAvailable g') !! id = children (bikesAvailable g) !! id
       ∧ children (bikesDisabled g') !! id = children (bikesDisabled g) !! id
       ∧ children (docksAvailable g') !! id
         = children (docksAvailable g) !! id).
Proof.
  intros g pre post s id Hs sts g'. unfold g'.
  destruct (fold_observe_written sts g bikesAvailable
              (λ s, float64_of_int64 (BikesAvailable s))) as [-> _];
    [left|].
  destruct (fold_observe_written sts g bikesDisabled
              (λ s, float64_of_int64 (BikesDisabled s))) as [-> _];
    [right; left|].
  destruct (fold_observe_written sts g docksAvailable
              (λ s, float64_of_int64 (DocksAvailable s))) as [-> _];
    [right; right; left|].
  unfold sts.
  rewrite !written_last by exact Hs.
  split; [reflexivity|]. split; [reflexivity|]. split; [reflexivity|].
  intros Hid. rewrite !written_other by exact Hid. auto.
Qed.

Lemma observe_loop_last_station_wins_witness :
  let s1 := {| ID := "7001"; BikesAvailable := 4; BikesDisabled := 0;
               DocksAvailable := 11; DocksDisabled := 0; Installed := true;
               Renting := true; Returning := false; LastReported := 1 |} in
  let s2 := {| ID := "7001"; BikesAvailable := 6; BikesDisabled := 1;
               DocksAvailable := 8; DocksDisabled := 0; Installed := true;
               Renting := true; Returning := false; LastReported := 2 |} in
  let g' := fold_left observe ([s1] ++ s2 :: []) init in
  children (bikesAvailable g') !! "7001" = Some 6
  ∧ children (bikesDisabled g') !! "7001" = Some 1
  ∧ children (docksAvailable g') !! "7001" = Some 8
  ∧ ("7002" ∉ map ID ([s1] ++ s2 :: []) →
     children (bikesAvailable g') !! "7002"
     = children (bikesAvailable init) !! "7002"
     ∧ children (bikesDisabled g') !! "7002"
       = children (bikesDisabled init) !! "7002"
     ∧ children (docksAvailable g') !! "7002"
       = children (docksAvailable init) !! "7002").
Proof.
  intros s1 s2.
  apply (observe_loop_last_station_wins init [s1] [] s2 "7002").
  intros H. inversion H.
Defined.

(** ** What a scrape renders *)

(** A child of a registered vector is rendered, under the name of the
    vector, when the names in the registry differ. *)
Lemma Gather_sample {S : Type} (r : Registry S) (st : S) c id x :
  NoDup (map (λ c', fqName (c' st)) r) →
  c ∈ r →
  children (c st) !! id = Some x →
  sample (Gather r st) (fqName (c st)) id x.
Proof.
  unfold Gather, sample.
  induction r as [|c0 r IH]; intros Hnd Hin Hx; [inversion Hin|].
  cbn [foldr]. cbn [map] in Hnd. apply NoDup_cons in Hnd as [Hfresh Hnd].
  apply elem_of_cons in Hin as [->|Hin].
  - rewrite bool_decide_eq_false_2
      by (intros E; rewrite E, lookup_empty in Hx; discriminate).
    eexists. rewrite lookup_insert_eq. split; [reflexivity|exact Hx].
  - destruct (IH Hnd Hin Hx) as (fam & Hfam & Hm).
    exists fam. split; [|exact Hm].
    destruct (bool_decide (children (c0 st) = ∅)); [exact Hfam|].
    rewrite lookup_insert_ne; [exact Hfam|].
    intros E. apply Hfresh. rewrite E.
    apply (list_elem_of_fmap_2 (λ c', fqName (c' st))). exact Hin.
Qed.

(** How a call of the handler of [src/main.go] leaves the gauges: as they
    were, or after the loop over the stations of a feed. *)
Lemma Main_probeGBFS_state net g r :
  state (Main.probeGBFS net g r) = g
  ∨ ∃ sts, state (Main.probeGBFS net g r) = fold_left observe sts g.
Proof.
  unfold Main.probeGBFS.
  destruct (String.eqb _ _); [left; reflexivity|].
  destruct (net _); [left; reflexivity|left; reflexivity|].
  destruct (register_all g); [|left; reflexivity].
  destruct (GetStationStatuses _) as [[[resp|] [err|]]|];
    try (left; reflexivity).
  right. eexists. reflexivity.
Qed.

Lemma declared_serve requests : ∀ g, declared g → declared (serve requests g).
Proof.
  induction requests as [|[net r] rest IH]; intros g H; [exact H|].
  cbn [serve fold_left]. apply IH. cbn [fst snd].
  destruct (Main_probeGBFS_state net g r) as [->|[sts ->]];
    [exact H|apply declared_fold_observe, H].
Qed.

Lemma global_names_NoDup g :
  declared g →
  NoDup (map (λ c' : Globals → GaugeVec, fqName (c' g))
           [bikesAvailable; bikesDisabled; docksAvailable]).
Proof.
  intros (Ha & Hb & Hc). cbn [map]. rewrite Ha, Hb, Hc.
  apply (bool_decide_unpack _). vm_compute. exact I.
Qed.

(** In a 200 response of [src/main.go], the samples of
    [gbfs_bikes_available] are the children of the process-wide vector
    after the loop. *)
Lemma Main_rendered_bikes_available g id x :
  declared g →
  sample (Gather [bikesAvailable; bikesDisabled; docksAvailable] g)
    "gbfs_bikes_available" id x
  ↔ children (bikesAvailable g) !! id = Some x.
Proof.
  intros Hg. pose proof Hg as (Ha & Hb & Hc). split.
  - intros (fam & Hfam & Hx).
    apply Gather_lookup in Hfam as (c & Hin & Hname & Hm).
    rewrite Hm in Hx.
    apply elem_of_cons in Hin as [->|Hin]; [exact Hx|].
    apply elem_of_cons in Hin as [->|Hin]; [rewrite Hb in Hname; discriminate|].
    apply elem_of_cons in Hin as [->|Hin]; [rewrite Hc in Hname; discriminate|].
    inversion Hin.
  - intros Hx. rewrite <- Ha.
    apply (Gather_sample _ g bikesAvailable id x);
      [apply global_names_NoDup, Hg|left|exact Hx].
Qed.

(** X15.  The stations a response of [src/main.go] renders: a 200 response has a
    sample of [gbfs_bikes_available] for an ID exactly when the ID is a
    station of the feed just fetched or was a child of the process-wide
    vector before the request. *)
Theorem Main_probeGBFS_rendered_stations :
  ∀ (net : Internet) (g : Globals) (r : Request) (e : Exposition),
    declared g →
    outcome (Main.probeGBFS net g r)
    = Responded {| StatusCode := 200; body := Metrics e |} →
    ∃ body resp,
      net (Values_Get (Query r) "target") = Fetched body
      ∧ GetStationStatuses body = Returns (Some resp, None)
      ∧ ∀ id, (∃ x, sample e "gbfs_bikes_available" id x)
              ↔ (id ∈ station_ids resp
                 ∨ id ∈ dom (children (bikesAvailable g))).
Proof.
  intros net g r e Hg. unfold Main.probeGBFS.
  destruct (String.eqb _ _); [discriminate|].
  destruct (net _) as [err|err|body]; try discriminate.
  rewrite (register_all_declared g Hg).
  destruct (GetStationStatuses body) as [[[resp|] [err|]]|] eqn:Hdec;
    try discriminate.
  cbn [outcome].
  set (sts := elems (Stations (Data resp))).
  remember (Gather _ (fold_left observe sts g)) as e' eqn:He'.
  intros He. injection He as <-. subst e'.
  exists body, resp. split; [reflexivity|]. split; [exact Hdec|].
  intros id.
  assert (Hg' : declared (fold_left observe sts g))
    by apply declared_fold_observe, Hg.
  destruct (fold_observe_written sts g bikesAvailable
              (λ s, float64_of_int64 (BikesAvailable s))) as [Hw _]; [left|].
  split.
  - intros [x Hx]. apply (Main_rendered_bikes_available _ id x Hg') in Hx.
    rewrite Hw in Hx.
    assert (Hs : is_Some (written (λ s, float64_of_int64 (BikesAvailable s))
                            sts (children (bikesAvailable g)) !! id))
      by (eexists; exact Hx).
    apply written_dom in Hs as [Hs|Hs]; [right|left; exact Hs].
    apply elem_of_dom. exact Hs.
  - intros H.
    assert (Hs : is_Some (written (λ s, float64_of_int64 (BikesAvailable s))
                            sts (children (bikesAvailable g)) !! id)).
    { apply written_dom. destruct H as [H|H]; [right; exact H|left].
      apply elem_of_dom. exact H. }
    destruct Hs as [x Hx]. exists x.
    apply (Main_rendered_bikes_available _ id x Hg'). rewrite Hw. exact Hx.
Qed.

Lemma Main_probeGBFS_rendered_stations_witness :
  ∃ e body resp,
    outcome (Main.probeGBFS two_feeds init (probe_of target_A))
    = Responded {| StatusCode := 200; body := Metrics e |}
    ∧ two_feeds (Values_Get (Query (probe_of target_A)) "target")
      = Fetched body
    ∧ GetStationStatuses body = Returns (Some resp, None)
    ∧ ∀ id, (∃ x, sample e "gbfs_bikes_available" id x)
            ↔ (id ∈ station_ids resp
               ∨ id ∈ dom (children (bikesAvailable init))).
Proof.
  exists (Gather [bikesAvailable; bikesDisabled; docksAvailable]
            (state (Main.probeGBFS two_feeds init (probe_of target_A)))).
  assert (Hout : outcome (Main.probeGBFS two_feeds init (probe_of target_A))
                 = Responded
                     {| StatusCode := 200;
                        body := Metrics
                          (Gather [bikesAvailable; bikesDisabled; docksAvailable]
                             (state (Main.probeGBFS two_feeds init
                                       (probe_of target_A)))) |})
    by (vm_compute; reflexivity).
  destruct (Main_probeGBFS_rendered_stations two_feeds init
              (probe_of target_A) _ declared_init Hout)
    as (body & resp & H1 & H2 & H3).
  exists body, resp. split; [exact Hout|]. split; [exact H1|].
  split; [exact H2|exact H3].
Defined.

(** X16.  The process-wide gauges of [src/main.go] never forget a station: a
    child a vector has before a run of requests, of whatever targets and
    outcomes, it has after it. *)
Theorem Main_gauges_never_forget :
  ∀ (requests : list (Internet * Request)) (g : Globals) (id : string),
    (id ∈ dom (children (bikesAvailable g)) →
     id ∈ dom (children (bikesAvailable (serve requests g))))
    ∧ (id ∈ dom (children (bikesDisabled g)) →
       id ∈ dom (children (bikesDisabled (serve requests g))))
    ∧ (id ∈ dom (children (docksAvailable g)) →
       id ∈ dom (children (docksAvailable (serve requests g)))).
Proof.
  induction requests as [|[net r] rest IH]; intros g id; [auto|].
  cbn [serve fold_left fst snd].
  fold (serve rest (state (Main.probeGBFS net g r))).
  destruct (IH (state (Main.probeGBFS net g r)) id) as (Ia & Ib & Ic).
  destruct (Main_probeGBFS_state net g r) as [E|[sts E]]; rewrite E in *;
    [auto|].
  destruct (fold_observe_written sts g bikesAvailable
              (λ s, float64_of_int64 (BikesAvailable s))) as [Ha _]; [left|].
  destruct (fold_observe_written sts g bikesDisabled
              (λ s, float64_of_int64 (BikesDisabled s))) as [Hb _];
    [right; left|].
  destruct (fold_observe_written sts g docksAvailable
              (λ s, float64_of_int64 (DocksAvailable s))) as [Hc _];
    [right; right; left|].
  split; [|split]; intros H.
  - apply Ia. apply elem_of_dom. rewrite Ha. apply written_dom. left.
    apply elem_of_dom. exact H.
  - apply Ib. apply elem_of_dom. rewrite Hb. apply written_dom. left.
    apply elem_of_dom. exact H.
  - apply Ic. apply elem_of_dom. rewrite Hc. apply written_dom. left.
    apply elem_of_dom. exact H.
Qed.

Lemma Main_gauges_never_forget_witness :
  let g := state (Main.probeGBFS two_feeds init (probe_of target_A)) in
  let later := [(two_feeds, probe_of target_B); (two_feeds, probe_of "")] in
  "A1" ∈ dom (children (bikesAvailable g))
  ∧ "A1" ∈ dom (children (bikesAvailable (serve later g))).
Proof.
  intros g later.
  assert (H : "A1" ∈ dom (children (bikesAvailable g))).
  { apply elem_of_dom. vm_compute. eexists. reflexivity. }
  split; [exact H|].
  exact (proj1 (Main_gauges_never_forget later g "A1") H).
Defined.

(** ** The probe handler of part_001, in general *)

Ltac pick_gauge := first [ left | right; pick_gauge ].

Lemma local_names l c f :
  (c, f) ∈ local_gauges →
  fqName (c (fold_left IsolatedProbe.observe l IsolatedProbe.new_gauges))
  = fqName (c IsolatedProbe.new_gauges).
Proof. intros H. eapply proj2, fold_IsolatedProbe_observe_written, H. Qed.

Lemma local_names_NoDup l :
  NoDup (map (λ c' : IsolatedProbe.Locals → GaugeVec,
                fqName (c' (fold_left IsolatedProbe.observe l
                              IsolatedProbe.new_gauges)))
           (map fst local_gauges)).
Proof.
  unfold local_gauges. cbn [map fst].
  rewrite (local_names l IsolatedProbe.bikesAvailableGauge _
             ltac:(unfold local_gauges; pick_gauge)).
  rewrite (local_names l IsolatedProbe.bikesDisabledGauge _
             ltac:(unfold local_gauges; pick_gauge)).
  rewrite (local_names l IsolatedProbe.docksAvailableGauge _
             ltac:(unfold local_gauges; pick_gauge)).
  rewrite (local_names l IsolatedProbe.docksDisabledGauge _
             ltac:(unfold local_gauges; pick_gauge)).
  rewrite (local_names l IsolatedProbe.installedGauge _
             ltac:(unfold local_gauges; pick_gauge)).
  rewrite (local_names l IsolatedProbe.rentingGauge _
             ltac:(unfold local_gauges; pick_gauge)).
  rewrite (local_names l IsolatedProbe.lastReportedGauge _
             ltac:(unfold local_gauges; pick_gauge)).
  apply (bool_decide_unpack _). vm_compute. exact I.
Qed.

Lemma local_registry :
  [IsolatedProbe.bikesAvailableGauge; IsolatedProbe.bikesDisabledGauge;
   IsolatedProbe.docksAvailableGauge; IsolatedProbe.docksDisabledGauge;
   IsolatedProbe.installedGauge; IsolatedProbe.rentingGauge;
   IsolatedProbe.lastReportedGauge] = map fst local_gauges.
Proof. reflexivity. Qed.

(** In a response of [part_001], the station that is the last of the feed
    with its ID is rendered by the vector [c] with the value [f] of it. *)
Lemma IsolatedProbe_rendered sts c f pre s post :
  (c, f) ∈ local_gauges →
  sts = pre ++ s :: post →
  ID s ∉ map ID post →
  sample (Gather (map fst local_gauges)
            (fold_left IsolatedProbe.observe sts IsolatedProbe.new_gauges))
    (fqName (c IsolatedProbe.new_gauges)) (ID s) (f s).
Proof.
  intros Hc -> Hs. rewrite <- (local_names (pre ++ s :: post) c f Hc).
  apply Gather_sample.
  - apply local_names_NoDup.
  - apply (list_elem_of_fmap_2 fst _ (c, f)). exact Hc.
  - rewrite (proj1 (fold_IsolatedProbe_observe_written _ _ c f Hc)).
    apply written_last. exact Hs.
Qed.

(** X19.  Every station of the feed is rendered by [part_001], in each of the
    seven families, with the values of the last entry that carries its ID:
    the four counts and the time of the last report converted to float64,
    [installed] and [renting] as 1 or 0. *)
Theorem IsolatedProbe_probeGBFS_renders_every_station :
  ∀ (net : Internet) (r : Request) (e : Exposition),
    outcome (IsolatedProbe.probeGBFS net r)
    = Responded {| StatusCode := 200; body := Metrics e |} →
    ∃ body resp,
      net (Values_Get (Query r) "target") = Fetched body
      ∧ GetStationStatuses body = Returns (Some resp, None)
      ∧ ∀ pre s post,
          elems (Stations (Data resp)) = pre ++ s :: post →
          ID s ∉ map ID post →
          sample e "gbfs_bikes_available" (ID s)
            (float64_of_int64 (BikesAvailable s))
          ∧ sample e "gbfs_bikes_disabled" (ID s)
              (float64_of_int64 (BikesDisabled s))
          ∧ sample e "gbfs_docks_available" (ID s)
              (float64_of_int64 (DocksAvailable s))
          ∧ sample e "gbfs_docks_disabled" (ID s)
              (float64_of_int64 (DocksDisabled s))
          ∧ sample e "gbfs_installed" (ID s) (BoolToFloat64 (Installed s))
          ∧ sample e "gbfs_renting" (ID s) (BoolToFloat64 (Renting s))
          ∧ sample e "gbfs_last_reported_timestamp_seconds" (ID s)
              (float64_of_int64 (LastReported s)).
Proof.
  intros net r e. unfold IsolatedProbe.probeGBFS.
  destruct (String.eqb _ _); [discriminate|].
  destruct (net _) as [err|err|body]; try discriminate.
  rewrite IsolatedProbe_register_all, local_registry.
  destruct (GetStationStatuses body) as [[[resp|] [err|]]|] eqn:Hdec;
    try discriminate.
  cbn [outcome].
  set (sts := elems (Stations (Data resp))).
  remember (Gather _ _) as e' eqn:He'.
  intros He. injection He as <-. subst e'.
  exists body, resp. split; [reflexivity|]. split; [exact Hdec|].
  intros pre s post Hsts Hs.
  repeat split.
  - apply (IsolatedProbe_rendered sts IsolatedProbe.bikesAvailableGauge
             (λ s, float64_of_int64 (BikesAvailable s)) pre s post);
      [unfold local_gauges; pick_gauge|exact Hsts|exact Hs].
  - apply (IsolatedProbe_rendered sts IsolatedProbe.bikesDisabledGauge
             (λ s, float64_of_int64 (BikesDisabled s)) pre s post);
      [unfold local_gauges; pick_gauge|exact Hsts|exact Hs].
  - apply (IsolatedProbe_rendered sts IsolatedProbe.docksAvailableGauge
             (λ s, float64_of_int64 (DocksAvailable s)) pre s post);
      [unfold local_gauges; pick_gauge|exact Hsts|exact Hs].
  - apply (IsolatedProbe_rendered sts IsolatedProbe.docksDisabledGauge
             (λ s, float64_of_int64 (DocksDisabled s)) pre s post);
      [unfold local_gauges; pick_gauge|exact Hsts|exact Hs].
  - apply (IsolatedProbe_rendered sts IsolatedProbe.installedGauge
             (λ s, BoolToFloat64 (Installed s)) pre s post);
      [unfold local_gauges; pick_gauge|exact Hsts|exact Hs].
  - apply (IsolatedProbe_rendered sts IsolatedProbe.rentingGauge
             (λ s, BoolToFloat64 (Renting s)) pre s post);
      [unfold local_gauges; pick_gauge|exact Hsts|exact Hs].
  - apply (IsolatedProbe_rendered sts IsolatedProbe.lastReportedGauge
             (λ s, float64_of_int64 (LastReported s)) pre s post);
      [unfold local_gauges; pick_gauge|exact Hsts|exact Hs].
Qed.

(** X20.  A sample that [part_001] renders comes from the feed of this request:
    its label is the ID of a station of the feed and its value is what the
    loop writes for that station into the vector of that name. *)
Theorem IsolatedProbe_probeGBFS_sample_origin :
  ∀ (net : Internet) (r : Request) (e : Exposition) (name id : string)
    (x : float64),
    outcome (IsolatedProbe.probeGBFS net r)
    = Responded {| StatusCode := 200; body := Metrics e |} →
    sample e name id x →
    ∃ body resp c f s,
      net (Values_Get (Query r) "target") = Fetched body
      ∧ GetStationStatuses body = Returns (Some resp, None)
      ∧ (c, f) ∈ local_gauges
      ∧ fqName (c IsolatedProbe.new_gauges) = name
      ∧ s ∈ elems (Stations (Data resp))
      ∧ ID s = id
      ∧ f s = x.
Proof.
  intros net r e name id x. unfold IsolatedProbe.probeGBFS.
  destruct (String.eqb _ _); [discriminate|].
  destruct (net _) as [err|err|body]; try discriminate.
  rewrite IsolatedProbe_register_all, local_registry.
  destruct (GetStationStatuses body) as [[[resp|] [err|]]|] eqn:Hdec;
    try discriminate.
  cbn [outcome].
  set (sts := elems (Stations (Data resp))).
  remember (Gather _ _) as e' eqn:He'.
  intros He (fam & Hfam & Hx). injection He as <-. subst e'.
  apply Gather_lookup in Hfam as (c & Hin & Hname & Hm).
  apply list_elem_of_fmap in Hin as ([c' f] & -> & Hin). cbn [fst] in *.
  rewrite Hm in Hx.
  rewrite (proj1 (fold_IsolatedProbe_observe_written sts _ c' f Hin)) in Hx.
  rewrite (local_names sts c' f Hin) in Hname.
  apply written_from in Hx as [Hx|(s & Hs & Hid & Hfs)].
  - exfalso. revert Hx. unfold local_gauges in Hin.
    repeat (apply elem_of_cons in Hin as [Hin|Hin];
            [injection Hin as -> _; cbn; rewrite lookup_empty; discriminate|]).
    inversion Hin.
  - exists body, resp, c', f, s. auto 10.
Qed.

(** X21.  The samples of [gbfs_installed] and [gbfs_renting] are 0 or 1, whatever
    integers the feed carries for [is_installed] and [is_renting]. *)
Theorem IsolatedProbe_probeGBFS_flags_zero_or_one :
  ∀ (net : Internet) (r : Request) (e : Exposition) (id : string)
    (x : float64),
    outcome (IsolatedProbe.probeGBFS net r)
    = Responded {| StatusCode := 200; body := Metrics e |} →
    sample e "gbfs_installed" id x ∨ sample e "gbfs_renting" id x →
    x = 0 ∨ x = 1.
Proof.
  intros net r e id x. unfold IsolatedProbe.probeGBFS.
  destruct (String.eqb _ _); [discriminate|].
  destruct (net _) as [err|err|body]; try discriminate.
  rewrite IsolatedProbe_register_all, local_registry.
  destruct (GetStationStatuses body) as [[[resp|] [err|]]|] eqn:Hdec;
    try discriminate.
  cbn [outcome].
  set (sts := elems (Stations (Data resp))).
  remember (Gather _ _) as e' eqn:He'.
  intros He Hs. injection He as <-. subst e'.
  assert (Hflag : ∀ name, name = "gbfs_installed" ∨ name = "gbfs_renting" →
            sample (Gather (map fst local_gauges)
                      (fold_left IsolatedProbe.observe sts
                         IsolatedProbe.new_gauges)) name id x →
            x = 0 ∨ x = 1).
  { intros name Hn (fam & Hfam & Hx).
    apply Gather_lookup in Hfam as (c & Hin & Hname & Hm).
    apply list_elem_of_fmap in Hin as ([c' f] & -> & Hin). cbn [fst] in *.
    rewrite Hm in Hx.
    rewrite (proj1 (fold_IsolatedProbe_observe_written sts _ c' f Hin)) in Hx.
    rewrite (local_names sts c' f Hin) in Hname.
    apply written_from in Hx as [Hx|(s & _ & _ & Hfs)].
    - exfalso. revert Hx. unfold local_gauges in Hin.
      repeat (apply elem_of_cons in Hin as [Hin|Hin];
              [injection Hin as -> _; cbn; rewrite lookup_empty;
               discriminate|]).
      inversion Hin.
    - subst x. unfold local_gauges in Hin.
      repeat (apply elem_of_cons in Hin as [Hin|Hin];
              [injection Hin as -> ->; cbn in Hname;
               first [ destruct Hn as [->| ->]; discriminate
                     | unfold BoolToFloat64;
                       match goal with
                       | |- context [if ?b then _ else _] => destruct b
                       end; auto ]|]).
      inversion Hin. }
  destruct Hs as [Hs|Hs].
  - apply (Hflag "gbfs_installed"); [left; reflexivity|exact Hs].
  - apply (Hflag "gbfs_renting"); [right; reflexivity|exact Hs].
Qed.

Lemma IsolatedProbe_probeGBFS_renders_every_station_witness :
  ∃ body resp,
    (λ _ : string, Fetched body_7001)
      (Values_Get (Query (probe_of target_A)) "target") = Fetched body
    ∧ GetStationStatuses body = Returns (Some resp, None)
    ∧ ∀ pre s post,
        elems (Stations (Data resp)) = pre ++ s :: post →
        ID s ∉ map ID post →
        sample rendered_7001 "gbfs_bikes_available" (ID s)
          (float64_of_int64 (BikesAvailable s))
        ∧ sample rendered_7001 "gbfs_bikes_disabled" (ID s)
            (float64_of_int64 (BikesDisabled s))
        ∧ sample rendered_7001 "gbfs_docks_available" (ID s)
            (float64_of_int64 (DocksAvailable s))
        ∧ sample rendered_7001 "gbfs_docks_disabled" (ID s)
            (float64_of_int64 (DocksDisabled s))
        ∧ sample rendered_7001 "gbfs_installed" (ID s)
            (BoolToFloat64 (Installed s))
        ∧ sample rendered_7001 "gbfs_renting" (ID s)
            (BoolToFloat64 (Renting s))
        ∧ sample rendered_7001 "gbfs_last_reported_timestamp_seconds" (ID s)
            (float64_of_int64 (LastReported s)).
Proof.
  apply (IsolatedProbe_probeGBFS_renders_every_station
           (λ _, Fetched body_7001) (probe_of target_A) rendered_7001).
  vm_compute. reflexivity.
Defined.

Lemma IsolatedProbe_probeGBFS_sample_origin_witness :
  ∃ body resp c f s,
    (λ _ : string, Fetched body_7001)
      (Values_Get (Query (probe_of target_A)) "target") = Fetched body
    ∧ GetStationStatuses body = Returns (Some resp, None)
    ∧ (c, f) ∈ local_gauges
    ∧ fqName (c IsolatedProbe.new_gauges) = "gbfs_renting"
    ∧ s ∈ elems (Stations (Data resp))
    ∧ ID s = "7001"
    ∧ f s = 1.
Proof.
  apply (IsolatedProbe_probeGBFS_sample_origin
           (λ _, Fetched body_7001) (probe_of target_A) rendered_7001
           "gbfs_renting" "7001" 1).
  - vm_compute. reflexivity.
  - eexists. split; vm_compute; reflexivity.
Defined.

Lemma IsolatedProbe_probeGBFS_flags_zero_or_one_witness : 1 = 0 ∨ 1 = 1.
Proof.
  apply (IsolatedProbe_probeGBFS_flags_zero_or_one
           (λ _, Fetched body_7001) (probe_of target_A) rendered_7001
           "7001" 1).
  - vm_compute. reflexivity.
  - right. eexists. split; vm_compute; reflexivity.
Defined.

(** ** The error exits of the probe handlers *)

Lemma Main_probeGBFS_schema_error_witness :
  Main.probeGBFS (λ _, Fetched "[]") init (probe_of target_A)
  = {| state := init;
       outcome :=
         Responded
           (http_Error
              ("Could not unmarshal target JSON, target '" +:+ target_A
               +:+ "' does not have the expected schema: "
               +:+ Error (UnmarshalTypeError "array"
                            T_StationStatusAPIResponse "" "")) 400);
       fetched := [target_A] |}.
Proof.
  apply (Main_probeGBFS_schema_error (λ _, Fetched "[]") init
           (probe_of target_A) target_A "[]"
           (Some zero_StationStatusAPIResponse)
           (UnmarshalTypeError "array" T_StationStatusAPIResponse "" "")).
  - exact declared_init.
  - reflexivity.
  - discriminate.
  - reflexivity.
  - vm_compute. reflexivity.
Defined.

(** X18.  The four error exits of [probeGBFS] in [part_001]: no [target] is 400
    "Target parameter missing" with nothing fetched; a failed GET is 400; a
    failed read of the body is 500; a body that does not decode is 400
    with the target and the error in the text. *)
Theorem IsolatedProbe_probeGBFS_error_exits :
  ∀ (net : Internet) (r : Request) (target : string),
    Values_Get (Query r) "target" = target →
    (target = "" →
     IsolatedProbe.probeGBFS net r
     = {| state := tt;
          outcome := Responded (http_Error "Target parameter missing" 400);
          fetched := [] |})
    ∧ (target ≠ "" →
       (∀ err, net target = GetError err →
               outcome (IsolatedProbe.probeGBFS net r)
               = Responded (http_Error ("HTTP error: " +:+ err) 400))
       ∧ (∀ err, net target = ReadError err →
                 outcome (IsolatedProbe.probeGBFS net r)
                 = Responded
                     (http_Error
                        ("Failed to read HTTP body of target '" +:+ target
                         +:+ "': " +:+ err) 500))
       ∧ (∀ body resp err,
            net target = Fetched body →
            GetStationStatuses body = Returns (resp, Some err) →
            outcome (IsolatedProbe.probeGBFS net r)
            = Responded
                (http_Error
                   ("Could not unmarshal target JSON, target '" +:+ target
                    +:+ "' does not have the expected schema: "
                    +:+ Error err) 400))).
Proof.
  intros net r target Ht. split.
  - intros ->. unfold IsolatedProbe.probeGBFS. rewrite Ht. reflexivity.
  - intros Hne. pose proof Hne as Hne'. apply String.eqb_neq in Hne'.
    split; [|split].
    + intros err Hnet. unfold IsolatedProbe.probeGBFS.
      rewrite Ht, Hne', Hnet. reflexivity.
    + intros err Hnet. unfold IsolatedProbe.probeGBFS.
      rewrite Ht, Hne', Hnet. reflexivity.
    + intros body resp err Hnet Hdec.
      rewrite (IsolatedProbe_probeGBFS_schema_error net r target body resp err
                 Ht Hne Hnet Hdec).
      reflexivity.
Qed.

Lemma IsolatedProbe_probeGBFS_error_exits_witness :
  IsolatedProbe.probeGBFS (λ _, Fetched "[]") {| Query := ∅ |}
  = {| state := tt;
       outcome := Responded (http_Error "Target parameter missing" 400);
       fetched := [] |}
  ∧ outcome (IsolatedProbe.probeGBFS (λ _, Fetched "[]") (probe_of target_A))
    = Responded
        (http_Error
           ("Could not unmarshal target JSON, target '" +:+ target_A
            +:+ "' does not have the expected schema: "
            +:+ Error (UnmarshalTypeError "array"
                         T_StationStatusAPIResponse "" "")) 400).
Proof.
  assert (H0 : Values_Get (Query {| Query := ∅ |}) "target" = "")
    by (vm_compute; reflexivity).
  assert (HA : target_A ≠ "") by discriminate.
  split.
  - apply (proj1 (IsolatedProbe_probeGBFS_error_exits (λ _, Fetched "[]")
                    {| Query := ∅ |} "" H0)).
    reflexivity.
  - apply (proj2 (proj2 (proj2 (IsolatedProbe_probeGBFS_error_exits
                                  (λ _, Fetched "[]") (probe_of target_A)
                                  target_A (Values_Get_probe_of target_A))
                           HA))
             "[]" (Some zero_StationStatusAPIResponse)
             (UnmarshalTypeError "array" T_StationStatusAPIResponse "" "")).
    + reflexivity.
    + vm_compute. reflexivity.
Defined.

(** X22.  How a call of the fixed-URL handler of [part_000] can end.  It answers
    200 or nothing: a failed GET or read ends the process, a panic of the
    decoder or a nil response is a panic of the handler, and every other
    body, decoded with or without error, is answered 200 with the gauges
    as the loop left them. *)
Theorem FixedProbe_probeGBFS_outcomes :
  ∀ (net : Internet) (g : Globals) (r : Request),
    declared g →
    match outcome (FixedProbe.probeGBFS net g r) with
    | Responded resp =>
        ∃ body x err,
          net feedURL = Fetched body
          ∧ GetStationStatuses body = Returns (Some x, err)
          ∧ state (FixedProbe.probeGBFS net g r)
            = fold_left observe (elems (Stations (Data x))) g
          ∧ resp
            = {| StatusCode := 200;
                 body := Metrics
                           (Gather [bikesAvailable; bikesDisabled;
                                    docksAvailable]
                              (state (FixedProbe.probeGBFS net g r))) |}
    | Panicked =>
        ∃ body,
          net feedURL = Fetched body
          ∧ (GetStationStatuses body = Panics
             ∨ ∃ err, GetStationStatuses body = Returns (None, err))
    | Exited line =>
        net feedURL = GetError line ∨ net feedURL = ReadError line
    end.
Proof.
  intros net g r Hg. unfold FixedProbe.probeGBFS.
  destruct (net feedURL) as [err|err|body] eqn:Hnet;
    [left; reflexivity|right; reflexivity|].
  rewrite (register_all_declared g Hg).
  destruct (GetStationStatuses body) as [[[x|] err]|] eqn:Hdec; cbn.
  - exists body, x, err. auto.
  - exists body. split; [reflexivity|]. right. exists err. exact Hdec.
  - exists body. auto.
Qed.

Lemma FixedProbe_probeGBFS_outcomes_witness :
  match outcome (FixedProbe.probeGBFS (λ _, GetError "no such host") init
                   {| Query := ∅ |}) with
  | Responded resp =>
      ∃ body x err,
        (λ _ : string, GetError "no such host") feedURL = Fetched body
        ∧ GetStationStatuses body = Returns (Some x, err)
        ∧ state (FixedProbe.probeGBFS (λ _, GetError "no such host") init
                   {| Query := ∅ |})
          = fold_left observe (elems (Stations (Data x))) init
        ∧ resp
          = {| StatusCode := 200;
               body := Metrics
                         (Gather [bikesAvailable; bikesDisabled; docksAvailable]
                            (state (FixedProbe.probeGBFS
                                      (λ _, GetError "no such host") init
                                      {| Query := ∅ |}))) |}
  | Panicked =>
      ∃ body,
        (λ _ : string, GetError "no such host") feedURL = Fetched body
        ∧ (GetStationStatuses body = Panics
           ∨ ∃ err, GetStationStatuses body = Returns (None, err))
  | Exited line =>
      (λ _ : string, GetError "no such host") feedURL = GetError line
      ∨ (λ _ : string, GetError "no such host") feedURL = ReadError line
  end.
Proof.
  apply (FixedProbe_probeGBFS_outcomes (λ _, GetError "no such host") init
           {| Query := ∅ |}).
  exact declared_init.
Defined.

(** ** More on the poll loop *)

Lemma Int64_wrap_in_range z : Int64.in_range (Int64.wrap z) = true.
Proof.
  unfold Int64.in_range, Int64.wrap, Int64.min, Int64.max.
  pose proof (Z.mod_pos_bound (z + 2 ^ 63) (2 ^ 64) ltac:(lia)).
  apply andb_true_intro. split; apply Z.leb_le; lia.
Qed.

Lemma Int64_wrap_id z : Int64.wrap z = z ↔ Int64.in_range z = true.
Proof.
  split.
  - intros <-. apply Int64_wrap_in_range.
  - unfold Int64.in_range, Int64.wrap, Int64.min, Int64.max. intros H.
    apply andb_prop in H as [Hlo Hhi].
    apply Z.leb_le in Hlo. apply Z.leb_le in Hhi.
    rewrite Z.mod_small by lia. lia.
Qed.

Lemma sleepLenSeconds_bounds resp :
  minimumPollSleepSeconds ≤ Poll.sleepLenSeconds resp ≤ Int64.max.
Proof.
  unfold Poll.sleepLenSeconds, Int64.add. rewrite Max_max.
  pose proof (Int64_wrap_in_range (TTL (envelope resp) + 1)) as H.
  unfold Int64.in_range, Int64.min, Int64.max in *.
  apply andb_prop in H as [Hlo Hhi].
  apply Z.leb_le in Hlo. apply Z.leb_le in Hhi.
  unfold minimumPollSleepSeconds. lia.
Qed.

Lemma iteration_Sleeps net g g' seconds d :
  Poll.iteration net g = Poll.Sleeps g' seconds d →
  ∃ body resp err,
    net feedURL = Fetched body
    ∧ GetStationStatuses body = Returns (Some resp, err)
    ∧ g' = fold_left observe (elems (Stations (Data resp))) g
    ∧ seconds = Poll.sleepLenSeconds resp
    ∧ d = Int64.mul seconds Poll.Second.
Proof.
  unfold Poll.iteration.
  destruct (net feedURL) as [e|e|body]; try discriminate.
  destruct (GetStationStatuses body) as [[[resp|] err]|] eqn:Hdec;
    try discriminate.
  intros H. injection H as <- <- <-.
  exists body, resp, err. auto.
Qed.




(** X23.  However long the loop runs and whatever the feed sends, every sleep of
    the poll loop is at least [minimumPollSleepSeconds] seconds long in the
    count it logs, and the loop sleeps at most once per fetch. *)
Theorem grabThoseMetrics_sleeps_at_least_minimum :
  ∀ (world : list Internet) (g : Globals) (p : Poll.process) (log : list Z),
    Poll.grabThoseMetrics world g = (p, log) →
    Forall (λ seconds, minimumPollSleepSeconds ≤ seconds) log
    ∧ (length log ≤ length world)%nat.
Proof.
  induction world as [|net later IH]; intros g p log Hrun.
  - cbn in Hrun. injection Hrun as <- <-. split; [constructor|reflexivity].
  - cbn [Poll.grabThoseMetrics] in Hrun.
    destruct (Poll.iteration net g) as [g' seconds d| |line] eqn:Hit.
    + destruct (Poll.grabThoseMetrics later g') as [p' log'] eqn:Hrest.
      injection Hrun as <- <-.
      destruct (IH g' p' log' Hrest) as [Hall Hlen].
      apply iteration_Sleeps in Hit
        as (body & resp & err & _ & _ & _ & -> & _).
      split; [|cbn [length]; lia].
      constructor; [apply sleepLenSeconds_bounds|exact Hall].
    + injection Hrun as <- <-. split; [constructor|cbn [length]; lia].
    + injection Hrun as <- <-. split; [constructor|cbn [length]; lia].
Qed.

Lemma grabThoseMetrics_sleeps_at_least_minimum_witness :
  Forall (λ seconds, minimumPollSleepSeconds ≤ seconds) [10; 31; 10]
  ∧ (length [10; 31; 10] ≤
     length [(λ _, Fetched (q "{'ttl':-5}")); (λ _, Fetched body_7001);
             (λ _, Fetched "oops"); (λ _ : string, ReadError "EOF")])%nat.
Proof.
  apply (grabThoseMetrics_sleeps_at_least_minimum
           [(λ _, Fetched (q "{'ttl':-5}")); (λ _, Fetched body_7001);
            (λ _, Fetched "oops"); (λ _, ReadError "EOF")]
           init (Poll.Dead (Poll.Fatal "EOF")) [10; 31; 10]).
  vm_compute. reflexivity.
Defined.

(** X24.  The duration handed to [time.Sleep] is the logged seconds times
    [time.Second] exactly when the seconds are at most 9223372036; above,
    the int64 product of the conversion wraps around.  In terms of the
    feed: exactly when its TTL is at most 9223372035, or is the largest
    int64, whose sum with 1 has wrapped already. *)
Theorem grabThoseMetrics_sleep_duration :
  ∀ (net : Internet) (g : Globals) (body : string)
    (resp : StationStatusAPIResponse) (err : option error),
    net feedURL = Fetched body →
    GetStationStatuses body = Returns (Some resp, err) →
    ∃ g' seconds d,
      Poll.iteration net g = Poll.Sleeps g' seconds d
      ∧ (d = seconds * Poll.Second ↔ seconds ≤ max_whole_seconds)
      ∧ (seconds ≤ max_whole_seconds
         ↔ TTL (envelope resp) ≤ max_whole_seconds - 1
           ∨ TTL (envelope resp) = Int64.max).
Proof.
  intros net g body resp err Hnet Hdec.
  pose proof (GetStationStatuses_TTL_in_range body resp err Hdec) as Hr.
  unfold Poll.iteration. rewrite Hnet, Hdec.
  do 3 eexists. split; [reflexivity|].
  pose proof (sleepLenSeconds_bounds resp) as [Hlo Hhi].
  set (s := Poll.sleepLenSeconds resp) in *.
  unfold minimumPollSleepSeconds, Int64.max in Hlo, Hhi.
  split.
  - unfold Int64.mul. rewrite Int64_wrap_id.
    unfold Int64.in_range, Int64.min, Int64.max, Poll.Second,
      max_whole_seconds.
    rewrite andb_true_iff, !Z.leb_le. lia.
  - unfold s, Poll.sleepLenSeconds. rewrite Max_max.
    unfold max_whole_seconds, minimumPollSleepSeconds.
    unfold Int64.in_range, Int64.min, Int64.max in Hr.
    apply andb_prop in Hr as [Hrl Hrh].
    apply Z.leb_le in Hrl. apply Z.leb_le in Hrh.
    destruct (Z.eq_dec (TTL (envelope resp)) (2 ^ 63 - 1)) as [E|E].
    + rewrite E. unfold Int64.max. split; [auto|]. intros _.
      vm_compute. discriminate.
    + rewrite Int64_add_1;
        [|unfold Int64.in_range, Int64.min, Int64.max;
          apply andb_true_intro; split; apply Z.leb_le; lia
         |unfold Int64.max; lia].
      unfold Int64.max. lia.
Qed.

Lemma grabThoseMetrics_sleep_duration_witness :
  ∃ g' seconds d,
    Poll.iteration (λ _, Fetched (q "{'ttl':9223372036}")) init
    = Poll.Sleeps g' seconds d
    ∧ (d = seconds * Poll.Second ↔ seconds ≤ max_whole_seconds)
    ∧ (seconds ≤ max_whole_seconds
       ↔ 9223372036 ≤ max_whole_seconds - 1 ∨ 9223372036 = Int64.max).
Proof.
  apply (grabThoseMetrics_sleep_duration
           (λ _, Fetched (q "{'ttl':9223372036}")) init
           (q "{'ttl':9223372036}")
           {| Data := {| Stations := nil_slice |};
              envelope := {| LastUpdated := 0; TTL := 9223372036 |} |} None).
  - reflexivity.
  - vm_compute. reflexivity.
Defined.

(** X25.  The poll loop never drops a station: as long as the loop runs, a child
    that one of the three gauges has stays, with its last value when the
    feed no longer lists the station. *)
Theorem grabThoseMetrics_keeps_stations :
  ∀ (world : list Internet) (g g' : Globals) (log : list Z) (id : string),
    Poll.grabThoseMetrics world g = (Poll.Looping g', log) →
    (id ∈ dom (children (bikesAvailable g)) →
     id ∈ dom (children (bikesAvailable g')))
    ∧ (id ∈ dom (children (bikesDisabled g)) →
       id ∈ dom (children (bikesDisabled g')))
    ∧ (id ∈ dom (children (docksAvailable g)) →
       id ∈ dom (children (docksAvailable g'))).
Proof.
  induction world as [|net later IH]; intros g g' log id Hrun.
  - cbn in Hrun. injection Hrun as <- _. auto.
  - cbn [Poll.grabThoseMetrics] in Hrun.
    destruct (Poll.iteration net g) as [g1 seconds d| |line] eqn:Hit;
      try discriminate.
    destruct (Poll.grabThoseMetrics later g1) as [p' log'] eqn:Hrest.
    injection Hrun as -> _.
    destruct (IH g1 g' log' id Hrest) as (Ia & Ib & Ic).
    apply iteration_Sleeps in Hit
      as (body & resp & err & _ & _ & -> & _ & _).
    set (sts := elems (Stations (Data resp))) in *.
    destruct (fold_observe_written sts g bikesAvailable
                (λ s, float64_of_int64 (BikesAvailable s))) as [Ha _]; [left|].
    destruct (fold_observe_written sts g bikesDisabled
                (λ s, float64_of_int64 (BikesDisabled s))) as [Hb _];
      [right; left|].
    destruct (fold_observe_written sts g docksAvailable
                (λ s, float64_of_int64 (DocksAvailable s))) as [Hc _];
      [right; right; left|].
    split; [|split]; intros H.
    + apply Ia. apply elem_of_dom. rewrite Ha. apply written_dom. left.
      apply elem_of_dom. exact H.
    + apply Ib. apply elem_of_dom. rewrite Hb. apply written_dom. left.
      apply elem_of_dom. exact H.
    + apply Ic. apply elem_of_dom. rewrite Hc. apply written_dom. left.
      apply elem_of_dom. exact H.
Qed.

Lemma grabThoseMetrics_keeps_stations_witness :
  let after_A :=
    fold_left observe
      [entry_station [("station_id", JStr "A1");
                      ("num_bikes_available", JNum (NInt 4))]] init in
  let after_B :=
    fold_left observe
      [entry_station [("station_id", JStr "B1");
                      ("num_bikes_available", JNum (NInt 2))]] after_A in
  Poll.grabThoseMetrics [(λ _, Fetched body_B)] after_A
  = (Poll.Looping after_B, [10])
  ∧ "A1" ∈ dom (children (bikesAvailable after_A))
  ∧ "A1" ∈ dom (children (bikesAvailable after_B)).
Proof.
  intros after_A after_B.
  assert (Hrun : Poll.grabThoseMetrics [(λ _, Fetched body_B)] after_A
                 = (Poll.Looping after_B, [10]))
    by (vm_compute; reflexivity).
  assert (H : "A1" ∈ dom (children (bikesAvailable after_A))).
  { apply elem_of_dom. vm_compute. eexists. reflexivity. }
  split; [exact Hrun|]. split; [exact H|].
  exact (proj1 (grabThoseMetrics_keeps_stations [(λ _, Fetched body_B)]
                  after_A after_B [10] "A1" Hrun) H).
Defined.

(** ** More on the probe handler of src/main.go *)

(** X14.  A call of the handler changes the process-wide gauges only when it
    answers 200: after a 400, a 500 or a panic they are what they were. *)
Theorem Main_probeGBFS_writes_only_on_200 :
  ∀ (net : Internet) (g : Globals) (r : Request),
    state (Main.probeGBFS net g r) ≠ g →
    ∃ e, outcome (Main.probeGBFS net g r)
         = Responded {| StatusCode := 200; body := Metrics e |}.
Proof.
  intros net g r. unfold Main.probeGBFS.
  destruct (String.eqb _ _); [intros H; contradiction|].
  destruct (net _); try (intros H; contradiction).
  destruct (register_all g); [|intros H; contradiction].
  destruct (GetStationStatuses _) as [[[resp|] [err|]]|];
    try (intros H; contradiction).
  intros _. eexists. reflexivity.
Qed.

Lemma Main_probeGBFS_writes_only_on_200_witness :
  ∃ e, outcome (Main.probeGBFS two_feeds init (probe_of target_A))
       = Responded {| StatusCode := 200; body := Metrics e |}.
Proof.
  apply (Main_probeGBFS_writes_only_on_200 two_feeds init (probe_of target_A)).
  intros H.
  assert (E : children (bikesAvailable
                          (state (Main.probeGBFS two_feeds init
                                    (probe_of target_A)))) !! "A1"
              = children (bikesAvailable init) !! "A1")
    by (rewrite H; reflexivity).
  vm_compute in E. discriminate.
Defined.

(** X13.  A target whose body is not JSON, or is JSON but neither an object nor
    [null], is answered 400 with the target named in the text, and the
    gauges are left as they were. *)
Theorem Main_probeGBFS_not_an_object :
  ∀ (net : Internet) (g : Globals) (r : Request) (target body : string),
    declared g →
    Values_Get (Query r) "target" = target →
    target ≠ "" →
    net target = Fetched body →
    not_an_object body →
    ∃ err,
      Main.probeGBFS net g r
      = {| state := g;
           outcome :=
             Responded
               (http_Error
                  ("Could not unmarshal target JSON, target '" +:+ target
                   +:+ "' does not have the expected schema: "
                   +:+ Error err) 400);
           fetched := [target] |}.
Proof.
  intros net g r target body Hg Ht Hne Hnet Hbody.
  apply String.eqb_neq in Hne.
  unfold Main.probeGBFS. rewrite Ht, Hne, Hnet.
  rewrite (register_all_declared g Hg).
  unfold GetStationStatuses, Unmarshal. unfold not_an_object in Hbody.
  destruct (Scan.text body) as [[| | | | |members]|];
    try contradiction; eexists; reflexivity.
Qed.

Lemma Main_probeGBFS_not_an_object_witness :
  ∃ err,
    Main.probeGBFS (λ _, Fetched "<html>Not Found</html>") init
      (probe_of target_A)
    = {| state := init;
         outcome :=
           Responded
             (http_Error
                ("Could not unmarshal target JSON, target '" +:+ target_A
                 +:+ "' does not have the expected schema: "
                 +:+ Error err) 400);
         fetched := [target_A] |}.
Proof.
  apply (Main_probeGBFS_not_an_object (λ _, Fetched "<html>Not Found</html>")
           init (probe_of target_A) target_A "<html>Not Found</html>").
  - exact declared_init.
  - reflexivity.
  - discriminate.
  - reflexivity.
  - vm_compute. exact I.
Defined.
